(** * Policy-gradient agents for 2048: a shallow embedding of [agents.py]

    The numeric code of [agents.py] is written against JAX arrays.  This
    development embeds the parts of it that the specification talks about:

    - [Jnp]: the array operations the file uses (broadcasting arithmetic,
      [jnp.where], [jax.nn.softmax], [jnp.mean], indexing), over values that
      are real numbers extended with the IEEE special values the code itself
      creates ([-jnp.inf] in the masked softmax, [0/0] in the normalisation,
      [log 0]).  Rounding, overflow, underflow and signed zeros are not
      modelled.
    - [Optax]: [optax.schedules.exponential_decay].
    - the classes of [agents.py]: [Network], [RandomPolicy],
      [ReinforcePolicy], [BaseActorCriticPolicy], [ActorCriticPolicy],
      [ReinforceBaselinePolicy].

    Neural networks are opaque in [agents.py] ([eqx.Module]); they enter as
    functions from parameters and one observation to an array of reals. *)

From Stdlib Require Import Reals Lra Lia.
From stdpp Require Import base option list gmap strings.

Local Open Scope R_scope.

(** ** Values, exceptions and arrays *)

Module Jnp.

(** A float is a real number or one of the IEEE special values. *)
Inductive float : Type :=
  | Fin (r : R)
  | PInf
  | NInf
  | NaN.

#[global] Instance R_eq_dec : EqDecision R := Req_dec_T.

Definition fneg (x : float) : float :=
  match x with
  | Fin a => Fin (- a)
  | PInf => NInf
  | NInf => PInf
  | NaN => NaN
  end.

Definition fadd (x y : float) : float :=
  match x, y with
  | NaN, _ | _, NaN => NaN
  | Fin a, Fin b => Fin (a + b)
  | PInf, NInf | NInf, PInf => NaN
  | PInf, _ | _, PInf => PInf
  | NInf, _ | _, NInf => NInf
  end.

Definition fsub (x y : float) : float := fadd x (fneg y).

(** The sign of an infinity times a finite factor: [0 * inf] is NaN. *)
Definition scale_inf (pos : bool) (a : R) : float :=
  if decide (a = 0) then NaN
  else if Rlt_dec 0 a then (if pos then PInf else NInf)
       else (if pos then NInf else PInf).

Definition fmul (x y : float) : float :=
  match x, y with
  | NaN, _ | _, NaN => NaN
  | Fin a, Fin b => Fin (a * b)
  | PInf, Fin a | Fin a, PInf => scale_inf true a
  | NInf, Fin a | Fin a, NInf => scale_inf false a
  | PInf, PInf | NInf, NInf => PInf
  | PInf, NInf | NInf, PInf => NInf
  end.

(** Division: [0/0] and [inf/inf] are NaN, [a/0] is an infinity. *)
Definition fdiv (x y : float) : float :=
  match x, y with
  | NaN, _ | _, NaN => NaN
  | Fin a, Fin b =>
      if decide (b = 0) then scale_inf true a else Fin (a / b)
  | Fin _, (PInf | NInf) => Fin 0
  | PInf, Fin b => if Rlt_dec b 0 then NInf else PInf
  | NInf, Fin b => if Rlt_dec b 0 then PInf else NInf
  | (PInf | NInf), (PInf | NInf) => NaN
  end.

(** The real exponential: positive on every finite argument.  In [float32]
    [exp] underflows to exactly 0 below about [-104]; the statements about
    the code give formulas and exact special values, and none concludes
    from the positivity of [exp] that a probability is positive or that a
    loss is finite. *)
Definition fexp (x : float) : float :=
  match x with
  | Fin a => Fin (exp a)
  | PInf => PInf
  | NInf => Fin 0
  | NaN => NaN
  end.

Definition flog (x : float) : float :=
  match x with
  | Fin a => if Rlt_dec 0 a then Fin (ln a)
             else if decide (a = 0) then NInf else NaN
  | PInf => PInf
  | NInf => NaN
  | NaN => NaN
  end.

(** [jnp.max] propagates NaN. *)
Definition fmax (x y : float) : float :=
  match x, y with
  | NaN, _ | _, NaN => NaN
  | PInf, _ | _, PInf => PInf
  | NInf, z | z, NInf => z
  | Fin a, Fin b => Fin (Rmax a b)
  end.

Definition of_bool (b : bool) : float := if b then Fin 1 else Fin 0.

Definition is_nan (x : float) : Prop := x = NaN.

(** Python exceptions that the array operations of the file can raise. *)
Inductive exn : Type :=
  | IndexError
  | ValueError.

Inductive outcome (A : Type) : Type :=
  | Returns (a : A)
  | Raises (e : exn).
Arguments Returns {A} a.
Arguments Raises {A} e.

#[global] Instance outcome_ret : MRet outcome := fun A a => Returns a.
#[global] Instance outcome_bind : MBind outcome := fun A B f m =>
  match m with
  | Returns a => f a
  | Raises e => Raises e
  end.
#[global] Instance outcome_fmap : FMap outcome := fun A B f m =>
  match m with
  | Returns a => Returns (f a)
  | Raises e => Raises e
  end.

(** [v[i]] for a non-negative integer [i]: indexing an axis of size 0 is an
    [IndexError]; an index past the end is clamped to the last element (JAX
    never raises for out-of-bounds indices into a non-empty axis). *)
Definition getitem {A : Type} (v : list A) (i : nat) : outcome A :=
  match v !! (i `min` pred (length v))%nat with
  | Some x => Returns x
  | None => Raises IndexError
  end.

(** Arrays of rank 0, 1 and 2 (rows of a matrix have equal lengths). *)
Inductive array (A : Type) : Type :=
  | Scalar (x : A)
  | Vec (v : list A)
  | Mat (m : list (list A)).
Arguments Scalar {A} x.
Arguments Vec {A} v.
Arguments Mat {A} m.

Definition amap {A B : Type} (f : A → B) (a : array A) : array B :=
  match a with
  | Scalar x => Scalar (f x)
  | Vec v => Vec (fmap (M:=list) f v)
  | Mat m => Mat (fmap (M:=list) (fmap (M:=list) f) m)
  end.

(** NumPy broadcasting along one axis: equal sizes, or one side of size 1. *)
Definition broadcast_vec {A B C : Type} (f : A → B → C)
    (u : list A) (v : list B) : outcome (list C) :=
  if decide (length u = length v) then Returns (zip_with f u v)
  else match u, v with
       | [a], _ => Returns (f a <$> v)
       | _, [b] => Returns ((λ a, f a b) <$> u)
       | _, _ => Raises ValueError
       end.

Definition broadcast_mat {A B C : Type} (f : A → B → C)
    (m : list (list A)) (n : list (list B)) : outcome (list (list C)) :=
  if decide (length m = length n)
  then mapM (λ p, broadcast_vec f p.1 p.2) (zip m n)
  else match m, n with
       | [r], _ => mapM (broadcast_vec f r) n
       | _, [r] => mapM (λ x, broadcast_vec f x r) m
       | _, _ => Raises ValueError
       end.

(** An elementwise binary operation with broadcasting; the operand of lower
    rank gets leading axes of size 1. *)
Definition binop {A B C : Type} (f : A → B → C)
    (a : array A) (b : array B) : outcome (array C) :=
  match a, b with
  | Scalar x, _ => Returns (amap (f x) b)
  | _, Scalar y => Returns (amap (λ x, f x y) a)
  | Vec u, Vec v => Vec <$> broadcast_vec f u v
  | Vec u, Mat n => Mat <$> broadcast_mat f [u] n
  | Mat m, Vec v => Mat <$> broadcast_mat f m [v]
  | Mat m, Mat n => Mat <$> broadcast_mat f m n
  end.

Definition add := binop fadd.
Definition sub := binop fsub.
Definition mul := binop fmul.
Definition div := binop fdiv.

(** [jnp.where(cond, x, y)] with a Python scalar [y]. *)
Definition where_ (cond : array bool) (x : array float) (y : float)
    : outcome (array float) :=
  binop (λ (c : bool) v, if c then v else y) cond x.

Definition elements {A : Type} (a : array A) : list A :=
  match a with
  | Scalar x => [x]
  | Vec v => v
  | Mat m => concat m
  end.

Definition fsum (v : list float) : float := foldr fadd (Fin 0) v.

(** [a.sum()] and [jnp.mean(a)] over all elements. *)
Definition sum (a : array float) : float := fsum (elements a).

Definition mean (a : array float) : float :=
  fdiv (sum a) (Fin (INR (length (elements a)))).

(** [jax.nn.softmax] of one row: subtract the maximum, exponentiate,
    divide by the sum.  The maximum of an empty row is a [ValueError]. *)
Definition softmax_row (x : list float) : outcome (list float) :=
  match x with
  | [] => Raises ValueError
  | _ =>
      let x_max := foldr fmax NInf x in
      let unnormalized := (λ v, fexp (fsub v x_max)) <$> x in
      let total := fsum unnormalized in
      Returns ((λ u, fdiv u total) <$> unnormalized)
  end.

(** [jax.nn.softmax(x)] normalises along the last axis. *)
Definition softmax (x : array float) : outcome (array float) :=
  match x with
  | Scalar _ => Raises ValueError
  | Vec v => Vec <$> softmax_row v
  | Mat m => Mat <$> mapM softmax_row m
  end.

(** [jnp.stack] of the per-example outputs of a [jax.vmap]. *)
Definition stack {A : Type} (xs : list (array A)) : outcome (array A) :=
  match xs with
  | [] => Returns (Vec [])
  | Scalar _ :: _ =>
      Vec <$> mapM (λ a, match a with
                         | Scalar x => Returns x
                         | _ => Raises ValueError
                         end) xs
  | Vec _ :: _ =>
      Mat <$> mapM (λ a, match a with
                         | Vec v => Returns v
                         | _ => Raises ValueError
                         end) xs
  | Mat _ :: _ => Raises ValueError
  end.

End Jnp.
Import Jnp.

(** ** [optax.schedules.exponential_decay] *)

Module Optax.

(** [exponential_decay(init_value, transition_steps, decay_rate,
    transition_begin=0, staircase=False, end_value=None)] returns the
    schedule [count ↦ init_value * decay_rate ^ ((count - transition_begin)
    / transition_steps)], clipped at [end_value] when one is given.  A
    non-positive [transition_steps] or a zero [decay_rate] gives the constant
    schedule, and a negative [transition_begin] is replaced by 0.  The power
    is [Rpower], which is [jnp.power] for a positive base; it is never 0,
    where the [float32] schedule underflows to 0 after enough steps. *)
Definition exponential_decay (init_value : R) (transition_steps : Z)
    (decay_rate : R) (transition_begin : R) (staircase : bool)
    (end_value : option R) : nat → R :=
  if decide (transition_steps ≤ 0)%Z then λ _, init_value
  else if decide (decay_rate = 0) then λ _, init_value
  else
    let transition_begin :=
      if Rlt_dec transition_begin 0 then 0 else transition_begin in
    λ count,
      let decreased_count := INR count - transition_begin in
      let p := decreased_count / IZR transition_steps in
      let p := if staircase then IZR (Int_part p) else p in
      let decayed_value :=
        if Rle_dec decreased_count 0 then init_value
        else init_value * Rpower decay_rate p in
      match end_value with
      | None => decayed_value
      | Some e =>
          if Rlt_dec decay_rate 1 then Rmax decayed_value e
          else Rmin decayed_value e
      end.

End Optax.

(** ** Data carried through the training loop *)

Definition LogDict : Type := gmap string float.

Record NetworkState (Params OptState : Type) : Type := {
  model_parameters : Params;
  optimizer_state : OptState
}.
Arguments model_parameters {Params OptState} _.
Arguments optimizer_state {Params OptState} _.

Record PolicyState (Params OptState : Type) : Type := {
  actor_network_state : NetworkState Params OptState
}.
Arguments actor_network_state {Params OptState} _.

(** A batch of transitions: every field is an array with a leading batch
    axis.  Observations are opaque; a mask row has one flag per action. *)
Record Transition (Obs : Type) : Type := {
  observation : list Obs;
  action : list nat;
  action_mask : list (list bool);
  reward : list R;
  done : list bool;
  next_observation : list Obs
}.
Arguments observation {Obs} _.
Arguments action {Obs} _.
Arguments action_mask {Obs} _.
Arguments reward {Obs} _.
Arguments done {Obs} _.
Arguments next_observation {Obs} _.

(** All fields share the batch axis and every mask row has [n_actions] flags. *)
Definition well_formed {Obs : Type} (n_actions : nat) (t : Transition Obs)
    : Prop :=
  let n := length (reward t) in
  length (observation t) = n ∧ length (action t) = n
  ∧ length (action_mask t) = n ∧ length (done t) = n
  ∧ length (next_observation t) = n
  ∧ Forall (λ row, length row = n_actions) (action_mask t)
  ∧ Forall (λ a, (a < n_actions)%nat) (action t).

(** An observation argument is one observation ([ndim = 3]) or a batch of
    them ([ndim = 4]). *)
Inductive obs_array (Obs : Type) : Type :=
  | Obs3 (o : Obs)
  | Obs4 (os : list Obs).
Arguments Obs3 {Obs} o.
Arguments Obs4 {Obs} os.

(** ** [class Network] *)

Module Network.
Section Network.
Context {Obs Params OptState : Type}.

(** [model_functions] is [eqx.combine(params, self.model_functions)]
    applied to one input; [learning_rate] and [lr_decay] are the
    constructor's arguments. *)
Record t : Type := {
  model_functions : Params → Obs → array R;
  learning_rate : R;
  lr_decay : option Z;
  init_state : NetworkState Params OptState
}.

(** The schedule handed to [optax.adam] by [__init__]. *)
Definition learning_rate_scheduler (learning_rate : R)
    (lr_decay : option Z) : nat → R :=
  match lr_decay with
  | None => λ _, learning_rate
  | Some lr_decay =>
      Optax.exponential_decay learning_rate lr_decay
        (Rmin learning_rate (1 / 100000)) (1 / 2) false None
  end.

Definition get_init_state (self : t) : NetworkState Params OptState :=
  init_state self.

Definition get_logits (self : t) (model_parameters : Params)
    (model_input : Obs) : array float :=
  amap Fin (model_functions self model_parameters model_input).

Definition get_batch_logits (self : t) (model_parameters : Params)
    (model_inputs : list Obs) : outcome (array float) :=
  stack (get_logits self model_parameters <$> model_inputs).
End Network.
Arguments t : clear implicits.
End Network.

(** ** [class Policy] *)

Module Policy.
Section Policy.
Context {Obs Params OptState Key : Type}.

(** The abstract method [sample_action] dispatches to. *)
Class t : Type := {
  get_action_probabilities :
    Params → Obs → array bool → outcome (array float)
}.

(** [jax.random.choice(key, a, p=p)]: the drawn element of [a]. *)
Variable choice : Key → list nat → list float → nat.

Definition shape0 {A : Type} (a : array A) : outcome nat :=
  match a with
  | Scalar _ => Raises IndexError
  | Vec v => Returns (length v)
  | Mat m => Returns (length m)
  end.

Definition sample_action `{t} (key : Key)
    (policy_state : PolicyState Params OptState) (observation : Obs)
    (action_mask : list bool) : outcome nat :=
  action_probs ←
    get_action_probabilities
      (model_parameters (actor_network_state policy_state))
      observation (Vec action_mask);
  masked_probs ← mul action_probs (Vec (of_bool <$> action_mask));
  masked_probs ← div masked_probs (Scalar (sum masked_probs));
  n ← shape0 action_probs;
  match masked_probs with
  | Vec p =>
      if decide (n = 0)%nat then Raises ValueError
      else if decide (length p = n) then Returns (choice key (seq 0 n) p)
      else Raises ValueError
  | _ => Raises ValueError
  end.

(** [jax.vmap] of [get_action_probabilities] over the batch (the mapped
    axes must have one size), then [jnp.take_along_axis]: the entry of the
    taken action in each row, NaN for an action out of range. *)
Definition actions_to_probabilities `{t} (model_parameters : Params)
    (observations : list Obs) (actions : list nat)
    (action_masks : list (list bool)) : outcome (list float) :=
  if decide (length observations = length action_masks) then
    all_probabilities ←
      mapM (λ p, get_action_probabilities model_parameters p.1 (Vec p.2))
        (zip observations action_masks);
    rows ← mapM (λ a, match a with
                      | Vec row => Returns row
                      | _ => Raises ValueError
                      end) all_probabilities;
    broadcast_vec (λ (row : list float) a, default NaN (row !! a))
      rows actions
  else Raises ValueError.
End Policy.
Arguments t : clear implicits.
End Policy.

(** ** [class RandomPolicy] *)

Module RandomPolicy.
Section RandomPolicy.
Context {Obs Params OptState : Type}.

Definition get_action_probabilities (model_parameters : Params)
    (observation : Obs) (action_mask : array bool)
    : outcome (array float) :=
  div (amap of_bool action_mask) (Scalar (sum (amap of_bool action_mask))).

Definition compute_loss (model_parameters : Params)
    (transitions : Transition Obs) : float * LogDict :=
  (Fin 0, ∅).

Definition update (state : PolicyState Params OptState)
    (transitions : Transition Obs) : PolicyState Params OptState :=
  state.

#[export] Instance policy : Policy.t Obs Params :=
  {| Policy.get_action_probabilities := get_action_probabilities |}.
End RandomPolicy.
End RandomPolicy.

(** ** [class ReinforcePolicy] *)

Module ReinforcePolicy.
Section ReinforcePolicy.
Context {Obs Params OptState : Type}.

Record t : Type := {
  actor : Network.t Obs Params OptState;
  discount_factor : R
}.

Definition b2r (b : bool) : R := if b then 1 else 0.

(** One iteration of the reverse loop: the state is the running return
    and the array of returns filled so far. *)
Definition returns_step (rewards : list R) (dones : list bool)
    (discount_factor : R) (st : outcome (R * list R)) (i : nat)
    : outcome (R * list R) :=
  '(running_return, discounted_returns) ← st;
  r ← getitem rewards i;
  d ← getitem dones i;
  let running_return :=
    r + discount_factor * running_return * (1 - b2r d) in
  Returns (running_return, <[i := running_return]> discounted_returns).

(** [for i in range(rewards.shape[0] - 1, -1, -1)] over
    [jnp.zeros_like(rewards)] and [running_return = 0.0]. *)
Definition compute_discounted_returns (transitions : Transition Obs)
    (discount_factor : R) : outcome (list R) :=
  let rewards := reward transitions in
  let dones := done transitions in
  let n := length rewards in
  snd <$> foldl (returns_step rewards dones discount_factor)
            (Returns (0, replicate n 0)) (reverse (seq 0 n)).

(** [if observation.ndim == 4: observation = observation[0]], then the
    masked softmax; [action_mask] may be one row or a batch of rows. *)
Definition get_action_probabilities (self : t) (model_parameters : Params)
    (observation : obs_array Obs) (action_mask : array bool)
    : outcome (array float) :=
  observation ← match observation with
                | Obs4 os => getitem os 0
                | Obs3 o => Returns o
                end;
  let logits := Network.get_logits (actor self) model_parameters observation in
  masked_logits ← where_ action_mask logits NInf;
  action_probabilities ← softmax masked_logits;
  where_ action_mask action_probabilities (Fin 0).

(** [a[jnp.arange(a.shape[0]), idx]] *)
Definition take_rows (a : array float) (idx : list nat)
    : outcome (list float) :=
  match a with
  | Mat m =>
      pairs ← broadcast_vec pair (seq 0 (length m)) idx;
      mapM (λ p : nat * nat, row ← getitem m p.1; getitem row p.2) pairs
  | _ => Raises IndexError
  end.

Definition compute_loss (self : t) (model_parameters : Params)
    (transitions : Transition Obs) : outcome (float * LogDict) :=
  discounted_returns ←
    compute_discounted_returns transitions (discount_factor self);
  action_probs ←
    get_action_probabilities self model_parameters
      (Obs4 (observation transitions)) (Mat (action_mask transitions));
  let action_log_probs := amap flog action_probs in
  action_log_probs ← take_rows action_log_probs (action transitions);
  weighted ← mul (Vec (Fin <$> discounted_returns)) (Vec action_log_probs);
  let loss := fneg (mean weighted) in
  Returns (loss, {["Actor loss" := loss]}).

#[export] Instance policy (self : t) : Policy.t Obs Params :=
  {| Policy.get_action_probabilities := λ model_parameters observation,
       get_action_probabilities self model_parameters (Obs3 observation) |}.
End ReinforcePolicy.
Arguments t : clear implicits.
End ReinforcePolicy.

(** ** [class BaseActorCriticPolicy] and [class ActorCriticPolicy] *)

Record ActorCriticState (Params OptState : Type) : Type := {
  ac_actor_network_state : NetworkState Params OptState;
  critic_network_state : NetworkState Params OptState
}.
Arguments ac_actor_network_state {Params OptState} _.
Arguments critic_network_state {Params OptState} _.

Module BaseActorCriticPolicy.
Section BaseActorCriticPolicy.
Context {Obs Params OptState : Type}.

Record t : Type := {
  actor : Network.t Obs Params OptState;
  critic : Network.t Obs Params OptState;
  discount_factor : R
}.

Definition get_action_probabilities (self : t) (model_parameters : Params)
    (observation : Obs) (action_mask : array bool)
    : outcome (array float) :=
  let logits := Network.get_logits (actor self) model_parameters observation in
  masked_logits ← where_ action_mask logits NInf;
  action_probabilities ← softmax masked_logits;
  where_ action_mask action_probabilities (Fin 0).

#[export] Instance policy (self : t) : Policy.t Obs Params :=
  {| Policy.get_action_probabilities := get_action_probabilities self |}.
End BaseActorCriticPolicy.
Arguments t : clear implicits.
End BaseActorCriticPolicy.

Module ActorCriticPolicy.
Section ActorCriticPolicy.
Context {Obs Params OptState : Type}.
Import BaseActorCriticPolicy.

Definition get_init_state (self : t Obs Params OptState)
    : ActorCriticState Params OptState :=
  {| ac_actor_network_state := Network.get_init_state (actor self);
     critic_network_state := Network.get_init_state (critic self) |}.

(** [jax.lax.stop_gradient] is the identity on values. *)
Definition stop_gradient {A : Type} (x : A) : A := x.

(** [jax.lax.scan(f, None, xs)] with an unused carry: the body is traced
    once whatever the length of [xs], so an exception that depends on
    shapes only is raised for an empty [xs] too. *)
Definition scan {A : Type} (f : nat → outcome A) (xs : list nat)
    : outcome (list A) :=
  _ ← f 0%nat; mapM f xs.

Definition compute_log_prob (self : t Obs Params OptState)
    (actor_parameters : Params) (observations : list Obs)
    (actions : list nat) (action_mask : list (list bool)) (idx : nat)
    : outcome float :=
  observation ← getitem observations idx;
  mask ← getitem action_mask idx;
  action_probabilities ←
    get_action_probabilities self actor_parameters observation (Vec mask);
  a ← getitem actions idx;
  p ← match action_probabilities with
      | Vec v => getitem v a
      | _ => Raises IndexError
      end;
  Returns (flog p).

Definition compute_loss (self : t Obs Params OptState)
    (model_parameters : Params * Params) (transitions : Transition Obs)
    : outcome (float * LogDict) :=
  let '(actor_parameters, critic_parameters) := model_parameters in
  let observations := observation transitions in
  let actions := action transitions in
  let action_mask := action_mask transitions in
  let rewards := Vec (Fin <$> reward transitions) in
  let dones := Vec (of_bool <$> done transitions) in
  let next_observation := next_observation transitions in
  let gamma := Scalar (Fin (discount_factor self)) in
  predicted_values ←
    Network.get_batch_logits (critic self) critic_parameters observations;
  next_values ←
    Network.get_batch_logits (critic self) critic_parameters next_observation;
  not_done ← sub (Scalar (Fin 1)) dones;
  (* rewards + gamma*stop_gradient(next_values*(1.0 - dones))
     - stop_gradient(predicted_values) *)
  bootstrap ← mul next_values not_done;
  discounted ← mul gamma (stop_gradient bootstrap);
  target ← add rewards discounted;
  actor_advantage ← sub target (stop_gradient predicted_values);
  (* predicted_values
     - stop_gradient(rewards + gamma*next_values*(1.0 - dones)) *)
  scaled ← mul gamma next_values;
  scaled ← mul scaled not_done;
  critic_target ← add rewards scaled;
  critic_advantage ← sub predicted_values (stop_gradient critic_target);
  action_log_probabilities ←
    scan (compute_log_prob self actor_parameters observations actions
            action_mask)
      (seq 0 (length observations));
  weighted ← mul (Vec action_log_probabilities) actor_advantage;
  let actor_loss := fneg (mean weighted) in
  let critic_loss :=
    fmul (Fin (1 / 2)) (mean (amap (λ x, fmul x x) critic_advantage)) in
  let loss := fadd actor_loss critic_loss in
  Returns (loss, <["Critic loss" := critic_loss]>
                   {["Actor loss" := actor_loss]}).
End ActorCriticPolicy.
End ActorCriticPolicy.

(** ** The losses as the specification words them *)

Module Spec.
Section Spec.
Context {Obs Params OptState : Type}.

(** REINFORCE: the negative mean of [G[i] * log pi(a_i | s_i)], with
    [pi(a_i | s_i)] selected per example as in
    [Policy.actions_to_probabilities]. *)
Definition reinforce_loss (self : ReinforcePolicy.t Obs Params OptState)
    (model_parameters : Params) (transitions : Transition Obs)
    : outcome float :=
  G ← ReinforcePolicy.compute_discounted_returns transitions
        (ReinforcePolicy.discount_factor self);
  probabilities ←
    Policy.actions_to_probabilities (H := ReinforcePolicy.policy self)
      model_parameters (observation transitions) (action transitions)
      (action_mask transitions);
  weighted ← mul (Vec (Fin <$> G)) (Vec (flog <$> probabilities));
  Returns (fneg (mean weighted)).

(** The value the critic assigns to one observation: its single output. *)
Definition value (critic : Network.t Obs Params OptState)
    (critic_parameters : Params) (o : Obs) : outcome float :=
  match Network.get_logits critic critic_parameters o with
  | Scalar v | Vec [v] => Returns v
  | _ => Raises ValueError
  end.

(** Actor-critic, per example: [target = r + gamma * V(s') * (1 - done)],
    actor loss [- mean (log pi(a|s) * (target - V(s)))], critic loss
    [1/2 * mean ((V(s) - target)^2)], total loss their sum. *)
Definition actor_critic_loss
    (self : BaseActorCriticPolicy.t Obs Params OptState)
    (model_parameters : Params * Params) (transitions : Transition Obs)
    : outcome float :=
  let '(actor_parameters, critic_parameters) := model_parameters in
  let gamma := Fin (BaseActorCriticPolicy.discount_factor self) in
  V ← mapM (value (BaseActorCriticPolicy.critic self) critic_parameters)
        (observation transitions);
  V' ← mapM (value (BaseActorCriticPolicy.critic self) critic_parameters)
         (next_observation transitions);
  probabilities ←
    Policy.actions_to_probabilities
      (H := BaseActorCriticPolicy.policy self)
      actor_parameters (observation transitions) (action transitions)
      (action_mask transitions);
  let target :=
    zip_with fadd (Fin <$> reward transitions)
      (zip_with (λ v' d, fmul (fmul gamma v') (fsub (Fin 1) (of_bool d)))
         V' (done transitions)) in
  let actor_loss :=
    fneg (mean (Vec (zip_with fmul (flog <$> probabilities)
                       (zip_with fsub target V)))) in
  let critic_loss :=
    fmul (Fin (1 / 2))
      (mean (Vec ((λ e, fmul e e) <$> zip_with fsub V target))) in
  Returns (fadd actor_loss critic_loss).

(** The learning rate after [count] steps: halved every [lr_decay] steps
    and floored at the smaller of the nominal rate and [1e-5]; constant
    without [lr_decay]. *)
Definition learning_rate (learning_rate : R) (lr_decay : option Z)
    (count : nat) : R :=
  match lr_decay with
  | None => learning_rate
  | Some steps =>
      Rmax (learning_rate * Rpower (1 / 2) (INR count / IZR steps))
        (Rmin learning_rate (1 / 100000))
  end.
End Spec.
End Spec.

(** ** Small concrete networks and batches *)

Module Fixtures.

Definition net_state : NetworkState unit unit :=
  {| model_parameters := tt; optimizer_state := tt |}.

Definition policy_state : PolicyState unit unit :=
  {| actor_network_state := net_state |}.

(** An actor whose logits are the observation itself. *)
Definition echo_actor : Network.t (list R) unit unit :=
  {| Network.model_functions := λ _ o, Vec o;
     Network.learning_rate := 1 / 1000;
     Network.lr_decay := None;
     Network.init_state := net_state |}.

(** A critic whose output has shape [1], as [Network.get_logits]
    documents: the first component of the observation. *)
Definition head_critic : Network.t (list R) unit unit :=
  {| Network.model_functions := λ _ o, Vec [default 0 (head o)];
     Network.learning_rate := 1 / 1000;
     Network.lr_decay := None;
     Network.init_state := net_state |}.

(** The same critic with a 0-d output. *)
Definition scalar_critic : Network.t (list R) unit unit :=
  {| Network.model_functions := λ _ o, Scalar (default 0 (head o));
     Network.learning_rate := 1 / 1000;
     Network.lr_decay := None;
     Network.init_state := net_state |}.

Definition reinforce : ReinforcePolicy.t (list R) unit unit :=
  {| ReinforcePolicy.actor := echo_actor;
     ReinforcePolicy.discount_factor := 1 |}.

Definition actor_critic : BaseActorCriticPolicy.t (list R) unit unit :=
  {| BaseActorCriticPolicy.actor := echo_actor;
     BaseActorCriticPolicy.critic := head_critic;
     BaseActorCriticPolicy.discount_factor := 1 |}.

Definition actor_scalar_critic : BaseActorCriticPolicy.t (list R) unit unit :=
  {| BaseActorCriticPolicy.actor := echo_actor;
     BaseActorCriticPolicy.critic := scalar_critic;
     BaseActorCriticPolicy.discount_factor := 1 |}.

(** Two one-step episodes in two different states; the first two of the
    four actions are allowed in both. *)
Definition two_states : Transition (list R) :=
  {| observation := [[0; 0; 0; 0]; [1; 0; 0; 0]];
     action := [0%nat; 0%nat];
     action_mask := [[true; true; false; false];
                     [true; true; false; false]];
     reward := [0; 1];
     done := [true; true];
     next_observation := [[0; 0; 0; 0]; [0; 0; 0; 0]] |}.

(** The same two episodes when only the taken action is allowed. *)
Definition two_states_forced : Transition (list R) :=
  {| observation := [[0; 0; 0; 0]; [1; 0; 0; 0]];
     action := [0%nat; 0%nat];
     action_mask := [[true; false; false; false];
                     [true; false; false; false]];
     reward := [0; 1];
     done := [true; true];
     next_observation := [[0; 0; 0; 0]; [0; 0; 0; 0]] |}.

Definition empty_batch {Obs : Type} : Transition Obs :=
  {| observation := []; action := []; action_mask := []; reward := [];
     done := []; next_observation := [] |}.

(** A sampler that always draws the first element. *)
Definition first_choice (key : unit) (a : list nat) (p : list float) : nat :=
  default 0%nat (head a).

End Fixtures.

(** ** Reference functions on reals

    What the array code computes on finite inputs, written on lists of
    reals; the lemmas below relate the two. *)

(** The entries of [xs] at the positions that [mask] allows. *)
Fixpoint valid_entries {A : Type} (mask : list bool) (xs : list A) : list A :=
  match mask, xs with
  | c :: mask, x :: xs =>
      if c then x :: valid_entries mask xs else valid_entries mask xs
  | _, _ => []
  end.

Definition rsum (v : list R) : R := foldr Rplus 0 v.

(** The largest allowed logit, if any action is allowed. *)
Definition valid_max (mask : list bool) (l : list R) : option R :=
  foldr (λ (p : bool * R) acc,
           if p.1 then Some (match acc with
                             | Some a => Rmax p.2 a
                             | None => p.2
                             end)
           else acc) None (zip mask l).

(** The masked softmax as a function on reals: what the three array
    operations of [get_action_probabilities] compute on finite logits. *)
Definition masked_softmax (mask : list bool) (l : list R) : list R :=
  let x_max := default 0 (valid_max mask l) in
  let unnormalized :=
    zip_with (λ (c : bool) v, if c then exp (v - x_max) else 0) mask l in
  let total := rsum unnormalized in
  zip_with (λ (c : bool) v, if c then v else 0) mask
    ((λ u, u / total) <$> unnormalized).

(** What the specification asks of a probability vector for a mask: one
    entry per action, exactly 0 where the mask forbids, and the allowed
    entries sum to 1 (exactly here, so also within [1e-5]). *)
Definition is_masked_distribution (mask : list bool) (probs : list float)
    : Prop :=
  length probs = length mask
  ∧ (∀ i, mask !! i = Some false → probs !! i = Some (Fin 0))
  ∧ fsum (valid_entries mask probs) = Fin 1
  ∧ ∃ s, fsum (valid_entries mask probs) = Fin s
         ∧ Rabs (s - 1) <= 1 / 100000.

(** One row of the result of the three array operations, when the row of
    the mask has one flag per logit. *)
Definition row_probabilities (x : list float) (mask : list bool)
    : list float :=
  let masked := zip_with (λ (c : bool) v, if c then v else NInf) mask x in
  let x_max := foldr fmax NInf masked in
  let unnormalized := (λ v, fexp (fsub v x_max)) <$> masked in
  zip_with (λ (c : bool) v, if c then v else Fin 0) mask
    ((λ u, fdiv u (fsum unnormalized)) <$> unnormalized).

(** The number of allowed actions, and the uniform distribution on them. *)
Definition n_valid (mask : list bool) : R :=
  rsum (ReinforcePolicy.b2r <$> mask).

Definition uniform (mask : list bool) : list R :=
  (λ x, x / n_valid mask) <$> (ReinforcePolicy.b2r <$> mask).

(** The probabilities [sample_action] hands to [jax.random.choice]. *)
Definition normalized (mask : list bool) : list float :=
  let action_probs :=
    (λ x, fdiv x (fsum (of_bool <$> mask))) <$> (of_bool <$> mask) in
  let masked_probs := zip_with fmul action_probs (of_bool <$> mask) in
  (λ x, fdiv x (fsum masked_probs)) <$> masked_probs.


(** One transition, and the batch whose arrays hold a list of them: the
    batches in which every field has the same leading axis. *)
Record Step (Obs : Type) : Type := {
  step_observation : Obs;
  step_action : nat;
  step_action_mask : list bool;
  step_reward : R;
  step_done : bool;
  step_next_observation : Obs
}.
Arguments step_observation {Obs} _.
Arguments step_action {Obs} _.
Arguments step_action_mask {Obs} _.
Arguments step_reward {Obs} _.
Arguments step_done {Obs} _.
Arguments step_next_observation {Obs} _.

Definition batch_of {Obs : Type} (steps : list (Step Obs)) : Transition Obs :=
  {| observation := step_observation <$> steps;
     action := step_action <$> steps;
     action_mask := step_action_mask <$> steps;
     reward := step_reward <$> steps;
     done := step_done <$> steps;
     next_observation := step_next_observation <$> steps |}.

(** The probability that the masked softmax of [logits] gives to the action
    taken in a step. *)
Definition taken_probability {Obs : Type} (logits : Obs → list R)
    (s : Step Obs) : float :=
  default NaN
    (row_probabilities (Fin <$> logits (step_observation s))
       (step_action_mask s) !! step_action s).

(** A step whose actor logits, mask and action fit an action set of
    [n_actions] actions. *)
Definition fits {Obs Params OptState : Type}
    (self : BaseActorCriticPolicy.t Obs Params OptState)
    (actor_parameters : Params) (n_actions : nat) (logits : Obs → list R)
    (s : Step Obs) : Prop :=
  Network.model_functions (BaseActorCriticPolicy.actor self)
    actor_parameters (step_observation s)
  = Vec (logits (step_observation s))
  ∧ length (logits (step_observation s)) = n_actions
  ∧ length (step_action_mask s) = n_actions
  ∧ (step_action s < n_actions)%nat.


(** The returns as a function on the reward and done lists: each return is
    the reward plus the discounted return of the next step, unless the step
    ends an episode. *)
Fixpoint discounted (discount_factor : R) (rewards : list R)
    (dones : list bool) : list R :=
  match rewards, dones with
  | r :: rewards, d :: dones =>
      let G := discounted discount_factor rewards dones in
      (r + discount_factor * default 0 (head G) * (1 - ReinforcePolicy.b2r d))
        :: G
  | _, _ => []
  end.

(** The discounted sum [r0 + g * (r1 + g * (r2 + ...))] of a list of
    rewards. *)
Definition discounted_sum (discount_factor : R) (rewards : list R) : R :=
  foldr (λ r acc, r + discount_factor * acc) 0 rewards.

(** A batch of which only the reward and done arrays matter. *)
Definition reward_batch (rewards : list R) (dones : list bool)
    : Transition unit :=
  {| observation := (λ _, tt) <$> rewards;
     action := (λ _, 0%nat) <$> rewards;
     action_mask := (λ _, [true]) <$> rewards;
     reward := rewards;
     done := dones;
     next_observation := (λ _, tt) <$> rewards |}.

(** The renormalisation of [sample_action]: the probabilities times the
    mask, divided by their sum. *)
Definition renormalized (action_probs : list float) (mask : list bool)
    : list float :=
  let masked_probs := zip_with fmul action_probs (of_bool <$> mask) in
  (λ x, fdiv x (fsum masked_probs)) <$> masked_probs.

(** The logarithm of the probability that the masked softmax of [logits]
    gives to the action of a step under the mask of that step: the entry of
    the step in the log-probabilities of [ReinforcePolicy.compute_loss] when
    [logits] are the logits of the first observation. *)
Definition log_probability {Obs : Type} (logits : list R) (s : Step Obs)
    : float :=
  flog (default NaN
          (row_probabilities (Fin <$> logits) (step_action_mask s)
           !! step_action s)).

(** The REINFORCE loss of the code on a batch of steps, given the logits of
    the first observation. *)
Definition first_observation_loss {Obs : Type} (discount_factor : R)
    (logits : list R) (steps : list (Step Obs)) : float :=
  fneg (mean (Vec (zip_with fmul
                     (Fin <$> discounted discount_factor
                                (step_reward <$> steps) (step_done <$> steps))
                     (log_probability logits <$> steps)))).

Definition finite (x : float) : Prop := ∃ r, x = Fin r.

(** Two steps in the same state, and one step whose action is forbidden. *)
Definition step_a : Step (list R) :=
  {| step_observation := [0; 0; 0; 0]; step_action := 0%nat;
     step_action_mask := [true; true; false; false];
     step_reward := 1; step_done := false;
     step_next_observation := [0; 0; 0; 0] |}.

Definition step_b : Step (list R) :=
  {| step_observation := [0; 0; 0; 0]; step_action := 1%nat;
     step_action_mask := [true; true; false; false];
     step_reward := 2; step_done := true;
     step_next_observation := [0; 0; 0; 0] |}.

Definition step_forbidden : Step (list R) :=
  {| step_observation := [0; 0; 0; 0]; step_action := 2%nat;
     step_action_mask := [true; true; false; false];
     step_reward := 1; step_done := true;
     step_next_observation := [0; 0; 0; 0] |}.

(** A one-step episode from a state whose first component is its reward. *)
Definition step_valued : Step (list R) :=
  {| step_observation := [1; 0; 0; 0]; step_action := 0%nat;
     step_action_mask := [true; true; false; false];
     step_reward := 1; step_done := true;
     step_next_observation := [0; 0; 0; 0] |}.

Definition same_state_steps : list (Step (list R)) := [step_a; step_b].

Definition forbidden_step : list (Step (list R)) := [step_forbidden].

(** A column (shape [B, 1]) and a grid (shape [B, B]) over a batch. *)
Definition column {T A : Type} (a : T → A) (steps : list T) : list (list A) :=
  (λ s, [a s]) <$> steps.

Definition outer {T A : Type} (g : T → T → A) (steps : list T)
    : list (list A) :=
  (λ si, (λ sj, g si sj) <$> steps) <$> steps.

(** The losses of [ActorCriticPolicy.compute_loss] when the critic output
    has shape [1]: means over all pairs [(i, j)] of rows, the values coming
    from row [i] and the reward, the done flag and the log-probability from
    row [j]. *)
Definition pair_target {Obs : Type} (discount_factor : R) (V : Obs → R)
    (si sj : Step Obs) : R :=
  step_reward sj
  + discount_factor * V (step_next_observation si)
    * (1 - ReinforcePolicy.b2r (step_done sj)).

Definition pairwise_actor_loss {Obs : Type} (discount_factor : R)
    (logits : Obs → list R) (V : Obs → R) (steps : list (Step Obs))
    : float :=
  fneg (mean (Mat (outer
    (λ si sj,
       fmul (flog (taken_probability logits sj))
         (Fin (pair_target discount_factor V si sj
               - V (step_observation si))))
    steps))).

Definition pairwise_critic_loss {Obs : Type} (discount_factor : R)
    (V : Obs → R) (steps : list (Step Obs)) : float :=
  fmul (Fin (1 / 2))
    (mean (Mat (outer
      (λ si sj,
         Fin ((V (step_observation si) - pair_target discount_factor V si sj)
              * (V (step_observation si)
                 - pair_target discount_factor V si sj)))
      steps))).


(** ** [class ReinforceBaselinePolicy(ActorCriticPolicy, ReinforcePolicy)]

    The constructor and [get_action_probabilities] are those of
    [BaseActorCriticPolicy], which comes first in the method resolution
    order; [compute_discounted_returns] is the static method of
    [ReinforcePolicy]. *)

Module ReinforceBaselinePolicy.
Section ReinforceBaselinePolicy.
Context {Obs Params OptState : Type}.
Import BaseActorCriticPolicy.

Definition compute_loss (self : t Obs Params OptState)
    (model_parameters : Params * Params) (transitions : Transition Obs)
    : outcome (float * LogDict) :=
  let '(actor_parameters, critic_parameters) := model_parameters in
  let observations := observation transitions in
  let actions := action transitions in
  let action_mask := action_mask transitions in
  G ← ReinforcePolicy.compute_discounted_returns transitions
        (discount_factor self);
  critic_logits ←
    Network.get_batch_logits (critic self) critic_parameters observations;
  (* G - stop_gradient(critic_logits) *)
  advantage ←
    sub (Vec (Fin <$> G)) (ActorCriticPolicy.stop_gradient critic_logits);
  action_log_probabilities ←
    ActorCriticPolicy.scan
      (ActorCriticPolicy.compute_log_prob self actor_parameters observations
         actions action_mask)
      (seq 0 (length observations));
  weighted ← mul (Vec action_log_probabilities) advantage;
  let actor_loss := fneg (mean weighted) in
  let critic_loss := mean (amap (λ x, fmul x x) advantage) in
  let loss := fadd actor_loss critic_loss in
  Returns (loss, <["Value network loss" := critic_loss]>
                   {["Actor loss" := actor_loss]}).
End ReinforceBaselinePolicy.
End ReinforceBaselinePolicy.

(** The steps of a batch, each with its discounted return. *)
Definition with_returns {Obs : Type} (discount_factor : R)
    (steps : list (Step Obs)) : list (Step Obs * R) :=
  zip steps
    (discounted discount_factor (step_reward <$> steps)
       (step_done <$> steps)).

(** The losses of [ReinforceBaselinePolicy.compute_loss] per example, with
    the advantage [G_i - V(s_i)] of row [i], *)
Definition baseline_actor_loss {Obs : Type} (discount_factor : R)
    (logits : Obs → list R) (V : Obs → R) (steps : list (Step Obs))
    : float :=
  fneg (mean (Vec (
    (λ p : Step Obs * R,
       fmul (flog (taken_probability logits p.1))
         (Fin (p.2 - V (step_observation p.1))))
    <$> with_returns discount_factor steps))).

Definition baseline_value_loss {Obs : Type} (discount_factor : R)
    (V : Obs → R) (steps : list (Step Obs)) : float :=
  mean (Vec (
    (λ p : Step Obs * R,
       Fin ((p.2 - V (step_observation p.1))
            * (p.2 - V (step_observation p.1))))
    <$> with_returns discount_factor steps)).

(** and over all pairs [(i, j)] of rows, with the advantage
    [G_j - V(s_i)]. *)
Definition pairwise_baseline_actor_loss {Obs : Type} (discount_factor : R)
    (logits : Obs → list R) (V : Obs → R) (steps : list (Step Obs))
    : float :=
  fneg (mean (Mat (outer
    (λ pi pj : Step Obs * R,
       fmul (flog (taken_probability logits pj.1))
         (Fin (pj.2 - V (step_observation pi.1))))
    (with_returns discount_factor steps)))).

Definition pairwise_baseline_value_loss {Obs : Type} (discount_factor : R)
    (V : Obs → R) (steps : list (Step Obs)) : float :=
  mean (Mat (outer
    (λ pi pj : Step Obs * R,
       Fin ((pj.2 - V (step_observation pi.1))
            * (pj.2 - V (step_observation pi.1))))
    (with_returns discount_factor steps))).
(** * Properties *)

(** ** Indexing and the exception monad *)

Lemma getitem_lookup {A : Type} (v : list A) (i : nat) (x : A) :
  v !! i = Some x → getitem v i = Returns x.
Proof.
  intros Hi. unfold getitem.
  assert (i < length v)%nat by (eapply lookup_lt_Some; eauto).
  replace (i `min` pred (length v))%nat with i by lia.
  by rewrite Hi.
Qed.

Lemma getitem_nil {A : Type} (i : nat) : getitem (@nil A) i = Raises IndexError.
Proof. reflexivity. Qed.

Lemma foldl_reverse {A B : Type} (f : A → B → A) (a : A) (l : list B) :
  foldl f a (reverse l) = foldr (λ x acc, f acc x) a l.
Proof.
  induction l as [|x l IH]; [done|].
  by rewrite reverse_cons, foldl_snoc, IH.
Qed.

(** ** Discounted returns *)

Section DiscountedReturns.
Import ReinforcePolicy.
Variables (rewards : list R) (dones : list bool) (discount_factor : R).
Hypothesis Hlen : length dones = length rewards.

(** What the loop has established when it has processed the indices
    [k, ..., n-1]. *)
Lemma returns_loop_invariant (m k : nat) :
  (k + m = length rewards)%nat →
  ∃ run acc,
    foldr (λ i st, returns_step rewards dones discount_factor st i)
      (Returns (0, replicate (length rewards) 0)) (seq k m)
    = Returns (run, acc)
    ∧ length acc = length rewards
    ∧ run = default 0 (acc !! k)
    ∧ ∀ i r d, (k ≤ i)%nat → rewards !! i = Some r → dones !! i = Some d →
        acc !! i
        = Some (r + discount_factor * default 0 (acc !! S i) * (1 - b2r d)).
Proof.
  revert k. induction m as [|m IH]; intros k Hk.
  - exists 0, (replicate (length rewards) 0). simpl.
    split; [done|]. split; [by rewrite length_replicate|].
    split.
    + rewrite lookup_ge_None_2; [done|]. rewrite length_replicate. lia.
    + intros i r d Hi Hr _. apply lookup_lt_Some in Hr. lia.
  - destruct (IH (S k)) as (run & acc & Hfold & Hacc & Hrun & Hrec); [lia|].
    assert (Hkr : (k < length rewards)%nat) by lia.
    destruct (lookup_lt_is_Some_2 rewards k Hkr) as [rk Hrk].
    destruct (lookup_lt_is_Some_2 dones k) as [dk Hdk]; [lia|].
    set (run' := rk + discount_factor * run * (1 - b2r dk)).
    exists run', (<[k := run']> acc).
    split.
    { cbn [seq foldr]. rewrite Hfold. unfold returns_step. cbn.
      rewrite (getitem_lookup _ _ _ Hrk). cbn.
      rewrite (getitem_lookup _ _ _ Hdk). reflexivity. }
    split; [by rewrite length_insert|].
    split.
    { rewrite list_lookup_insert_eq; [done|lia]. }
    intros i r d Hi Hr Hd.
    rewrite (list_lookup_insert_ne acc k (S i)); [|lia].
    destruct (decide (i = k)) as [->|Hne].
    + rewrite list_lookup_insert_eq; [|lia].
      rewrite Hrk in Hr. rewrite Hdk in Hd.
      injection Hr as <-. injection Hd as <-.
      unfold run'. by rewrite Hrun.
    + rewrite list_lookup_insert_ne; [|done].
      apply Hrec; [lia|done|done].
Qed.
End DiscountedReturns.

(** C1. On a batch whose [done] array is as long as its [reward] array,
    [compute_discounted_returns] returns a vector [G] of the length of the
    batch with [G[i] = reward[i] + discount_factor * G[i+1] * (1 - done[i])],
    where [G[i+1]] is 0 past the end of the batch; hence [G[i] = reward[i]]
    where [done[i]] holds.  On rewards [1,1,0,2], done [0,1,0,1] and
    discount 0.5 the result is [1.5, 1.0, 1.0, 2.0]. *)
Theorem compute_discounted_returns_recurrence :
  (∀ (Obs : Type) (transitions : Transition Obs) (discount_factor : R),
     length (done transitions) = length (reward transitions) →
     ∃ G,
       ReinforcePolicy.compute_discounted_returns transitions discount_factor
       = Returns G
       ∧ length G = length (reward transitions)
       ∧ (∀ i r d,
            reward transitions !! i = Some r →
            done transitions !! i = Some d →
            G !! i
            = Some (r + discount_factor * default 0 (G !! S i)
                        * (1 - ReinforcePolicy.b2r d)))
       ∧ (∀ i r,
            reward transitions !! i = Some r →
            done transitions !! i = Some true →
            G !! i = Some r))
  ∧ (∀ (Obs : Type) (observations : list Obs) (actions : list nat)
       (masks : list (list bool)),
       ReinforcePolicy.compute_discounted_returns
         {| observation := observations; action := actions;
            action_mask := masks; reward := [1; 1; 0; 2];
            done := [false; true; false; true];
            next_observation := observations |} (1 / 2)
       = Returns [3 / 2; 1; 1; 2]).
Proof.
  split.
  - intros Obs transitions discount_factor Hlen.
    destruct (returns_loop_invariant (reward transitions) (done transitions)
                discount_factor Hlen (length (reward transitions)) 0)
      as (run & G & Hfold & HG & _ & Hrec); [lia|].
    exists G. split; [|split; [done|split]].
    + unfold ReinforcePolicy.compute_discounted_returns.
      rewrite foldl_reverse, Hfold. reflexivity.
    + intros i r d Hr Hd. apply Hrec; [lia|done|done].
    + intros i r Hr Hd. rewrite (Hrec i r true); [|lia|done|done].
      f_equal. simpl. lra.
  - intros Obs observations actions masks.
    unfold ReinforcePolicy.compute_discounted_returns. cbn.
    f_equal.
    repeat match goal with
           | |- _ :: _ = _ :: _ => apply (f_equal2 cons); [lra|]
           end.
    reflexivity.
Qed.

Lemma compute_discounted_returns_recurrence_witness :
  length [false; true] = length [1; 2]
  ∧ ∃ G,
      ReinforcePolicy.compute_discounted_returns
        {| observation := [tt; tt]; action := [0%nat; 0%nat];
           action_mask := [[true]; [true]]; reward := [1; 2];
           done := [false; true]; next_observation := [tt; tt] |} 1
      = Returns G
      ∧ length G = 2%nat.
Proof.
  split; [reflexivity|].
  destruct (proj1 compute_discounted_returns_recurrence unit
              {| observation := [tt; tt]; action := [0%nat; 0%nat];
                 action_mask := [[true]; [true]]; reward := [1; 2];
                 done := [false; true]; next_observation := [tt; tt] |} 1
              eq_refl) as (G & HG & Hlen & _).
  exists G. split; [exact HG | exact Hlen].
Defined.

(** ** Masked softmax *)

Section MaskedSoftmax.
Implicit Types (mask : list bool) (l u : list R).

Lemma max_masked_logits mask l :
  foldr fmax NInf
    (zip_with (λ (c : bool) v, if c then v else NInf) mask (Fin <$> l))
  = from_option Fin NInf (valid_max mask l).
Proof.
  unfold valid_max. revert l.
  induction mask as [|c mask IH]; intros [|v l]; try reflexivity.
  cbn [fmap list_fmap zip_with zip foldr fst snd]. rewrite IH.
  destruct c; cbn.
  - destruct (foldr _ None (zip mask l)); reflexivity.
  - destruct (foldr _ None (zip mask l)); reflexivity.
Qed.

Lemma valid_max_is_Some mask l :
  length mask = length l → true ∈ mask → is_Some (valid_max mask l).
Proof.
  unfold valid_max. revert l.
  induction mask as [|c mask IH]; intros [|v l] Hlen Hin;
    try discriminate; [by apply elem_of_nil in Hin|].
  cbn [zip zip_with foldr fst snd]. destruct c; [by eexists|].
  apply IH; [by injection Hlen|].
  apply elem_of_cons in Hin as [|]; [discriminate|done].
Qed.

Lemma exp_masked_logits (x_max : R) mask l :
  (λ v, fexp (fsub v (Fin x_max)))
    <$> zip_with (λ (c : bool) v, if c then v else NInf) mask (Fin <$> l)
  = Fin <$> zip_with (λ (c : bool) v, if c then exp (v - x_max) else 0)
              mask l.
Proof.
  revert l. induction mask as [|c mask IH]; intros [|v l]; try reflexivity.
  cbn [fmap list_fmap zip_with]. f_equal; [|apply IH].
  destruct c; reflexivity.
Qed.

Lemma fsum_Fin u : fsum (Fin <$> u) = Fin (rsum u).
Proof.
  unfold fsum, rsum. induction u as [|x u IH]; [reflexivity|].
  cbn [fmap list_fmap foldr]. by rewrite IH.
Qed.

Lemma rsum_exp_nonneg (x_max : R) mask l :
  0 <= rsum (zip_with (λ (c : bool) v, if c then exp (v - x_max) else 0)
               mask l).
Proof.
  unfold rsum. revert l.
  induction mask as [|c mask IH]; intros [|v l]; cbn; try lra.
  specialize (IH l). destruct c; [|lra].
  pose proof (exp_pos (v - x_max)). lra.
Qed.

Lemma rsum_exp_pos (x_max : R) mask l :
  length mask = length l → true ∈ mask →
  0 < rsum (zip_with (λ (c : bool) v, if c then exp (v - x_max) else 0)
              mask l).
Proof.
  unfold rsum. revert l.
  induction mask as [|c mask IH]; intros [|v l] Hlen Hin;
    try discriminate; [by apply elem_of_nil in Hin|].
  cbn. destruct c.
  - pose proof (exp_pos (v - x_max)).
    pose proof (rsum_exp_nonneg x_max mask l). unfold rsum in *. lra.
  - rewrite Rplus_0_l. apply IH; [by injection Hlen|].
    apply elem_of_cons in Hin as [|]; [discriminate|done].
Qed.

Lemma fdiv_Fin_list (total : R) u :
  total ≠ 0 →
  (λ e, fdiv e (Fin total)) <$> (Fin <$> u)
  = Fin <$> ((λ e, e / total) <$> u).
Proof.
  intros Hne. induction u as [|x u IH]; [reflexivity|].
  cbn [fmap list_fmap]. f_equal; [|apply IH].
  cbn. by rewrite decide_False.
Qed.

Lemma rezero_Fin mask u :
  zip_with (λ (c : bool) v, if c then v else Fin 0) mask (Fin <$> u)
  = Fin <$> zip_with (λ (c : bool) v, if c then v else 0) mask u.
Proof.
  revert u. induction mask as [|c mask IH]; intros [|v u]; try reflexivity.
  cbn [fmap list_fmap zip_with]. f_equal; [|apply IH]. by destruct c.
Qed.

Lemma where_vec mask (x : list float) (y : float) :
  length mask = length x →
  where_ (Vec mask) (Vec x) y
  = Returns (Vec (zip_with (λ (c : bool) v, if c then v else y) mask x)).
Proof.
  intros Hlen. unfold where_. cbn [binop]. unfold broadcast_vec.
  by rewrite decide_True.
Qed.

(** The array pipeline of [get_action_probabilities] on a vector of
    finite logits and one mask row. *)
Lemma masked_softmax_vec mask l :
  length mask = length l → true ∈ mask →
  (masked_logits ← where_ (Vec mask) (Vec (Fin <$> l)) NInf;
   action_probabilities ← softmax masked_logits;
   where_ (Vec mask) action_probabilities (Fin 0))
  = Returns (Vec (Fin <$> masked_softmax mask l)).
Proof.
  intros Hlen Hin.
  destruct (valid_max_is_Some mask l Hlen Hin) as [x_max Hmax].
  rewrite where_vec by (by rewrite length_fmap).
  cbn [mbind outcome_bind softmax]. unfold softmax_row.
  destruct (zip_with (λ (c : bool) v, if c then v else NInf) mask
              (Fin <$> l)) as [|x0 xs] eqn:Hx.
  { destruct mask, l; discriminate. }
  rewrite <- Hx. clear x0 xs Hx.
  rewrite max_masked_logits, Hmax. cbn [from_option].
  rewrite exp_masked_logits, fsum_Fin.
  pose proof (rsum_exp_pos x_max mask l Hlen Hin) as Hpos.
  rewrite fdiv_Fin_list by lra.
  cbn [fmap outcome_fmap mbind outcome_bind].
  rewrite where_vec by (rewrite !length_fmap, length_zip_with; lia).
  rewrite rezero_Fin.
  unfold masked_softmax. by rewrite Hmax.
Qed.

Lemma length_masked_softmax mask l :
  length mask = length l → length (masked_softmax mask l) = length mask.
Proof.
  intros Hlen. unfold masked_softmax.
  rewrite length_zip_with, length_fmap, length_zip_with. lia.
Qed.

Lemma masked_softmax_forbidden mask l i :
  length mask = length l → mask !! i = Some false →
  masked_softmax mask l !! i = Some 0.
Proof.
  intros Hlen Hi. unfold masked_softmax.
  assert (i < length mask)%nat by (eapply lookup_lt_Some; eauto).
  rewrite lookup_zip_with, Hi. cbn [mbind option_bind].
  rewrite list_lookup_fmap.
  destruct (lookup_lt_is_Some_2
    (zip_with (λ (c : bool) v,
       if c then exp (v - default 0 (valid_max mask l)) else 0) mask l) i)
    as [y ->]; [|reflexivity].
  rewrite length_zip_with. lia.
Qed.

Lemma rsum_valid_entries mask u :
  rsum (valid_entries mask
          (zip_with (λ (c : bool) v, if c then v else 0) mask u))
  = rsum (zip_with (λ (c : bool) v, if c then v else 0) mask u).
Proof.
  unfold rsum. revert u.
  induction mask as [|c mask IH]; intros [|v u]; try reflexivity.
  cbn. destruct c; cbn; rewrite IH; lra.
Qed.

Lemma rsum_rezero_div (total x_max : R) mask l :
  rsum (zip_with (λ (c : bool) v, if c then v else 0) mask
          ((λ e, e / total)
             <$> zip_with (λ (c : bool) v, if c then exp (v - x_max) else 0)
                   mask l))
  = rsum (zip_with (λ (c : bool) v, if c then exp (v - x_max) else 0)
            mask l) / total.
Proof.
  unfold rsum. revert l.
  induction mask as [|c mask IH]; intros [|v l]; cbn;
    try (unfold Rdiv; ring).
  rewrite IH. destruct c; unfold Rdiv; ring.
Qed.

Lemma rsum_masked_softmax mask l :
  length mask = length l → true ∈ mask →
  rsum (valid_entries mask (masked_softmax mask l)) = 1.
Proof.
  intros Hlen Hin. unfold masked_softmax.
  rewrite rsum_valid_entries, rsum_rezero_div.
  pose proof (rsum_exp_pos (default 0 (valid_max mask l)) mask l Hlen Hin).
  apply Rdiv_diag. lra.
Qed.

Lemma valid_entries_fmap {A B : Type} (f : A → B) mask (xs : list A) :
  valid_entries mask (f <$> xs) = f <$> valid_entries mask xs.
Proof.
  revert xs. induction mask as [|c mask IH]; intros [|x xs];
    try reflexivity.
  cbn. destruct c; cbn; by rewrite IH.
Qed.
End MaskedSoftmax.

Lemma masked_softmax_is_distribution (mask : list bool) (l : list R) :
  length mask = length l → true ∈ mask →
  is_masked_distribution mask (Fin <$> masked_softmax mask l).
Proof.
  intros Hlen Hin.
  assert (Hsum : fsum (valid_entries mask (Fin <$> masked_softmax mask l))
                 = Fin 1).
  { by rewrite valid_entries_fmap, fsum_Fin, rsum_masked_softmax. }
  split; [by rewrite length_fmap, length_masked_softmax|].
  split.
  { intros i Hi. rewrite list_lookup_fmap.
    by rewrite (masked_softmax_forbidden mask l i Hlen Hi). }
  split; [done|].
  exists 1. split; [done|].
  rewrite Rminus_diag, Rabs_R0. lra.
Qed.

(** C4. For one observation whose actor logits form a vector with one entry
    per action, and a mask with at least one allowed action,
    [get_action_probabilities] of [ReinforcePolicy] and of
    [BaseActorCriticPolicy] returns a vector that is exactly 0 at every
    forbidden position and whose allowed entries sum to 1; it is the masked
    softmax of the logits. *)
Theorem get_action_probabilities_masked_distribution :
  (∀ (Obs Params OptState : Type)
     (self : ReinforcePolicy.t Obs Params OptState)
     (model_parameters : Params) (observation : Obs)
     (action_mask : list bool) (logits : list R),
     Network.model_functions (ReinforcePolicy.actor self)
       model_parameters observation = Vec logits →
     length action_mask = length logits →
     true ∈ action_mask →
     ∃ probs,
       ReinforcePolicy.get_action_probabilities self model_parameters
         (Obs3 observation) (Vec action_mask) = Returns (Vec probs)
       ∧ probs = Fin <$> masked_softmax action_mask logits
       ∧ is_masked_distribution action_mask probs)
  ∧ (∀ (Obs Params OptState : Type)
       (self : BaseActorCriticPolicy.t Obs Params OptState)
       (model_parameters : Params) (observation : Obs)
       (action_mask : list bool) (logits : list R),
       Network.model_functions (BaseActorCriticPolicy.actor self)
         model_parameters observation = Vec logits →
       length action_mask = length logits →
       true ∈ action_mask →
       ∃ probs,
         BaseActorCriticPolicy.get_action_probabilities self model_parameters
           observation (Vec action_mask) = Returns (Vec probs)
         ∧ probs = Fin <$> masked_softmax action_mask logits
         ∧ is_masked_distribution action_mask probs).
Proof.
  split.
  - intros Obs Params OptState self params obs mask l Hl Hlen Hin.
    exists (Fin <$> masked_softmax mask l).
    split; [|split; [done|by apply masked_softmax_is_distribution]].
    unfold ReinforcePolicy.get_action_probabilities, Network.get_logits.
    cbn [mbind outcome_bind]. rewrite Hl. cbn [amap].
    by apply masked_softmax_vec.
  - intros Obs Params OptState self params obs mask l Hl Hlen Hin.
    exists (Fin <$> masked_softmax mask l).
    split; [|split; [done|by apply masked_softmax_is_distribution]].
    unfold BaseActorCriticPolicy.get_action_probabilities, Network.get_logits.
    rewrite Hl. cbn [amap].
    by apply masked_softmax_vec.
Qed.

(** ** The masked softmax on a batch of mask rows *)

Section Rows.
Implicit Types (x : list float) (mask : list bool)
  (masks : list (list bool)).

Lemma mapM_Returns {A B : Type} (f : A → outcome B) (g : A → B)
    (l : list A) :
  Forall (λ a, f a = Returns (g a)) l → mapM f l = Returns (g <$> l).
Proof.
  induction 1 as [|a l Ha _ IH]; [reflexivity|].
  cbn [mapM]. rewrite Ha, IH. reflexivity.
Qed.

Lemma broadcast_mat_row {A B C : Type} (f : A → B → C)
    (m : list (list A)) (r : list B) :
  broadcast_mat f m [r] = mapM (λ row, broadcast_vec f row r) m.
Proof.
  unfold broadcast_mat. destruct m as [|r0 [|r1 m]]; reflexivity.
Qed.

Lemma broadcast_row_mat {A B C : Type} (f : A → B → C)
    (r : list A) (n : list (list B)) :
  broadcast_mat f [r] n = mapM (broadcast_vec f r) n.
Proof.
  unfold broadcast_mat. destruct n as [|r0 [|r1 n]]; reflexivity.
Qed.

Lemma broadcast_vec_same {A B C : Type} (f : A → B → C)
    (u : list A) (v : list B) :
  length u = length v → broadcast_vec f u v = Returns (zip_with f u v).
Proof. intros Hlen. unfold broadcast_vec. by rewrite decide_True. Qed.

Lemma where_mat_vec masks x (y : float) :
  where_ (Mat masks) (Vec x) y
  = Mat <$> mapM (λ row, broadcast_vec
                           (λ (c : bool) v, if c then v else y) row x)
              masks.
Proof. unfold where_. cbn [binop]. by rewrite broadcast_mat_row. Qed.

Lemma where_mat_mat masks (rows : list (list float)) (y : float) :
  length masks = length rows →
  where_ (Mat masks) (Mat rows) y
  = Mat <$> mapM (λ p : list bool * list float,
                    broadcast_vec (λ (c : bool) v, if c then v else y)
                      p.1 p.2)
              (zip masks rows).
Proof.
  intros Hlen. unfold where_. cbn [binop]. unfold broadcast_mat.
  by rewrite decide_True.
Qed.

Lemma softmax_row_cons x :
  x ≠ [] →
  softmax_row x
  = Returns ((λ u, fdiv u (fsum ((λ v, fexp (fsub v (foldr fmax NInf x)))
                                   <$> x)))
               <$> ((λ v, fexp (fsub v (foldr fmax NInf x))) <$> x)).
Proof. by destruct x. Qed.

Lemma pipeline_vec x mask :
  x ≠ [] → length mask = length x →
  (masked_logits ← where_ (Vec mask) (Vec x) NInf;
   action_probabilities ← softmax masked_logits;
   where_ (Vec mask) action_probabilities (Fin 0))
  = Returns (Vec (row_probabilities x mask)).
Proof.
  intros Hx Hlen. rewrite where_vec by done.
  cbn [mbind outcome_bind softmax].
  rewrite softmax_row_cons.
  2:{ destruct mask, x; try discriminate; done. }
  cbn [fmap outcome_fmap mbind outcome_bind].
  rewrite where_vec by (rewrite !length_fmap, length_zip_with; lia).
  reflexivity.
Qed.

Lemma pipeline_mat x masks :
  x ≠ [] → Forall (λ row, length row = length x) masks →
  (masked_logits ← where_ (Mat masks) (Vec x) NInf;
   action_probabilities ← softmax masked_logits;
   where_ (Mat masks) action_probabilities (Fin 0))
  = Returns (Mat (row_probabilities x <$> masks)).
Proof.
  intros Hx Hrows. rewrite where_mat_vec.
  rewrite (mapM_Returns _
             (λ row, zip_with (λ (c : bool) v, if c then v else NInf) row x)).
  2:{ eapply Forall_impl; [exact Hrows|].
      intros row Hrow. by apply broadcast_vec_same. }
  cbn [fmap outcome_fmap mbind outcome_bind softmax].
  rewrite (mapM_Returns _
    (λ y, (λ u, fdiv u (fsum ((λ v, fexp (fsub v (foldr fmax NInf y)))
                                <$> y)))
            <$> ((λ v, fexp (fsub v (foldr fmax NInf y))) <$> y))).
  2:{ apply Forall_fmap. eapply Forall_impl; [exact Hrows|].
      intros row Hrow. cbn. apply softmax_row_cons.
      destruct row, x; try discriminate; done. }
  cbn [fmap outcome_fmap mbind outcome_bind].
  rewrite where_mat_mat by (by rewrite !length_fmap).
  rewrite (mapM_Returns _
    (λ p : list bool * list float,
       zip_with (λ (c : bool) v, if c then v else Fin 0) p.1 p.2)).
  2:{ clear Hx. induction Hrows as [|row masks Hrow _ IH];
        [constructor|].
      cbn [fmap list_fmap zip zip_with]. constructor; [|exact IH].
      cbn [fst snd]. apply broadcast_vec_same.
      rewrite !length_fmap, length_zip_with. lia. }
  cbn [fmap outcome_fmap]. do 2 f_equal.
  clear. induction masks as [|row masks IH]; [reflexivity|].
  cbn [fmap list_fmap zip zip_with]. f_equal; first [exact IH|reflexivity].
Qed.

Lemma row_probabilities_Fin mask (l : list R) :
  length mask = length l → true ∈ mask →
  row_probabilities (Fin <$> l) mask = Fin <$> masked_softmax mask l.
Proof.
  intros Hlen Hin.
  pose proof (masked_softmax_vec mask l Hlen Hin) as Hsoft.
  rewrite pipeline_vec in Hsoft.
  - by injection Hsoft.
  - destruct l; [|done].
    destruct mask; [by apply elem_of_nil in Hin|discriminate].
  - by rewrite length_fmap.
Qed.
End Rows.

Lemma getitem_0 {A : Type} (v : list A) :
  getitem v 0 = from_option Returns (Raises IndexError) (head v).
Proof. by destruct v. Qed.

(** ** Evaluating the losses *)

Lemma flog_Fin_pos (a : R) : 0 < a → flog (Fin a) = Fin (ln a).
Proof. intros Ha. unfold flog. by destruct (Rlt_dec 0 a). Qed.

Lemma fdiv_Fin (a b : R) : b ≠ 0 → fdiv (Fin a) (Fin b) = Fin (a / b).
Proof. intros Hb. unfold fdiv. by rewrite decide_False. Qed.

Lemma Rmax_same (a : R) : Rmax a a = a.
Proof. apply Rmax_left. lra. Qed.

Section ReinforceExample.
Import Fixtures.

Lemma half_softmax :
  masked_softmax [true; true; false; false] [0; 0; 0; 0]
  = [1 / 2; 1 / 2; 0; 0].
Proof.
  unfold masked_softmax, valid_max, rsum.
  cbn [zip zip_with foldr fst snd from_option fmap list_fmap]. unfold Datatypes.id.
  rewrite Rmax_same, Rminus_diag, exp_0.
  repeat match goal with
         | |- _ :: _ = _ :: _ => apply (f_equal2 cons); [lra|]
         end.
  reflexivity.
Qed.

Lemma tilted_softmax :
  masked_softmax [true; true; false; false] [1; 0; 0; 0]
  = [1 / (1 + exp (-1)); exp (-1) / (1 + exp (-1)); 0; 0].
Proof.
  unfold masked_softmax, valid_max, rsum.
  cbn [zip zip_with foldr fst snd from_option fmap list_fmap]. unfold Datatypes.id.
  rewrite (Rmax_left 1 0) by lra.
  rewrite Rminus_diag, exp_0.
  replace (0 - 1) with (-1) by lra.
  pose proof (exp_pos (-1)).
  repeat match goal with
         | |- _ :: _ = _ :: _ =>
             apply (f_equal2 cons); [first [lra | f_equal; lra]|]
         end.
  reflexivity.
Qed.

Lemma two_states_returns :
  ReinforcePolicy.compute_discounted_returns two_states 1
  = Returns [0; 1].
Proof.
  unfold ReinforcePolicy.compute_discounted_returns. cbn.
  f_equal.
  repeat match goal with
         | |- _ :: _ = _ :: _ => apply (f_equal2 cons); [lra|]
         end.
  reflexivity.
Qed.

Lemma two_states_code_loss :
  ReinforcePolicy.compute_loss reinforce tt two_states
  = Returns (Fin (ln 2 / 2), {["Actor loss" := Fin (ln 2 / 2)]}).
Proof.
  unfold ReinforcePolicy.compute_loss.
  change (ReinforcePolicy.discount_factor reinforce) with 1.
  rewrite two_states_returns. cbn [mbind outcome_bind].
  unfold ReinforcePolicy.get_action_probabilities, Network.get_logits.
  cbn [two_states observation action action_mask getitem length pred
       Nat.min lookup list_lookup mbind outcome_bind reinforce echo_actor
       ReinforcePolicy.actor Network.model_functions amap].
  rewrite pipeline_mat; [|done|by repeat constructor].
  cbn [mbind outcome_bind fmap list_fmap].
  change [Fin 0; Fin 0; Fin 0; Fin 0] with (Fin <$> [0; 0; 0; 0]).
  rewrite row_probabilities_Fin;
    [|reflexivity|apply list_elem_of_here].
  rewrite half_softmax.
  cbn [amap fmap list_fmap ReinforcePolicy.take_rows length seq].
  rewrite broadcast_vec_same by reflexivity.
  cbn [mbind outcome_bind zip_with mapM mret outcome_ret getitem length
       pred Nat.min lookup list_lookup fst snd].
  rewrite flog_Fin_pos by lra.
  unfold mul. cbn [binop]. rewrite broadcast_vec_same by reflexivity.
  cbn [fmap outcome_fmap mbind outcome_bind zip_with fmul].
  unfold mean, sum, fsum.
  cbn [elements foldr fadd length].
  rewrite fdiv_Fin by (simpl; lra). cbn [fneg].
  replace (- ((0 * ln (1 / 2) + (1 * ln (1 / 2) + 0)) / INR 2))
    with (ln 2 / 2); [reflexivity|].
  replace (1 / 2) with (/ 2) by lra.
  rewrite ln_Rinv by lra. simpl. lra.
Qed.

Lemma echo_probabilities (o : list R) (mask : list bool) :
  length mask = length o → true ∈ mask →
  ReinforcePolicy.get_action_probabilities reinforce tt (Obs3 o) (Vec mask)
  = Returns (Vec (Fin <$> masked_softmax mask o)).
Proof.
  intros Hlen Hin.
  unfold ReinforcePolicy.get_action_probabilities, Network.get_logits.
  cbn [mbind outcome_bind reinforce echo_actor ReinforcePolicy.actor
       Network.model_functions amap].
  by apply masked_softmax_vec.
Qed.

Lemma two_states_spec_loss :
  Spec.reinforce_loss reinforce tt two_states
  = Returns (Fin (ln (1 + exp (-1)) / 2)).
Proof.
  unfold Spec.reinforce_loss.
  change (ReinforcePolicy.discount_factor reinforce) with 1.
  rewrite two_states_returns. cbn [mbind outcome_bind].
  unfold Policy.actions_to_probabilities.
  cbn [two_states observation action action_mask].
  rewrite decide_True by reflexivity.
  cbn [zip zip_with mapM fst snd Policy.get_action_probabilities
       ReinforcePolicy.policy].
  rewrite !echo_probabilities
    by first [reflexivity | apply list_elem_of_here].
  rewrite half_softmax, tilted_softmax.
  cbn [mbind outcome_bind mret outcome_ret mapM fmap list_fmap].
  rewrite broadcast_vec_same by reflexivity.
  cbn [zip_with lookup list_lookup default from_option fmap list_fmap
       mbind outcome_bind].
  unfold Datatypes.id.
  pose proof (exp_pos (-1)) as Hexp.
  assert (Hp : 0 < 1 / (1 + exp (-1))).
  { apply Rdiv_lt_0_compat; lra. }
  rewrite !flog_Fin_pos by lra.
  unfold mul. cbn [binop]. rewrite broadcast_vec_same by reflexivity.
  cbn [fmap outcome_fmap mbind outcome_bind zip_with fmul].
  unfold mean, sum, fsum.
  cbn [elements foldr fadd length].
  rewrite fdiv_Fin by (simpl; lra). cbn [fneg].
  do 2 f_equal.
  replace (1 / (1 + exp (-1))) with (/ (1 + exp (-1))) by lra.
  rewrite ln_Rinv by lra. simpl. lra.
Qed.

Lemma two_states_losses_differ : ln 2 / 2 ≠ ln (1 + exp (-1)) / 2.
Proof.
  intros Heq.
  assert (Hln : ln 2 = ln (1 + exp (-1))) by lra.
  pose proof (exp_pos (-1)) as Hexp.
  apply ln_inv in Hln; [|lra|lra].
  assert (Hlt : exp (-1) < exp 0) by (apply exp_increasing; lra).
  rewrite exp_0 in Hlt. lra.
Qed.
End ReinforceExample.

(** C2 (evaluated at a batch where the claim fails).  On [two_states] the
    loss of [ReinforcePolicy.compute_loss] is [ln 2 / 2]: both rows use the
    logits of the first observation.  The negative mean of
    [G[i] * log pi(a_i | s_i)] with each row's own observation is
    [ln (1 + exp (-1)) / 2], a different number. *)
Theorem reinforce_loss_differs_from_per_example_loss :
  ReinforcePolicy.compute_loss Fixtures.reinforce tt Fixtures.two_states
  = Returns (Fin (ln 2 / 2), {["Actor loss" := Fin (ln 2 / 2)]})
  ∧ Spec.reinforce_loss Fixtures.reinforce tt Fixtures.two_states
    = Returns (Fin (ln (1 + exp (-1)) / 2))
  ∧ ln 2 / 2 ≠ ln (1 + exp (-1)) / 2.
Proof.
  split; [exact two_states_code_loss|].
  split; [exact two_states_spec_loss|exact two_states_losses_differ].
Qed.

(** ** Broadcasting a column against a row *)

Lemma broadcast_vec_singleton_l {A B C : Type} (f : A → B → C)
    (a : A) (v : list B) :
  broadcast_vec f [a] v = Returns (f a <$> v).
Proof.
  unfold broadcast_vec. destruct v as [|b [|b' v]]; cbn [length].
  - by rewrite decide_False by lia.
  - by rewrite decide_True by lia.
  - by rewrite decide_False by lia.
Qed.

Lemma broadcast_vec_singleton_r {A B C : Type} (f : A → B → C)
    (u : list A) (b : B) :
  broadcast_vec f u [b] = Returns ((λ a, f a b) <$> u).
Proof.
  unfold broadcast_vec. destruct u as [|a [|a' u]]; cbn [length].
  - by rewrite decide_False by lia.
  - by rewrite decide_True by lia.
  - by rewrite decide_False by lia.
Qed.

Lemma broadcast_mat_same {A B C : Type} (f : A → B → C)
    (m : list (list A)) (n : list (list B)) :
  length m = length n →
  broadcast_mat f m n = mapM (λ p, broadcast_vec f p.1 p.2) (zip m n).
Proof. intros Hlen. unfold broadcast_mat. by rewrite decide_True. Qed.

(** Evaluation of broadcasting arithmetic on arrays of known shapes. *)
Ltac broadcast :=
  unfold add, sub, mul, div;
  repeat first
    [ rewrite broadcast_mat_same by reflexivity
    | rewrite broadcast_mat_row
    | rewrite broadcast_row_mat
    | rewrite broadcast_vec_same by reflexivity
    | rewrite broadcast_vec_singleton_l
    | rewrite broadcast_vec_singleton_r
    | progress cbn [binop amap fmap list_fmap outcome_fmap mbind
                    outcome_bind mret outcome_ret mapM zip zip_with fst snd
                    fadd fsub fmul fneg] ].

Section ActorCriticExample.
Import Fixtures.

Lemma forced_softmax (x : R) :
  masked_softmax [true; false; false; false] [x; 0; 0; 0] = [1; 0; 0; 0].
Proof.
  unfold masked_softmax, valid_max, rsum.
  cbn [zip zip_with foldr fst snd from_option fmap list_fmap].
  unfold Datatypes.id. rewrite Rminus_diag, exp_0.
  repeat match goal with
         | |- _ :: _ = _ :: _ => apply (f_equal2 cons); [lra|]
         end.
  reflexivity.
Qed.

Lemma echo_actor_critic_probabilities (o : list R) (mask : list bool) :
  length mask = length o → true ∈ mask →
  BaseActorCriticPolicy.get_action_probabilities actor_critic tt o
    (Vec mask)
  = Returns (Vec (Fin <$> masked_softmax mask o)).
Proof.
  intros Hlen Hin.
  unfold BaseActorCriticPolicy.get_action_probabilities,
    Network.get_logits.
  cbn [actor_critic echo_actor BaseActorCriticPolicy.actor
       Network.model_functions amap].
  by apply masked_softmax_vec.
Qed.

Lemma forced_log_prob (observations : list (list R)) (idx : nat)
    (x : R) :
  getitem observations idx = Returns [x; 0; 0; 0] →
  ActorCriticPolicy.compute_log_prob actor_critic tt observations
    [0%nat; 0%nat]
    [[true; false; false; false]; [true; false; false; false]] idx
  = Returns (Fin 0).
Proof.
  intros Hobs. unfold ActorCriticPolicy.compute_log_prob.
  rewrite Hobs. cbn [mbind outcome_bind].
  assert (Hmask : getitem [[true; false; false; false];
                           [true; false; false; false]] idx
                  = Returns [true; false; false; false]).
  { unfold getitem. cbn [length pred].
    destruct idx as [|[|idx]]; reflexivity. }
  rewrite Hmask. cbn [mbind outcome_bind].
  rewrite echo_actor_critic_probabilities
    by first [reflexivity | apply list_elem_of_here].
  rewrite forced_softmax. cbn [mbind outcome_bind].
  assert (Hact : getitem [0%nat; 0%nat] idx = Returns 0%nat).
  { unfold getitem. cbn [length pred].
    destruct idx as [|[|idx]]; reflexivity. }
  rewrite Hact.
  cbn [mbind outcome_bind fmap list_fmap getitem length pred Nat.min
       lookup list_lookup].
  rewrite flog_Fin_pos by lra. by rewrite ln_1.
Qed.

Lemma two_states_forced_code_loss :
  ActorCriticPolicy.compute_loss actor_critic (tt, tt) two_states_forced
  = Returns (Fin (1 / 4),
             <["Critic loss" := Fin (1 / 4)]> {["Actor loss" := Fin 0]}).
Proof.
  unfold ActorCriticPolicy.compute_loss, Network.get_batch_logits,
    Network.get_logits, ActorCriticPolicy.stop_gradient.
  cbn [two_states_forced observation action action_mask reward done
       next_observation actor_critic head_critic echo_actor
       BaseActorCriticPolicy.actor BaseActorCriticPolicy.critic
       BaseActorCriticPolicy.discount_factor Network.model_functions
       fmap list_fmap amap head default from_option stack mapM
       mbind outcome_bind mret outcome_ret outcome_fmap of_bool].
  unfold Datatypes.id.
  broadcast.
  unfold ActorCriticPolicy.scan. cbn [length seq mapM].
  rewrite !(forced_log_prob _ 0%nat 0), !(forced_log_prob _ 1%nat 1)
    by reflexivity.
  broadcast.
  unfold mean, sum, fsum.
  cbn [elements concat app foldr fadd length].
  rewrite !fdiv_Fin by (simpl; lra).
  cbn [fneg fadd fmul].
  replace (INR 4) with 4 by (simpl; lra).
  repeat f_equal; lra.
Qed.

Lemma two_states_forced_spec_loss :
  Spec.actor_critic_loss actor_critic (tt, tt) two_states_forced
  = Returns (Fin 0).
Proof.
  unfold Spec.actor_critic_loss, Spec.value, Network.get_logits,
    Policy.actions_to_probabilities.
  cbn [two_states_forced observation action action_mask reward done
       next_observation actor_critic head_critic echo_actor
       BaseActorCriticPolicy.actor BaseActorCriticPolicy.critic
       BaseActorCriticPolicy.discount_factor Network.model_functions
       fmap list_fmap amap head default from_option mapM
       mbind outcome_bind mret outcome_ret of_bool].
  unfold Datatypes.id.
  rewrite decide_True by reflexivity.
  cbn [zip zip_with mapM fst snd Policy.get_action_probabilities
       BaseActorCriticPolicy.policy].
  rewrite !echo_actor_critic_probabilities
    by first [reflexivity | apply list_elem_of_here].
  rewrite !forced_softmax.
  cbn [mbind outcome_bind mret outcome_ret mapM fmap list_fmap].
  rewrite broadcast_vec_same by reflexivity.
  cbn [zip_with lookup list_lookup default from_option fmap list_fmap
       mbind outcome_bind].
  unfold Datatypes.id.
  rewrite !flog_Fin_pos by lra. rewrite ln_1.
  unfold mean, sum, fsum.
  cbn [elements zip_with fmap list_fmap foldr fadd fsub fmul fneg length
       of_bool].
  rewrite !fdiv_Fin by (simpl; lra).
  cbn [fneg fadd fmul].
  replace (INR 2) with 2 by (simpl; lra).
  repeat f_equal; lra.
Qed.
End ActorCriticExample.

(** C3 (evaluated at a batch where the claim fails).  With a critic whose
    output has shape [1], the value arrays have shape [B, 1] and broadcast
    against the [B]-shaped rewards to [B, B] matrices.  On
    [two_states_forced] the loss of [ActorCriticPolicy.compute_loss] is
    [1/4], all of it critic loss, while the per-example actor and critic
    losses of the claim are both 0 there. *)
Theorem actor_critic_loss_broadcasts_over_batch :
  ActorCriticPolicy.compute_loss Fixtures.actor_critic (tt, tt)
    Fixtures.two_states_forced
  = Returns (Fin (1 / 4),
             <["Critic loss" := Fin (1 / 4)]> {["Actor loss" := Fin 0]})
  ∧ Spec.actor_critic_loss Fixtures.actor_critic (tt, tt)
      Fixtures.two_states_forced
    = Returns (Fin 0)
  ∧ Fin (1 / 4) ≠ Fin 0.
Proof.
  split; [exact two_states_forced_code_loss|].
  split; [exact two_states_forced_spec_loss|].
  intros Heq. injection Heq. lra.
Qed.

(** ** Actor-critic with a critic that returns a 0-d scalar

    When the critic returns a scalar (not an array of shape [1]) the value
    arrays have shape [B] and every operation of
    [ActorCriticPolicy.compute_loss] is elementwise. *)

Lemma binop_vec_fmap {T A B C : Type} (f : A → B → C) (a : T → A)
    (b : T → B) (steps : list T) :
  binop f (Vec (a <$> steps)) (Vec (b <$> steps))
  = Returns (Vec ((λ s, f (a s) (b s)) <$> steps)).
Proof.
  cbn [binop]. rewrite broadcast_vec_same by (by rewrite !length_fmap).
  cbn [fmap outcome_fmap]. do 2 f_equal.
  induction steps as [|s steps IH]; [reflexivity|].
  cbn [fmap list_fmap zip_with]. f_equal. exact IH.
Qed.

Lemma binop_scalar_fmap {T A B C : Type} (f : A → B → C) (x : A)
    (b : T → B) (steps : list T) :
  binop f (Scalar x) (Vec (b <$> steps))
  = Returns (Vec ((λ s, f x (b s)) <$> steps)).
Proof. cbn [binop amap]. by rewrite <- list_fmap_compose. Qed.

Lemma zip_with_fmap_same {T A B C : Type} (f : A → B → C) (a : T → A)
    (b : T → B) (steps : list T) :
  zip_with f (a <$> steps) (b <$> steps)
  = (λ s, f (a s) (b s)) <$> steps.
Proof.
  induction steps as [|s steps IH]; [reflexivity|].
  cbn [fmap list_fmap zip_with]. f_equal. exact IH.
Qed.

(** The bootstrap term is finite, so the two groupings of its product
    agree. *)
Lemma bootstrap_assoc (gamma v' : R) (d : bool) :
  fmul (Fin gamma) (fmul (Fin v') (fsub (Fin 1) (of_bool d)))
  = fmul (fmul (Fin gamma) (Fin v')) (fsub (Fin 1) (of_bool d)).
Proof. destruct d; cbn; f_equal; ring. Qed.

Lemma stack_scalars {T A : Type} (f : T → A) (steps : list T) :
  stack ((λ s, Scalar (f s)) <$> steps) = Returns (Vec (f <$> steps)).
Proof.
  assert (Hmap : ∀ l : list T,
    mapM (λ a : array A, match a with
                         | Scalar x => Returns x
                         | _ => Raises ValueError
                         end) ((λ s, Scalar (f s)) <$> l)
    = Returns (f <$> l)).
  { induction l as [|x l IH]; [reflexivity|].
    cbn [fmap list_fmap mapM]. cbn [fmap list_fmap] in IH. rewrite IH.
    reflexivity. }
  destruct steps as [|x rest]; [reflexivity|].
  specialize (Hmap (x :: rest)). cbn [fmap list_fmap] in Hmap.
  cbn [fmap list_fmap stack]. by rewrite Hmap.
Qed.

Lemma mapM_seq_lookup {T A : Type} (f : nat → outcome A) (h : T → A)
    (steps : list T) (k : nat) :
  (∀ i s, steps !! i = Some s → f (k + i)%nat = Returns (h s)) →
  mapM f (seq k (length steps)) = Returns (h <$> steps).
Proof.
  revert k. induction steps as [|s steps IH]; intros k Hf; [reflexivity|].
  cbn [length seq mapM fmap list_fmap].
  rewrite <- (Nat.add_0_r k) at 1. rewrite (Hf 0%nat s eq_refl).
  rewrite (IH (S k)).
  - reflexivity.
  - intros i s' Hi. replace (S k + i)%nat with (k + S i)%nat by lia.
    by apply Hf.
Qed.

Lemma getitem_fmap {T A : Type} (g : T → A) (steps : list T) (i : nat)
    (s : T) :
  steps !! i = Some s → getitem (g <$> steps) i = Returns (g s).
Proof.
  intros Hi. apply getitem_lookup. by rewrite list_lookup_fmap, Hi.
Qed.

Section ScalarCritic.
Context {Obs Params OptState : Type}.
Variable self : BaseActorCriticPolicy.t Obs Params OptState.
Variables actor_parameters critic_parameters : Params.
Variable n_actions : nat.
Variable logits : Obs → list R.
Variable V : Obs → R.
Hypothesis some_action : n_actions ≠ 0%nat.
Hypothesis critic_shape : ∀ o,
  Network.model_functions (BaseActorCriticPolicy.critic self)
    critic_parameters o = Scalar (V o).

Variable steps : list (Step Obs).
Hypothesis steps_nonempty : steps ≠ [].
Hypothesis steps_well_formed : Forall (fits self actor_parameters n_actions logits) steps.

Lemma step_probabilities (s : Step Obs) :
  fits self actor_parameters n_actions logits s →
  BaseActorCriticPolicy.get_action_probabilities self actor_parameters
    (step_observation s) (Vec (step_action_mask s))
  = Returns (Vec (row_probabilities (Fin <$> logits (step_observation s))
                    (step_action_mask s))).
Proof.
  intros (Hactor & Hlogits & Hmask & _).
  unfold BaseActorCriticPolicy.get_action_probabilities, Network.get_logits.
  rewrite Hactor. cbn [amap]. apply pipeline_vec.
  - destruct (logits (step_observation s)); [|done].
    cbn in Hlogits. congruence.
  - by rewrite length_fmap, Hlogits.
Qed.

Lemma length_row_probabilities (s : Step Obs) :
  fits self actor_parameters n_actions logits s →
  length (row_probabilities (Fin <$> logits (step_observation s))
            (step_action_mask s)) = n_actions.
Proof.
  intros (_ & Hlogits & Hmask & _). unfold row_probabilities.
  rewrite length_zip_with, !length_fmap, length_zip_with, length_fmap.
  rewrite Hlogits. lia.
Qed.

Lemma batch_values (g : Step Obs → Obs) :
  Network.get_batch_logits (BaseActorCriticPolicy.critic self)
    critic_parameters (g <$> steps)
  = Returns (Vec ((λ s, Fin (V (g s))) <$> steps)).
Proof.
  unfold Network.get_batch_logits, Network.get_logits.
  rewrite <- list_fmap_compose.
  rewrite (list_fmap_ext _ (λ s, Scalar (Fin (V (g s)))) steps);
    [apply stack_scalars|].
  intros i s _. cbn. by rewrite critic_shape.
Qed.

Lemma spec_values (g : Step Obs → Obs) :
  mapM (Spec.value (BaseActorCriticPolicy.critic self) critic_parameters)
    (g <$> steps)
  = Returns ((λ s, Fin (V (g s))) <$> steps).
Proof.
  rewrite (mapM_Returns _ (λ o, Fin (V o))).
  - by rewrite <- list_fmap_compose.
  - apply Forall_forall. intros o _.
    unfold Spec.value, Network.get_logits. by rewrite critic_shape.
Qed.

Lemma scan_log_probabilities :
  ActorCriticPolicy.scan
    (ActorCriticPolicy.compute_log_prob self actor_parameters
       (step_observation <$> steps) (step_action <$> steps)
       (step_action_mask <$> steps))
    (seq 0 (length (step_observation <$> steps)))
  = Returns ((λ s, flog (taken_probability logits s)) <$> steps).
Proof.
  assert (Hbody : ∀ i s, steps !! i = Some s →
    ActorCriticPolicy.compute_log_prob self actor_parameters
      (step_observation <$> steps) (step_action <$> steps)
      (step_action_mask <$> steps) i
    = Returns (flog (taken_probability logits s))).
  { intros i s Hi.
    rewrite Forall_lookup in steps_well_formed.
    pose proof (steps_well_formed i s Hi) as Hfits.
    assert (Haction : (step_action s < n_actions)%nat) by apply Hfits.
    unfold ActorCriticPolicy.compute_log_prob.
    rewrite (getitem_fmap step_observation steps i s Hi).
    cbn [mbind outcome_bind].
    rewrite (getitem_fmap step_action_mask steps i s Hi).
    cbn [mbind outcome_bind].
    rewrite (step_probabilities s Hfits). cbn [mbind outcome_bind].
    rewrite (getitem_fmap step_action steps i s Hi).
    cbn [mbind outcome_bind].
    pose proof (length_row_probabilities s Hfits) as Hlen.
    destruct (lookup_lt_is_Some_2
                (row_probabilities (Fin <$> logits (step_observation s))
                   (step_action_mask s)) (step_action s)) as [p Hp];
      [lia|].
    rewrite (getitem_lookup _ _ _ Hp). cbn [mbind outcome_bind].
    unfold taken_probability. by rewrite Hp. }
  unfold ActorCriticPolicy.scan.
  destruct steps as [|s0 rest] eqn:Hsteps; [done|].
  rewrite <- Hsteps in *.
  assert (H0 : steps !! 0%nat = Some s0) by (by rewrite Hsteps).
  rewrite (Hbody 0%nat s0 H0). cbn [mbind outcome_bind].
  rewrite length_fmap. apply (mapM_seq_lookup _ _ steps 0).
  intros i s Hi. cbn [Nat.add]. by apply Hbody.
Qed.

Lemma spec_probabilities :
  Policy.actions_to_probabilities (H := BaseActorCriticPolicy.policy self)
    actor_parameters (step_observation <$> steps) (step_action <$> steps)
    (step_action_mask <$> steps)
  = Returns (taken_probability logits <$> steps).
Proof.
  unfold Policy.actions_to_probabilities.
  rewrite decide_True by (by rewrite !length_fmap).
  cbn [Policy.get_action_probabilities BaseActorCriticPolicy.policy].
  rewrite (mapM_Returns _
    (λ p : Obs * list bool,
       Vec (row_probabilities (Fin <$> logits p.1) p.2))).
  2:{ assert (Hall : ∀ l : list (Step Obs),
        Forall (fits self actor_parameters n_actions logits) l →
        Forall (λ p : Obs * list bool,
                  BaseActorCriticPolicy.get_action_probabilities self
                    actor_parameters p.1 (Vec p.2)
                  = Returns (Vec (row_probabilities (Fin <$> logits p.1)
                                    p.2)))
          (zip (step_observation <$> l) (step_action_mask <$> l))).
      { induction 1 as [|s rest Hfits _ IH]; [constructor|].
        cbn [fmap list_fmap zip zip_with]. constructor; [|exact IH].
        cbn [fst snd]. by apply step_probabilities. }
      by apply Hall. }
  cbn [mbind outcome_bind].
  rewrite (mapM_Returns _
    (λ a : array float, match a with Vec row => row | _ => [] end)).
  2:{ apply Forall_fmap, Forall_forall. by intros p _. }
  cbn [mbind outcome_bind].
  rewrite broadcast_vec_same.
  2:{ rewrite !length_fmap, length_zip_with, !length_fmap. lia. }
  f_equal. clear.
  induction steps as [|s rest IH]; [reflexivity|].
  cbn [fmap list_fmap zip zip_with fst snd]. f_equal. exact IH.
Qed.
(** With a scalar critic the loss of the code is the per-example loss of
    the specification. *)
Lemma scalar_critic_loss :
  fst <$> ActorCriticPolicy.compute_loss self
            (actor_parameters, critic_parameters) (batch_of steps)
  = Spec.actor_critic_loss self (actor_parameters, critic_parameters)
      (batch_of steps).
Proof.
  unfold ActorCriticPolicy.compute_loss, Spec.actor_critic_loss,
    ActorCriticPolicy.stop_gradient.
  cbn [batch_of observation action action_mask reward done
       next_observation].
  rewrite !batch_values, !spec_values, spec_probabilities,
    scan_log_probabilities.
  cbn [mbind outcome_bind].
  rewrite <- !list_fmap_compose.
  unfold add, sub, mul.
  repeat (first [rewrite binop_scalar_fmap | rewrite binop_vec_fmap];
          cbn [mbind outcome_bind]).
  cbn [fmap outcome_fmap fst amap].
  rewrite !zip_with_fmap_same, <- !list_fmap_compose.
  do 5 f_equal. apply list_fmap_ext. intros i s _.
  cbn [compose]. by rewrite bootstrap_assoc.
Qed.
End ScalarCritic.

(** On the batch where the critic of shape [1] gives the loss [1/4], the
    critic with a 0-d output gives the per-example loss, which is 0. *)
Lemma scalar_critic_on_two_states_forced :
  fst <$> ActorCriticPolicy.compute_loss Fixtures.actor_scalar_critic
            (tt, tt) Fixtures.two_states_forced
  = Spec.actor_critic_loss Fixtures.actor_scalar_critic (tt, tt)
      Fixtures.two_states_forced.
Proof.
  pose (steps :=
    [ {| step_observation := [0; 0; 0; 0]; step_action := 0%nat;
         step_action_mask := [true; false; false; false];
         step_reward := 0; step_done := true;
         step_next_observation := [0; 0; 0; 0] |};
      {| step_observation := [1; 0; 0; 0]; step_action := 0%nat;
         step_action_mask := [true; false; false; false];
         step_reward := 1; step_done := true;
         step_next_observation := [0; 0; 0; 0] |} ]).
  change Fixtures.two_states_forced with (batch_of steps).
  apply (scalar_critic_loss Fixtures.actor_scalar_critic tt tt 4
           (λ o, o) (λ o, default 0 (head o))).
  - lia.
  - reflexivity.
  - discriminate.
  - repeat constructor.
Qed.

(** ** The learning-rate schedule *)

Lemma Rpower_base_lt_1_decr (x a b : R) :
  0 < x < 1 → a < b → Rpower x b < Rpower x a.
Proof.
  intros [Hx0 Hx1] Hab. unfold Rpower. apply exp_increasing.
  assert (Hln : ln x < 0) by (rewrite <- ln_1; by apply ln_increasing).
  nra.
Qed.

Lemma Rpower_small_base_half :
  Rpower (1 / 100000) (/ 2) < 1 / 100.
Proof.
  rewrite Rpower_sqrt by lra.
  replace (1 / 100) with (sqrt (1 / 100 * (1 / 100)))
    by (apply sqrt_square; lra).
  apply sqrt_lt_1; lra.
Qed.

(** C6 (evaluated where the claim fails).  [Network.__init__] passes
    [min(learning_rate, 1e-5)] as the decay rate and [0.5] as the step at
    which the decay begins, and gives no end value.  With the default rate
    [1e-3] and [lr_decay = 1000] the rate after 1000 steps is
    [1e-3 * (1e-5) ^ (999.5 / 1000)], which is below the floor [1e-5] of the
    claim, whose schedule gives [5e-4] there.  Without [lr_decay] the rate
    is constant. *)
Theorem learning_rate_scheduler_decays_by_the_floor :
  Network.learning_rate_scheduler (1 / 1000) (Some 1000%Z) 1000
  = 1 / 1000 * Rpower (1 / 100000) (1999 / 2000)
  ∧ Network.learning_rate_scheduler (1 / 1000) (Some 1000%Z) 1000
    < 1 / 100000
  ∧ Spec.learning_rate (1 / 1000) (Some 1000%Z) 1000 = 1 / 2000
  ∧ ∀ learning_rate count,
      Network.learning_rate_scheduler learning_rate None count
      = learning_rate.
Proof.
  assert (Hcount : INR 1000 = 1000).
  { rewrite INR_IZR_INZ. f_equal. }
  assert (Hcode :
    Network.learning_rate_scheduler (1 / 1000) (Some 1000%Z) 1000
    = 1 / 1000 * Rpower (1 / 100000) (1999 / 2000)).
  { unfold Network.learning_rate_scheduler, Optax.exponential_decay.
    rewrite decide_False by lia.
    rewrite (Rmin_right (1 / 1000) (1 / 100000)) by lra.
    rewrite decide_False by lra.
    destruct (Rlt_dec (1 / 2) 0) as [Hneg|_]; [lra|].
    rewrite Hcount.
    destruct (Rle_dec (1000 - 1 / 2) 0) as [Hle|_]; [lra|].
    do 2 f_equal. lra. }
  split; [exact Hcode|]. split; [|split].
  - rewrite Hcode.
    pose proof (Rpower_base_lt_1_decr (1 / 100000) (/ 2) (1999 / 2000))
      as Hdecr.
    pose proof Rpower_small_base_half as Hhalf.
    assert (Rpower (1 / 100000) (1999 / 2000) < Rpower (1 / 100000) (/ 2))
      by (apply Hdecr; lra).
    lra.
  - unfold Spec.learning_rate. rewrite Hcount.
    replace (1000 / 1000) with 1 by lra.
    rewrite Rpower_1 by lra.
    rewrite (Rmin_right (1 / 1000) (1 / 100000)) by lra.
    rewrite Rmax_left by lra. lra.
  - reflexivity.
Qed.

(** ** [RandomPolicy] *)

(** C9. [RandomPolicy.update] returns its input state, however often it is
    applied, and [RandomPolicy.compute_loss] returns the loss 0 with an
    empty dictionary of metrics. *)
Theorem random_policy_update_is_identity :
  ∀ (Obs Params OptState : Type) (state : PolicyState Params OptState)
    (transitions : Transition Obs),
    RandomPolicy.update state transitions = state
    ∧ (∀ n : nat,
         Nat.iter n (λ s, RandomPolicy.update s transitions) state = state)
    ∧ (∀ model_parameters : Params,
         RandomPolicy.compute_loss model_parameters transitions
         = (Fin 0, ∅)).
Proof.
  intros Obs Params OptState state transitions.
  split; [reflexivity|]. split; [|reflexivity].
  induction n as [|n IH]; [reflexivity|].
  exact IH.
Qed.

(** ** The empty batch *)

(** C8, as claimed, fails: on the empty batch
    [compute_discounted_returns] raises nothing and returns the empty
    vector. *)
Lemma empty_batch_returns_without_error :
  ReinforcePolicy.compute_discounted_returns
    (Fixtures.empty_batch (Obs := unit)) (1 / 2)
  = Returns []
  ∧ ¬ ∃ e, ReinforcePolicy.compute_discounted_returns
             (Fixtures.empty_batch (Obs := unit)) (1 / 2)
           = Raises e.
Proof.
  split; [reflexivity|]. intros [e He]. discriminate He.
Qed.

(** C8, amended.  [compute_discounted_returns] makes no check of the batch:
    on the empty batch, for every discount factor, its loop body never
    runs, it signals no error and returns the empty vector of returns. *)
Theorem empty_batch_is_not_rejected :
  ∀ (Obs : Type) (discount_factor : R),
    ReinforcePolicy.compute_discounted_returns
      (Fixtures.empty_batch (Obs := Obs)) discount_factor
    = Returns []
    ∧ ∀ e : exn,
        ReinforcePolicy.compute_discounted_returns
          (Fixtures.empty_batch (Obs := Obs)) discount_factor
        ≠ Raises e.
Proof.
  intros Obs discount_factor. split; [reflexivity|].
  intros e He. discriminate He.
Qed.

(** ** Sampling under [RandomPolicy] *)

Section RandomSampling.
Context {Obs Params OptState Key : Type}.
Variable choice : Key → list nat → list float → nat.
Implicit Types (mask : list bool) (u v : list R).
Import ReinforcePolicy.
Lemma random_sample_action (key : Key)
    (policy_state : PolicyState Params OptState) (observation : Obs) mask :
  mask ≠ [] →
  Policy.sample_action (H := RandomPolicy.policy) choice key policy_state
    observation mask
  = Returns (choice key (seq 0 (length mask)) (normalized mask)).
Proof.
  intros Hne. unfold Policy.sample_action.
  cbn [Policy.get_action_probabilities RandomPolicy.policy].
  unfold RandomPolicy.get_action_probabilities, div, mul, sum.
  cbn [amap elements binop mbind outcome_bind].
  rewrite broadcast_vec_same by (by rewrite !length_fmap).
  cbn [fmap outcome_fmap mbind outcome_bind amap elements binop
       Policy.shape0].
  rewrite !length_fmap.
  rewrite decide_False by (by destruct mask).
  rewrite decide_True; [reflexivity|].
  rewrite length_zip_with, !length_fmap. lia.
Qed.

Lemma of_bool_b2r mask : of_bool <$> mask = Fin <$> (b2r <$> mask).
Proof.
  induction mask as [|[] mask IH]; [done|..]; cbn; by rewrite IH.
Qed.

Lemma fmul_Fin_list u v :
  zip_with fmul (Fin <$> u) (Fin <$> v) = Fin <$> zip_with Rmult u v.
Proof.
  revert v. induction u as [|x u IH]; intros [|y v]; try reflexivity.
  cbn. by rewrite IH.
Qed.

Lemma n_valid_pos mask : true ∈ mask → 1 <= n_valid mask.
Proof.
  unfold n_valid, rsum.
  induction mask as [|b mask IH]; intros Hin;
    [by apply elem_of_nil in Hin|].
  assert (Hrest : 0 <= foldr Rplus 0 (b2r <$> mask)).
  { clear. induction mask as [|[] mask IH]; cbn; lra. }
  cbn. destruct b; cbn; [lra|].
  apply elem_of_cons in Hin as [|Hin]; [discriminate|].
  specialize (IH Hin). lra.
Qed.

Lemma rsum_masked_uniform (k : R) mask :
  rsum (zip_with Rmult ((λ x, x / k) <$> (b2r <$> mask)) (b2r <$> mask))
  = n_valid mask / k.
Proof.
  unfold n_valid, rsum.
  induction mask as [|b mask IH]; cbn; [unfold Rdiv; ring|].
  rewrite IH. destruct b; cbn; unfold Rdiv; ring.
Qed.

Lemma normalized_uniform mask :
  true ∈ mask → normalized mask = Fin <$> uniform mask.
Proof.
  intros Hin. pose proof (n_valid_pos mask Hin) as Hk.
  unfold normalized. rewrite of_bool_b2r, fsum_Fin.
  fold (n_valid mask).
  rewrite (fdiv_Fin_list (n_valid mask)) by lra.
  rewrite fmul_Fin_list, fsum_Fin, rsum_masked_uniform.
  rewrite Rdiv_diag by lra. rewrite fdiv_Fin_list by lra.
  f_equal. unfold uniform.
  generalize (n_valid mask). intros k. clear.
  induction mask as [|b mask IH]; [done|].
  cbn [fmap list_fmap zip_with]. f_equal; [|exact IH].
  destruct b; cbn; lra.
Qed.

Lemma normalized_all_forbidden (n : nat) :
  normalized (replicate n false) = replicate n NaN.
Proof.
  unfold normalized.
  assert (Hsum : fsum (of_bool <$> replicate n false) = Fin 0).
  { rewrite of_bool_b2r, fsum_Fin. f_equal. unfold rsum.
    induction n as [|n IH]; cbn; [done|]. rewrite IH. lra. }
  rewrite Hsum.
  rewrite !fmap_replicate. cbn [of_bool].
  assert (Hnan : fdiv (Fin 0) (Fin 0) = NaN).
  { cbn. rewrite decide_True by done. unfold scale_inf.
    by rewrite decide_True. }
  rewrite Hnan.
  assert (Hmasked :
    zip_with fmul (replicate n NaN) (replicate n (Fin 0))
    = replicate n NaN).
  { clear. induction n as [|n IH]; [done|].
    cbn [replicate zip_with fmul]. by rewrite IH. }
  rewrite Hmasked, fmap_replicate. reflexivity.
Qed.

Lemma uniform_forbidden mask i :
  mask !! i = Some false → uniform mask !! i = Some 0.
Proof.
  intros Hi. unfold uniform. rewrite !list_lookup_fmap, Hi. cbn.
  f_equal. unfold Rdiv. ring.
Qed.

Lemma rsum_uniform mask : true ∈ mask → rsum (uniform mask) = 1.
Proof.
  intros Hin. pose proof (n_valid_pos mask Hin) as Hk.
  assert (Hsum : ∀ k, rsum ((λ x, x / k) <$> (b2r <$> mask))
                      = n_valid mask / k).
  { intros k. unfold n_valid, rsum. clear.
    induction mask as [|b mask IH]; cbn; [unfold Rdiv; ring|].
    rewrite IH. unfold Rdiv. ring. }
  unfold uniform. rewrite Hsum. apply Rdiv_diag. lra.
Qed.
End RandomSampling.

(** C7, as claimed, fails: with every action forbidden the probabilities of
    [RandomPolicy] are all NaN, and [sample_action] still returns an action
    index (here the forbidden action 0), raising nothing. *)
Lemma sample_action_accepts_all_zero_mask :
  RandomPolicy.get_action_probabilities (Obs := unit) tt tt
    (Vec [false; false; false; false])
  = Returns (Vec [NaN; NaN; NaN; NaN])
  ∧ Policy.sample_action (H := RandomPolicy.policy) Fixtures.first_choice
      tt Fixtures.policy_state tt [false; false; false; false]
    = Returns 0%nat.
Proof.
  split.
  - unfold RandomPolicy.get_action_probabilities, div, sum, fsum.
    cbn [amap elements fmap list_fmap of_bool foldr fadd binop].
    rewrite !Rplus_0_r.
    assert (Hnan : fdiv (Fin 0) (Fin 0) = NaN).
    { cbn. rewrite decide_True by done. unfold scale_inf.
      by rewrite decide_True. }
    by rewrite Hnan.
  - by rewrite random_sample_action.
Qed.

(** C7, amended.  [sample_action] checks nothing and raises nothing.  With
    every action forbidden the probabilities it hands to
    [jax.random.choice] are all NaN and it returns whatever index is drawn.
    With at least one allowed action, under [RandomPolicy], it draws from
    the uniform distribution on the allowed actions: 0 on every forbidden
    action, summing to 1. *)
Theorem sample_action_does_not_check_the_mask :
  ∀ (Obs Params OptState Key : Type)
    (choice : Key → list nat → list float → nat) (key : Key)
    (policy_state : PolicyState Params OptState) (observation : Obs),
    (∀ n : nat, n ≠ 0%nat →
       Policy.sample_action (H := RandomPolicy.policy) choice key
         policy_state observation (replicate n false)
       = Returns (choice key (seq 0 n) (replicate n NaN)))
    ∧ (∀ mask : list bool, true ∈ mask →
         Policy.sample_action (H := RandomPolicy.policy) choice key
           policy_state observation mask
         = Returns (choice key (seq 0 (length mask)) (Fin <$> uniform mask))
         ∧ (∀ i, mask !! i = Some false → uniform mask !! i = Some 0)
         ∧ rsum (uniform mask) = 1).
Proof.
  intros Obs Params OptState Key choice key policy_state observation.
  split.
  - intros n Hn. rewrite random_sample_action by (by destruct n).
    by rewrite normalized_all_forbidden, length_replicate.
  - intros mask Hin. split; [|split].
    + rewrite random_sample_action.
      * by rewrite normalized_uniform.
      * intros ->. by apply elem_of_nil in Hin.
    + intros i. apply uniform_forbidden.
    + by apply rsum_uniform.
Qed.

Lemma sample_action_does_not_check_the_mask_witness :
  (4 ≠ 0)%nat
  ∧ Policy.sample_action (H := RandomPolicy.policy) Fixtures.first_choice tt
      Fixtures.policy_state tt (replicate 4 false)
    = Returns (Fixtures.first_choice tt (seq 0 4) (replicate 4 NaN))
  ∧ true ∈ [true; false; true; false]
  ∧ rsum (uniform [true; false; true; false]) = 1.
Proof.
  pose proof (sample_action_does_not_check_the_mask unit unit unit unit
                Fixtures.first_choice tt Fixtures.policy_state tt)
    as [Hzero Hvalid].
  assert (H4 : (4 ≠ 0)%nat) by lia.
  assert (Hin : true ∈ [true; false; true; false])
    by apply list_elem_of_here.
  split; [exact H4|]. split; [exact (Hzero 4%nat H4)|].
  split; [exact Hin|].
  exact (proj2 (proj2 (Hvalid _ Hin))).
Defined.

(** ** Instances of the theorems with hypotheses *)

Lemma get_action_probabilities_masked_distribution_witness :
  Network.model_functions (ReinforcePolicy.actor Fixtures.reinforce) tt
    [0; 0; 0; 0] = Vec [0; 0; 0; 0]
  ∧ length [true; true; false; false] = length [0; 0; 0; 0]
  ∧ true ∈ [true; true; false; false]
  ∧ ∃ probs,
      ReinforcePolicy.get_action_probabilities Fixtures.reinforce tt
        (Obs3 [0; 0; 0; 0]) (Vec [true; true; false; false])
      = Returns (Vec probs)
      ∧ is_masked_distribution [true; true; false; false] probs.
Proof.
  assert (Hin : true ∈ [true; true; false; false])
    by apply list_elem_of_here.
  split; [reflexivity|]. split; [reflexivity|]. split; [exact Hin|].
  destruct (proj1 get_action_probabilities_masked_distribution
              (list R) unit unit Fixtures.reinforce tt [0; 0; 0; 0]
              [true; true; false; false] [0; 0; 0; 0]
              eq_refl eq_refl Hin) as (probs & Hcall & _ & Hdist).
  exists probs. split; [exact Hcall|exact Hdist].
Defined.


(** * Further properties of the code *)

(** ** Discounted returns as a function of the reward and done lists *)

Section Discounted.
Import ReinforcePolicy.
Variable discount_factor : R.
Implicit Types (rewards G : list R) (dones : list bool).

Lemma length_discounted rewards dones :
  length dones = length rewards →
  length (discounted discount_factor rewards dones) = length rewards.
Proof.
  revert dones. induction rewards as [|r rewards IH]; intros [|d dones] Hlen;
    try discriminate; [reflexivity|].
  cbn. f_equal. apply IH. by injection Hlen.
Qed.

Lemma discounted_cons (r : R) rewards (d : bool) dones :
  discounted discount_factor (r :: rewards) (d :: dones)
  = (r + discount_factor
         * default 0 (head (discounted discount_factor rewards dones))
         * (1 - b2r d))
    :: discounted discount_factor rewards dones.
Proof. reflexivity. Qed.

(** The recurrence of the loop has one solution of the length of the
    batch. *)
Lemma recurrence_unique rewards dones G :
  length G = length rewards → length dones = length rewards →
  (∀ i r d, rewards !! i = Some r → dones !! i = Some d →
     G !! i = Some (r + discount_factor * default 0 (G !! S i)
                        * (1 - b2r d))) →
  G = discounted discount_factor rewards dones.
Proof.
  revert dones G.
  induction rewards as [|r rewards IH]; intros [|d dones] [|g G] HG Hd Hrec;
    try discriminate; [reflexivity|].
  assert (HG' : G = discounted discount_factor rewards dones).
  { apply IH; [by injection HG|by injection Hd|].
    intros i r' d' Hr' Hd'. apply (Hrec (S i) r' d'); done. }
  specialize (Hrec 0%nat r d eq_refl eq_refl).
  cbn in Hrec. injection Hrec as Hg.
  cbn [discounted]. rewrite <- HG'. f_equal.
  rewrite Hg. by destruct G.
Qed.

Lemma discounted_app rewards1 dones1 rewards2 dones2 :
  length dones1 = length rewards1 → last dones1 = Some true →
  discounted discount_factor (rewards1 ++ rewards2) (dones1 ++ dones2)
  = discounted discount_factor rewards1 dones1
    ++ discounted discount_factor rewards2 dones2.
Proof.
  revert dones1.
  induction rewards1 as [|r rewards1 IH]; intros [|d dones1] Hlen Hlast;
    try discriminate.
  destruct rewards1 as [|r' rewards1].
  - destruct dones1; [|discriminate]. cbn in Hlast.
    injection Hlast as ->. cbn. f_equal. lra.
  - destruct dones1 as [|d' dones1]; [discriminate|].
    assert (Htail :
      discounted discount_factor ((r' :: rewards1) ++ rewards2)
        ((d' :: dones1) ++ dones2)
      = discounted discount_factor (r' :: rewards1) (d' :: dones1)
        ++ discounted discount_factor rewards2 dones2).
    { apply IH; [cbn in Hlen |- *; lia|exact Hlast]. }
    change ((r :: r' :: rewards1) ++ rewards2)
      with (r :: ((r' :: rewards1) ++ rewards2)).
    change ((d :: d' :: dones1) ++ dones2)
      with (d :: ((d' :: dones1) ++ dones2)).
    cbn [discounted]. rewrite Htail.
    cbn [discounted app head]. reflexivity.
Qed.

(** Without a done flag before the last step the returns are the
    discounted sums of the remaining rewards. *)
Lemma discounted_single_episode rewards (d : bool) (i : nat) :
  rewards ≠ [] → (i < length rewards)%nat →
  discounted discount_factor rewards
    (replicate (pred (length rewards)) false ++ [d]) !! i
  = Some (discounted_sum discount_factor (drop i rewards)).
Proof.
  intros Hne. revert i.
  induction rewards as [|r rewards IH]; intros i Hi; [done|].
  destruct rewards as [|r' rewards].
  - destruct i; [|cbn in Hi; lia]. cbn. f_equal. destruct d; cbn; lra.
  - change (replicate (pred (length (r :: r' :: rewards))) false ++ [d])
      with (false :: (replicate (pred (length (r' :: rewards))) false
                        ++ [d])).
    rewrite discounted_cons.
    destruct i as [|i].
    + cbn [lookup list_lookup drop]. f_equal.
      rewrite head_lookup.
      rewrite (IH ltac:(done) 0%nat) by (cbn; lia).
      cbn [drop default from_option]. unfold Datatypes.id.
      change (discounted_sum discount_factor (r :: r' :: rewards))
        with (r + discount_factor
                  * discounted_sum discount_factor (r' :: rewards)).
      cbn [b2r]. ring.
    + cbn [lookup list_lookup drop]. apply IH; [done|]. cbn in Hi |- *. lia.
Qed.

Lemma discounted_bounded (M : R) rewards dones :
  0 <= discount_factor < 1 →
  Forall (λ r, Rabs r <= M) rewards →
  Forall (λ g, Rabs g <= M / (1 - discount_factor))
    (discounted discount_factor rewards dones).
Proof.
  intros Hgamma Hrewards. revert dones.
  induction Hrewards as [|r rewards Hr _ IH]; intros dones.
  { destruct dones; constructor. }
  destruct dones as [|d dones]; [constructor|].
  rewrite discounted_cons. specialize (IH dones).
  constructor; [|exact IH].
  assert (HM : 0 <= M) by (pose proof (Rabs_pos r); lra).
  assert (Hbound : 0 <= M / (1 - discount_factor))
    by (unfold Rdiv; apply Rmult_le_pos;
        [lra|left; apply Rinv_0_lt_compat; lra]).
  assert (Hhead :
    Rabs (default 0 (head (discounted discount_factor rewards dones)))
    <= M / (1 - discount_factor)).
  { destruct (discounted discount_factor rewards dones) as [|g G];
      cbn; [by rewrite Rabs_R0|].
    by apply Forall_cons_1 in IH as [? _]. }
  set (next := default 0 (head (discounted discount_factor rewards dones)))
    in *.
  assert (Hq : M / (1 - discount_factor)
               = M + discount_factor * (M / (1 - discount_factor))).
  { field. lra. }
  assert (Hpos : 0 <= discount_factor * (M / (1 - discount_factor)))
    by (apply Rmult_le_pos; lra).
  destruct d; cbn [b2r].
  - replace (r + discount_factor * next * (1 - 1)) with r by ring. lra.
  - replace (r + discount_factor * next * (1 - 0))
      with (r + discount_factor * next) by ring.
    rewrite Hq.
    eapply Rle_trans; [apply Rabs_triang|].
    rewrite Rabs_mult, (Rabs_pos_eq discount_factor) by lra.
    apply Rplus_le_compat; [done|].
    apply Rmult_le_compat_l; lra.
Qed.
End Discounted.

(** What [compute_discounted_returns] returns, as a function of the two
    arrays it reads. *)
Lemma compute_discounted_returns_discounted {Obs : Type}
    (transitions : Transition Obs) (discount_factor : R) :
  length (done transitions) = length (reward transitions) →
  ReinforcePolicy.compute_discounted_returns transitions discount_factor
  = Returns (discounted discount_factor (reward transitions)
               (done transitions)).
Proof.
  intros Hlen.
  destruct (returns_loop_invariant (reward transitions) (done transitions)
              discount_factor Hlen (length (reward transitions)) 0)
    as (run & G & Hfold & HG & _ & Hrec); [lia|].
  unfold ReinforcePolicy.compute_discounted_returns.
  rewrite foldl_reverse, Hfold. cbn [fmap outcome_fmap snd]. f_equal.
  apply recurrence_unique; [done|done|].
  intros i r d Hr Hd. apply Hrec; [lia|done|done].
Qed.

(** X1. When the first part of a batch ends with [done = 1], the returns of
    the batch are the returns of the first part followed by the returns of
    the rest, each computed on its own: nothing of the second part reaches
    the first. *)
Theorem discounted_returns_split_at_episode_end :
  ∀ (Obs : Type) (first rest whole : Transition Obs) (discount_factor : R),
    length (done first) = length (reward first) →
    length (done rest) = length (reward rest) →
    last (done first) = Some true →
    reward whole = reward first ++ reward rest →
    done whole = done first ++ done rest →
    ∃ G1 G2,
      ReinforcePolicy.compute_discounted_returns first discount_factor
      = Returns G1
      ∧ ReinforcePolicy.compute_discounted_returns rest discount_factor
        = Returns G2
      ∧ ReinforcePolicy.compute_discounted_returns whole discount_factor
        = Returns (G1 ++ G2).
Proof.
  intros Obs first rest whole discount_factor Hfirst Hrest Hlast Hr Hd.
  exists (discounted discount_factor (reward first) (done first)),
    (discounted discount_factor (reward rest) (done rest)).
  split; [by apply compute_discounted_returns_discounted|].
  split; [by apply compute_discounted_returns_discounted|].
  rewrite compute_discounted_returns_discounted
    by (rewrite Hr, Hd, !length_app; lia).
  rewrite Hr, Hd. f_equal. by apply discounted_app.
Qed.

Lemma discounted_returns_split_at_episode_end_witness :
  length [false; true] = length [1; 2]
  ∧ length [false] = length [4]
  ∧ last [false; true] = Some true
  ∧ ∃ G1 G2,
      ReinforcePolicy.compute_discounted_returns
        (reward_batch [1; 2] [false; true]) (1 / 2) = Returns G1
      ∧ ReinforcePolicy.compute_discounted_returns
          (reward_batch [4] [false]) (1 / 2) = Returns G2
      ∧ ReinforcePolicy.compute_discounted_returns
          (reward_batch [1; 2; 4] [false; true; false]) (1 / 2)
        = Returns (G1 ++ G2).
Proof.
  split; [reflexivity|]. split; [reflexivity|]. split; [reflexivity|].
  exact (discounted_returns_split_at_episode_end unit
           (reward_batch [1; 2] [false; true]) (reward_batch [4] [false])
           (reward_batch [1; 2; 4] [false; true; false]) (1 / 2)
           eq_refl eq_refl eq_refl eq_refl eq_refl).
Defined.

(** X2. On a batch with no [done] flag before its last step, the return of
    step [i] is the discounted sum of the rewards from step [i] on:
    [reward[i] + g * (reward[i+1] + g * (...))]. *)
Theorem discounted_returns_of_one_episode :
  ∀ (Obs : Type) (transitions : Transition Obs) (discount_factor : R)
    (last_done : bool),
    reward transitions ≠ [] →
    done transitions
    = replicate (pred (length (reward transitions))) false ++ [last_done] →
    ∃ G,
      ReinforcePolicy.compute_discounted_returns transitions discount_factor
      = Returns G
      ∧ ∀ i, (i < length (reward transitions))%nat →
          G !! i
          = Some (discounted_sum discount_factor
                    (drop i (reward transitions))).
Proof.
  intros Obs transitions discount_factor last_done Hne Hdone.
  exists (discounted discount_factor (reward transitions)
            (done transitions)).
  split.
  - apply compute_discounted_returns_discounted.
    rewrite Hdone, length_app, length_replicate. cbn.
    destruct (reward transitions); [done|]. cbn. lia.
  - intros i Hi. rewrite Hdone. by apply discounted_single_episode.
Qed.

Lemma discounted_returns_of_one_episode_witness :
  [1; 1; 1] ≠ []
  ∧ [false; false; true] = replicate (pred (length [1; 1; 1])) false ++ [true]
  ∧ ∃ G,
      ReinforcePolicy.compute_discounted_returns
        (reward_batch [1; 1; 1] [false; false; true]) (1 / 2) = Returns G
      ∧ G !! 0%nat = Some (discounted_sum (1 / 2) [1; 1; 1]).
Proof.
  assert (Hne : [1; 1; 1] ≠ @nil R) by discriminate.
  split; [exact Hne|]. split; [reflexivity|].
  destruct (discounted_returns_of_one_episode unit
              (reward_batch [1; 1; 1] [false; false; true]) (1 / 2) true
              Hne eq_refl) as (G & HG & Hsum).
  exists G. split; [exact HG|]. apply (Hsum 0%nat). cbn. lia.
Defined.

(** X3. With a discount factor in [0, 1) and rewards bounded by [M] in
    absolute value, every return is bounded by [M / (1 - discount)]. *)
Theorem discounted_returns_bounded :
  ∀ (Obs : Type) (transitions : Transition Obs) (discount_factor M : R),
    0 <= discount_factor < 1 →
    length (done transitions) = length (reward transitions) →
    Forall (λ r, Rabs r <= M) (reward transitions) →
    ∃ G,
      ReinforcePolicy.compute_discounted_returns transitions discount_factor
      = Returns G
      ∧ Forall (λ g, Rabs g <= M / (1 - discount_factor)) G.
Proof.
  intros Obs transitions discount_factor M Hgamma Hlen Hrewards.
  exists (discounted discount_factor (reward transitions)
            (done transitions)).
  split; [by apply compute_discounted_returns_discounted|].
  by apply discounted_bounded.
Qed.

Lemma discounted_returns_bounded_witness :
  0 <= 1 / 2 < 1
  ∧ length [false; true] = length [1; -1]
  ∧ Forall (λ r, Rabs r <= 1) [1; -1]
  ∧ ∃ G,
      ReinforcePolicy.compute_discounted_returns
        (reward_batch [1; -1] [false; true]) (1 / 2) = Returns G
      ∧ Forall (λ g, Rabs g <= 1 / (1 - 1 / 2)) G.
Proof.
  assert (Hgamma : 0 <= 1 / 2 < 1) by lra.
  assert (Hrewards : Forall (λ r, Rabs r <= 1) [1; -1]).
  { constructor; [apply Rabs_le; lra|].
    constructor; [apply Rabs_le; lra|]. constructor. }
  split; [exact Hgamma|]. split; [reflexivity|]. split; [exact Hrewards|].
  exact (discounted_returns_bounded unit (reward_batch [1; -1] [false; true])
           (1 / 2) 1 Hgamma eq_refl Hrewards).
Defined.

(** ** Masks without an allowed action, and sampling from a softmax policy *)

Lemma row_probabilities_forbidden (x : list float) (mask : list bool)
    (i : nat) :
  length mask = length x → mask !! i = Some false →
  row_probabilities x mask !! i = Some (Fin 0).
Proof.
  intros Hlen Hi. unfold row_probabilities.
  assert (i < length mask)%nat by (eapply lookup_lt_Some; eauto).
  rewrite lookup_zip_with, Hi. cbn [mbind option_bind].
  rewrite !list_lookup_fmap.
  destruct (lookup_lt_is_Some_2
    (zip_with (λ (c : bool) v, if c then v else NInf) mask x) i)
    as [y ->]; [|reflexivity].
  rewrite length_zip_with. lia.
Qed.

Lemma row_probabilities_all_forbidden (x : list float) (n : nat) :
  length x = n →
  row_probabilities x (replicate n false) = replicate n (Fin 0).
Proof.
  intros Hlen. apply list_eq. intros i.
  destruct (decide (i < n)%nat) as [Hi|Hi].
  - rewrite row_probabilities_forbidden.
    + by rewrite lookup_replicate_2.
    + by rewrite length_replicate.
    + by rewrite lookup_replicate_2.
  - rewrite !lookup_ge_None_2; [done|rewrite length_replicate; lia|].
    unfold row_probabilities.
    rewrite length_zip_with, length_replicate. lia.
Qed.

Section SoftmaxSampling.
Context {Obs Params OptState Key : Type}.
Variable choice : Key → list nat → list float → nat.
Implicit Types (mask : list bool) (p : list R).

(** What [sample_action] does once the policy has returned a vector with
    one probability per mask flag. *)
Lemma sample_action_renormalizes (policy : Policy.t Obs Params) (key : Key)
    (policy_state : PolicyState Params OptState) (observation : Obs) mask
    (action_probs : list float) :
  Policy.get_action_probabilities
    (model_parameters (actor_network_state policy_state)) observation
    (Vec mask) = Returns (Vec action_probs) →
  length action_probs = length mask → mask ≠ [] →
  Policy.sample_action (H := policy) choice key policy_state observation mask
  = Returns (choice key (seq 0 (length mask))
               (renormalized action_probs mask)).
Proof.
  intros Hprobs Hlen Hne. unfold Policy.sample_action.
  rewrite Hprobs. cbn [mbind outcome_bind]. unfold mul, div, sum.
  cbn [binop]. rewrite broadcast_vec_same by (by rewrite length_fmap).
  cbn [fmap outcome_fmap mbind outcome_bind amap elements binop
       Policy.shape0].
  rewrite Hlen.
  rewrite decide_False by (by destruct mask).
  rewrite decide_True; [reflexivity|].
  rewrite length_fmap, length_zip_with, length_fmap. lia.
Qed.

Lemma rezero_times_mask mask p :
  zip_with Rmult (zip_with (λ (c : bool) v, if c then v else 0) mask p)
    (ReinforcePolicy.b2r <$> mask)
  = zip_with (λ (c : bool) v, if c then v else 0) mask p.
Proof.
  revert p. induction mask as [|c mask IH]; intros [|v p]; try reflexivity.
  cbn [zip_with fmap list_fmap]. rewrite IH. f_equal.
  destruct c; cbn; ring.
Qed.

Lemma rsum_masked_softmax_all mask (l : list R) :
  length mask = length l → true ∈ mask → rsum (masked_softmax mask l) = 1.
Proof.
  intros Hlen Hin.
  rewrite <- (rsum_masked_softmax mask l Hlen Hin).
  unfold masked_softmax. by rewrite rsum_valid_entries.
Qed.

Lemma fmap_div_1 p : (λ x, x / 1) <$> p = p.
Proof.
  induction p as [|x p IH]; [reflexivity|].
  cbn [fmap list_fmap]. rewrite IH. f_equal. lra.
Qed.

Lemma renormalized_masked_softmax mask (l : list R) :
  length mask = length l → true ∈ mask →
  renormalized (Fin <$> masked_softmax mask l) mask
  = Fin <$> masked_softmax mask l.
Proof.
  intros Hlen Hin. unfold renormalized.
  rewrite of_bool_b2r, fmul_Fin_list.
  assert (Hmasked :
    zip_with Rmult (masked_softmax mask l) (ReinforcePolicy.b2r <$> mask)
    = masked_softmax mask l)
    by (unfold masked_softmax; apply rezero_times_mask).
  rewrite Hmasked, fsum_Fin, rsum_masked_softmax_all by done.
  rewrite fdiv_Fin_list by lra. by rewrite fmap_div_1.
Qed.

Lemma renormalized_zeros (n : nat) :
  renormalized (replicate n (Fin 0)) (replicate n false) = replicate n NaN.
Proof.
  unfold renormalized. rewrite fmap_replicate. cbn [of_bool].
  assert (Hmasked :
    zip_with fmul (replicate n (Fin 0)) (replicate n (Fin 0))
    = Fin <$> replicate n (0 * 0)).
  { clear. induction n as [|n IH]; [done|].
    cbn [replicate zip_with fmul fmap list_fmap]. by rewrite IH. }
  rewrite Hmasked, fsum_Fin.
  assert (Hsum : rsum (replicate n (0 * 0)) = 0).
  { clear. unfold rsum. induction n as [|n IH]; [reflexivity|].
    cbn [replicate foldr]. rewrite IH. ring. }
  rewrite Hsum, !fmap_replicate. f_equal.
  cbn. rewrite decide_True by done. unfold scale_inf.
  rewrite decide_True; [done|ring].
Qed.
End SoftmaxSampling.

Lemma reinforce_unbatched_probabilities {Obs Params OptState : Type}
    (self : ReinforcePolicy.t Obs Params OptState) (model_parameters : Params)
    (observation : Obs) (mask : list bool) (logits : list R) :
  Network.model_functions (ReinforcePolicy.actor self) model_parameters
    observation = Vec logits →
  length mask = length logits → logits ≠ [] →
  ReinforcePolicy.get_action_probabilities self model_parameters
    (Obs3 observation) (Vec mask)
  = Returns (Vec (row_probabilities (Fin <$> logits) mask)).
Proof.
  intros Hl Hlen Hne.
  unfold ReinforcePolicy.get_action_probabilities, Network.get_logits.
  cbn [mbind outcome_bind]. rewrite Hl. cbn [amap].
  apply pipeline_vec; [by destruct logits|by rewrite length_fmap].
Qed.

Lemma actor_critic_probabilities {Obs Params OptState : Type}
    (self : BaseActorCriticPolicy.t Obs Params OptState)
    (model_parameters : Params) (observation : Obs) (mask : list bool)
    (logits : list R) :
  Network.model_functions (BaseActorCriticPolicy.actor self) model_parameters
    observation = Vec logits →
  length mask = length logits → logits ≠ [] →
  BaseActorCriticPolicy.get_action_probabilities self model_parameters
    observation (Vec mask)
  = Returns (Vec (row_probabilities (Fin <$> logits) mask)).
Proof.
  intros Hl Hlen Hne.
  unfold BaseActorCriticPolicy.get_action_probabilities, Network.get_logits.
  rewrite Hl. cbn [amap].
  apply pipeline_vec; [by destruct logits|by rewrite length_fmap].
Qed.

Lemma length_row_probabilities_fit (x : list float) (mask : list bool) :
  length mask = length x → length (row_probabilities x mask) = length mask.
Proof.
  intros Hlen. unfold row_probabilities.
  rewrite length_zip_with, !length_fmap, length_zip_with. lia.
Qed.

(** X4. Whatever the mask (of one flag per logit), the vector returned by
    [get_action_probabilities] of [ReinforcePolicy] and of
    [BaseActorCriticPolicy] is exactly 0 at every forbidden position; with
    every action forbidden it is the zero vector, the NaN of the softmax
    being overwritten by the final [jnp.where]. *)
Theorem get_action_probabilities_zero_where_forbidden :
  (∀ (Obs Params OptState : Type)
     (self : ReinforcePolicy.t Obs Params OptState)
     (model_parameters : Params) (observation : Obs)
     (action_mask : list bool) (logits : list R),
     Network.model_functions (ReinforcePolicy.actor self) model_parameters
       observation = Vec logits →
     length action_mask = length logits → logits ≠ [] →
     ∃ probs,
       ReinforcePolicy.get_action_probabilities self model_parameters
         (Obs3 observation) (Vec action_mask) = Returns (Vec probs)
       ∧ length probs = length action_mask
       ∧ (∀ i, action_mask !! i = Some false → probs !! i = Some (Fin 0))
       ∧ (action_mask = replicate (length logits) false →
          probs = replicate (length logits) (Fin 0)))
  ∧ (∀ (Obs Params OptState : Type)
       (self : BaseActorCriticPolicy.t Obs Params OptState)
       (model_parameters : Params) (observation : Obs)
       (action_mask : list bool) (logits : list R),
       Network.model_functions (BaseActorCriticPolicy.actor self)
         model_parameters observation = Vec logits →
       length action_mask = length logits → logits ≠ [] →
       ∃ probs,
         BaseActorCriticPolicy.get_action_probabilities self model_parameters
           observation (Vec action_mask) = Returns (Vec probs)
         ∧ length probs = length action_mask
         ∧ (∀ i, action_mask !! i = Some false → probs !! i = Some (Fin 0))
         ∧ (action_mask = replicate (length logits) false →
            probs = replicate (length logits) (Fin 0))).
Proof.
  split.
  - intros Obs Params OptState self params obs mask l Hl Hlen Hne.
    exists (row_probabilities (Fin <$> l) mask).
    split; [by apply reinforce_unbatched_probabilities|].
    split; [apply length_row_probabilities_fit; by rewrite length_fmap|].
    split.
    + intros i. apply row_probabilities_forbidden. by rewrite length_fmap.
    + intros ->. apply row_probabilities_all_forbidden.
      by rewrite length_fmap.
  - intros Obs Params OptState self params obs mask l Hl Hlen Hne.
    exists (row_probabilities (Fin <$> l) mask).
    split; [by apply actor_critic_probabilities|].
    split; [apply length_row_probabilities_fit; by rewrite length_fmap|].
    split.
    + intros i. apply row_probabilities_forbidden. by rewrite length_fmap.
    + intros ->. apply row_probabilities_all_forbidden.
      by rewrite length_fmap.
Qed.

Lemma get_action_probabilities_zero_where_forbidden_witness :
  Network.model_functions (ReinforcePolicy.actor Fixtures.reinforce) tt
    [3; 1; 2; 0] = Vec [3; 1; 2; 0]
  ∧ length [false; false; false; false] = length [3; 1; 2; 0]
  ∧ [3; 1; 2; 0] ≠ []
  ∧ ReinforcePolicy.get_action_probabilities Fixtures.reinforce tt
      (Obs3 [3; 1; 2; 0]) (Vec [false; false; false; false])
    = Returns (Vec [Fin 0; Fin 0; Fin 0; Fin 0]).
Proof.
  assert (Hne : [3; 1; 2; 0] ≠ @nil R) by discriminate.
  split; [reflexivity|]. split; [reflexivity|]. split; [exact Hne|].
  destruct (proj1 get_action_probabilities_zero_where_forbidden
              (list R) unit unit Fixtures.reinforce tt [3; 1; 2; 0]
              [false; false; false; false] [3; 1; 2; 0]
              eq_refl eq_refl Hne) as (probs & Hcall & _ & _ & Hzero).
  rewrite Hcall. by rewrite (Hzero eq_refl).
Defined.

(** X5. Under [ReinforcePolicy] and [BaseActorCriticPolicy], with at least
    one allowed action, [sample_action] draws from exactly the masked
    softmax that [get_action_probabilities] returns (multiplying by the mask
    and dividing by the sum change nothing); with every action forbidden the
    probabilities it hands to [jax.random.choice] are all NaN, and it
    still returns the drawn index. *)
Theorem sample_action_draws_from_masked_softmax :
  (∀ (Obs Params OptState Key : Type)
     (choice : Key → list nat → list float → nat)
     (self : ReinforcePolicy.t Obs Params OptState) (key : Key)
     (policy_state : PolicyState Params OptState) (observation : Obs)
     (logits : list R),
     Network.model_functions (ReinforcePolicy.actor self)
       (model_parameters (actor_network_state policy_state)) observation
     = Vec logits →
     logits ≠ [] →
     (∀ mask : list bool,
        length mask = length logits → true ∈ mask →
        Policy.sample_action (H := ReinforcePolicy.policy self) choice key
          policy_state observation mask
        = Returns (choice key (seq 0 (length mask))
                     (Fin <$> masked_softmax mask logits)))
     ∧ Policy.sample_action (H := ReinforcePolicy.policy self) choice key
         policy_state observation (replicate (length logits) false)
       = Returns (choice key (seq 0 (length logits))
                    (replicate (length logits) NaN)))
  ∧ (∀ (Obs Params OptState Key : Type)
       (choice : Key → list nat → list float → nat)
       (self : BaseActorCriticPolicy.t Obs Params OptState) (key : Key)
       (policy_state : PolicyState Params OptState) (observation : Obs)
       (logits : list R),
       Network.model_functions (BaseActorCriticPolicy.actor self)
         (model_parameters (actor_network_state policy_state)) observation
       = Vec logits →
       logits ≠ [] →
       (∀ mask : list bool,
          length mask = length logits → true ∈ mask →
          Policy.sample_action (H := BaseActorCriticPolicy.policy self)
            choice key policy_state observation mask
          = Returns (choice key (seq 0 (length mask))
                       (Fin <$> masked_softmax mask logits)))
       ∧ Policy.sample_action (H := BaseActorCriticPolicy.policy self)
           choice key policy_state observation
           (replicate (length logits) false)
         = Returns (choice key (seq 0 (length logits))
                      (replicate (length logits) NaN))).
Proof.
  split.
  - intros Obs Params OptState Key choice self key st obs l Hl Hne.
    split.
    + intros mask Hlen Hin.
      rewrite (sample_action_renormalizes choice (ReinforcePolicy.policy self)
                 key st obs mask (row_probabilities (Fin <$> l) mask)).
      * rewrite row_probabilities_Fin by done.
        by rewrite renormalized_masked_softmax.
      * by apply reinforce_unbatched_probabilities.
      * apply length_row_probabilities_fit. by rewrite length_fmap.
      * intros ->. by apply elem_of_nil in Hin.
    + rewrite (sample_action_renormalizes choice (ReinforcePolicy.policy self)
                 key st obs (replicate (length l) false)
                 (replicate (length l) (Fin 0))).
      * by rewrite renormalized_zeros, length_replicate.
      * cbn [Policy.get_action_probabilities ReinforcePolicy.policy].
        rewrite (reinforce_unbatched_probabilities self _ obs _ l Hl)
          by (by rewrite ?length_replicate).
        rewrite row_probabilities_all_forbidden by (by rewrite length_fmap).
        reflexivity.
      * by rewrite !length_replicate.
      * by destruct l.
  - intros Obs Params OptState Key choice self key st obs l Hl Hne.
    split.
    + intros mask Hlen Hin.
      rewrite (sample_action_renormalizes choice
                 (BaseActorCriticPolicy.policy self)
                 key st obs mask (row_probabilities (Fin <$> l) mask)).
      * rewrite row_probabilities_Fin by done.
        by rewrite renormalized_masked_softmax.
      * by apply actor_critic_probabilities.
      * apply length_row_probabilities_fit. by rewrite length_fmap.
      * intros ->. by apply elem_of_nil in Hin.
    + rewrite (sample_action_renormalizes choice
                 (BaseActorCriticPolicy.policy self)
                 key st obs (replicate (length l) false)
                 (replicate (length l) (Fin 0))).
      * by rewrite renormalized_zeros, length_replicate.
      * cbn [Policy.get_action_probabilities BaseActorCriticPolicy.policy].
        rewrite (actor_critic_probabilities self _ obs _ l Hl)
          by (by rewrite ?length_replicate).
        rewrite row_probabilities_all_forbidden by (by rewrite length_fmap).
        reflexivity.
      * by rewrite !length_replicate.
      * by destruct l.
Qed.

Lemma sample_action_draws_from_masked_softmax_witness :
  Network.model_functions (ReinforcePolicy.actor Fixtures.reinforce)
    (model_parameters (actor_network_state Fixtures.policy_state))
    [0; 0; 0; 0] = Vec [0; 0; 0; 0]
  ∧ [0; 0; 0; 0] ≠ []
  ∧ length [true; true; false; false] = length [0; 0; 0; 0]
  ∧ true ∈ [true; true; false; false]
  ∧ Policy.sample_action (H := ReinforcePolicy.policy Fixtures.reinforce)
      Fixtures.first_choice tt Fixtures.policy_state [0; 0; 0; 0]
      [true; true; false; false]
    = Returns (Fixtures.first_choice tt (seq 0 4)
                 (Fin <$> masked_softmax [true; true; false; false]
                            [0; 0; 0; 0])).
Proof.
  assert (Hne : [0; 0; 0; 0] ≠ @nil R) by discriminate.
  assert (Hin : true ∈ [true; true; false; false])
    by apply list_elem_of_here.
  split; [reflexivity|]. split; [exact Hne|]. split; [reflexivity|].
  split; [exact Hin|].
  exact (proj1 (proj1 sample_action_draws_from_masked_softmax
                  (list R) unit unit unit Fixtures.first_choice
                  Fixtures.reinforce tt Fixtures.policy_state [0; 0; 0; 0]
                  [0; 0; 0; 0] eq_refl Hne)
           [true; true; false; false] eq_refl Hin).
Defined.

(** ** The uniform policy *)

Lemma rsum_valid_uniform (k : R) (mask : list bool) :
  rsum (valid_entries mask
          ((λ x, x / k) <$> (ReinforcePolicy.b2r <$> mask)))
  = rsum ((λ x, x / k) <$> (ReinforcePolicy.b2r <$> mask)).
Proof.
  unfold rsum. induction mask as [|c mask IH]; [reflexivity|].
  cbn. destruct c; cbn; rewrite IH; [reflexivity|].
  unfold Rdiv. ring.
Qed.

(** X6. With at least one allowed action,
    [RandomPolicy.get_action_probabilities] returns the uniform distribution
    on the allowed actions: [1/k] on each of the [k] allowed actions, exactly
    0 on the others, summing to 1. *)
Theorem random_policy_probabilities_are_uniform :
  ∀ (Obs Params : Type) (model_parameters : Params) (observation : Obs)
    (action_mask : list bool),
    true ∈ action_mask →
    RandomPolicy.get_action_probabilities model_parameters observation
      (Vec action_mask)
    = Returns (Vec (Fin <$> uniform action_mask))
    ∧ is_masked_distribution action_mask (Fin <$> uniform action_mask)
    ∧ (∀ i, action_mask !! i = Some true →
         uniform action_mask !! i = Some (1 / n_valid action_mask))
    ∧ 1 <= n_valid action_mask.
Proof.
  intros Obs Params params obs mask Hin.
  pose proof (n_valid_pos mask Hin) as Hk.
  assert (Hsum : fsum (valid_entries mask (Fin <$> uniform mask)) = Fin 1).
  { rewrite valid_entries_fmap, fsum_Fin. f_equal. unfold uniform.
    rewrite rsum_valid_uniform. by apply rsum_uniform. }
  split; [|split; [|split; [|exact Hk]]].
  - unfold RandomPolicy.get_action_probabilities, div, sum.
    cbn [amap elements binop]. rewrite of_bool_b2r, fsum_Fin.
    fold (n_valid mask). rewrite fdiv_Fin_list by lra. reflexivity.
  - split; [unfold uniform; by rewrite !length_fmap|].
    split.
    { intros i Hi. rewrite list_lookup_fmap.
      by rewrite (uniform_forbidden mask i Hi). }
    split; [exact Hsum|].
    exists 1. split; [exact Hsum|]. rewrite Rminus_diag, Rabs_R0. lra.
  - intros i Hi. unfold uniform. by rewrite !list_lookup_fmap, Hi.
Qed.

Lemma random_policy_probabilities_are_uniform_witness :
  true ∈ [true; false; true; false]
  ∧ RandomPolicy.get_action_probabilities (Obs := unit) tt tt
      (Vec [true; false; true; false])
    = Returns (Vec (Fin <$> uniform [true; false; true; false])).
Proof.
  assert (Hin : true ∈ [true; false; true; false])
    by apply list_elem_of_here.
  split; [exact Hin|].
  exact (proj1 (random_policy_probabilities_are_uniform unit unit tt tt
                  [true; false; true; false] Hin)).
Defined.

(** ** The loss of [ReinforcePolicy] on a well-formed batch *)

Lemma mapM_zip_seq {T A B : Type} (f : nat * A → outcome B) (a : T → A)
    (h : T → B) (steps : list T) (k : nat) :
  (∀ i s, steps !! i = Some s → f ((k + i)%nat, a s) = Returns (h s)) →
  mapM f (zip_with pair (seq k (length steps)) (a <$> steps))
  = Returns (h <$> steps).
Proof.
  revert k. induction steps as [|s steps IH]; intros k Hf; [reflexivity|].
  cbn [length seq fmap list_fmap zip_with mapM].
  rewrite <- (Nat.add_0_r k) at 1. rewrite (Hf 0%nat s eq_refl).
  rewrite (IH (S k)).
  - reflexivity.
  - intros i s' Hi. replace (S k + i)%nat with (k + S i)%nat by lia.
    by apply Hf.
Qed.

Lemma mapM_zip_fmap {T A B C : Type} (f : A * B → outcome C) (a : T → A)
    (b : T → B) (h : T → C) (steps : list T) :
  Forall (λ s, f (a s, b s) = Returns (h s)) steps →
  mapM f (zip (a <$> steps) (b <$> steps)) = Returns (h <$> steps).
Proof.
  induction 1 as [|s rest Hs _ IH]; [reflexivity|].
  cbn [fmap list_fmap zip zip_with mapM]. rewrite Hs.
  cbn [fmap list_fmap zip] in IH. rewrite IH. reflexivity.
Qed.

Lemma mapM_fmap_Returns {T A B : Type} (f : A → outcome B) (g : T → A)
    (h : T → B) (steps : list T) :
  (∀ s, f (g s) = Returns (h s)) →
  mapM f (g <$> steps) = Returns (h <$> steps).
Proof.
  intros Hf. induction steps as [|s rest IH]; [reflexivity|].
  cbn [fmap list_fmap mapM]. rewrite Hf.
  cbn [fmap list_fmap] in IH. rewrite IH. reflexivity.
Qed.

(** [Policy.actions_to_probabilities] evaluates the policy on each row with
    the observation and the mask of that row. *)
Lemma actions_to_probabilities_rows {Obs Params : Type}
    (policy : Policy.t Obs Params) (model_parameters : Params)
    (steps : list (Step Obs)) (row : Step Obs → list float) :
  Forall (λ s,
            Policy.get_action_probabilities model_parameters
              (step_observation s) (Vec (step_action_mask s))
            = Returns (Vec (row s))) steps →
  Policy.actions_to_probabilities (H := policy) model_parameters
    (step_observation <$> steps) (step_action <$> steps)
    (step_action_mask <$> steps)
  = Returns ((λ s, default NaN (row s !! step_action s)) <$> steps).
Proof.
  intros Hrows. unfold Policy.actions_to_probabilities.
  rewrite decide_True by (by rewrite !length_fmap).
  rewrite (mapM_zip_fmap _ step_observation step_action_mask
             (λ s, Vec (row s)) steps Hrows).
  cbn [mbind outcome_bind].
  rewrite (mapM_fmap_Returns _ (λ s, Vec (row s)) row steps) by done.
  cbn [mbind outcome_bind].
  rewrite broadcast_vec_same by (by rewrite !length_fmap).
  by rewrite zip_with_fmap_same.
Qed.

Section ReinforceLoss.
Context {Obs Params OptState : Type}.
Variable self : ReinforcePolicy.t Obs Params OptState.
Variable model_parameters : Params.
Variable first : Step Obs.
Variable rest : list (Step Obs).
Variable logits : list R.
Hypothesis first_logits :
  Network.model_functions (ReinforcePolicy.actor self) model_parameters
    (step_observation first) = Vec logits.
Hypothesis some_action : logits ≠ [].
Hypothesis steps_fit :
  Forall (λ s, length (step_action_mask s) = length logits
               ∧ (step_action s < length logits)%nat) (first :: rest).

Lemma batched_log_probabilities :
  (action_probs ←
     ReinforcePolicy.get_action_probabilities self model_parameters
       (Obs4 (step_observation <$> first :: rest))
       (Mat (step_action_mask <$> first :: rest));
   ReinforcePolicy.take_rows (amap flog action_probs)
     (step_action <$> first :: rest))
  = Returns (log_probability logits <$> first :: rest).
Proof.
  unfold ReinforcePolicy.get_action_probabilities, Network.get_logits.
  rewrite (getitem_fmap step_observation (first :: rest) 0 first eq_refl).
  cbn [mbind outcome_bind].
  rewrite first_logits. cbn [amap].
  rewrite pipeline_mat.
  2:{ by destruct logits. }
  2:{ apply Forall_fmap. eapply Forall_impl; [exact steps_fit|].
      intros s [Hmask _]. cbn. by rewrite length_fmap. }
  cbn [mbind outcome_bind amap ReinforcePolicy.take_rows].
  rewrite broadcast_vec_same by (by rewrite length_seq, !length_fmap).
  cbn [mbind outcome_bind]. rewrite !length_fmap.
  apply (mapM_zip_seq _ step_action (log_probability logits)
           (first :: rest) 0).
  intros i s Hi. cbn [Nat.add fst snd].
  rewrite Forall_lookup in steps_fit.
  destruct (steps_fit i s Hi) as [Hmask Haction].
  rewrite <- !list_fmap_compose.
  rewrite (getitem_fmap _ (first :: rest) i s Hi).
  cbn [mbind outcome_bind compose].
  assert (Hlen : length (row_probabilities (Fin <$> logits)
                           (step_action_mask s)) = length logits).
  { rewrite length_row_probabilities_fit by (by rewrite length_fmap).
    exact Hmask. }
  destruct (lookup_lt_is_Some_2
              (row_probabilities (Fin <$> logits) (step_action_mask s))
              (step_action s)) as [p Hp]; [lia|].
  rewrite (getitem_lookup _ (step_action s) (flog p)).
  - unfold log_probability. by rewrite Hp.
  - by rewrite list_lookup_fmap, Hp.
Qed.

Lemma reinforce_loss_closed_form :
  ReinforcePolicy.compute_loss self model_parameters
    (batch_of (first :: rest))
  = Returns (first_observation_loss (ReinforcePolicy.discount_factor self)
               logits (first :: rest),
             {["Actor loss" :=
                 first_observation_loss
                   (ReinforcePolicy.discount_factor self) logits
                   (first :: rest)]}).
Proof.
  unfold ReinforcePolicy.compute_loss.
  rewrite compute_discounted_returns_discounted
    by (cbn [batch_of reward done]; by rewrite !length_fmap).
  cbn [mbind outcome_bind batch_of observation action action_mask reward
       done].
  pose proof batched_log_probabilities as Hlog.
  destruct (ReinforcePolicy.get_action_probabilities self model_parameters
              (Obs4 (step_observation <$> first :: rest))
              (Mat (step_action_mask <$> first :: rest)))
    as [action_probs|e]; [|discriminate Hlog].
  cbn [mbind outcome_bind] in Hlog |- *. rewrite Hlog.
  cbn [mbind outcome_bind]. unfold mul. cbn [binop].
  rewrite broadcast_vec_same.
  2:{ rewrite !length_fmap, length_discounted by (by rewrite !length_fmap).
      by rewrite length_fmap. }
  reflexivity.
Qed.
End ReinforceLoss.

Lemma spec_reinforce_loss_same_logits {Obs Params OptState : Type}
    (self : ReinforcePolicy.t Obs Params OptState) (model_parameters : Params)
    (logits : list R) (steps : list (Step Obs)) :
  logits ≠ [] →
  Forall (λ s,
            Network.model_functions (ReinforcePolicy.actor self)
              model_parameters (step_observation s) = Vec logits
            ∧ length (step_action_mask s) = length logits
            ∧ (step_action s < length logits)%nat) steps →
  Spec.reinforce_loss self model_parameters (batch_of steps)
  = Returns (first_observation_loss (ReinforcePolicy.discount_factor self)
               logits steps).
Proof.
  intros Hne Hsteps. unfold Spec.reinforce_loss.
  rewrite compute_discounted_returns_discounted
    by (cbn [batch_of reward done]; by rewrite !length_fmap).
  cbn [mbind outcome_bind batch_of observation action action_mask reward
       done].
  rewrite (actions_to_probabilities_rows (ReinforcePolicy.policy self)
             model_parameters steps
             (λ s, row_probabilities (Fin <$> logits) (step_action_mask s))).
  2:{ eapply Forall_impl; [exact Hsteps|].
      intros s (Hl & Hmask & _).
      cbn [Policy.get_action_probabilities ReinforcePolicy.policy].
      by apply reinforce_unbatched_probabilities. }
  cbn [mbind outcome_bind]. unfold mul. cbn [binop].
  rewrite broadcast_vec_same.
  2:{ rewrite !length_fmap, length_discounted by (by rewrite !length_fmap).
      by rewrite length_fmap. }
  cbn [fmap outcome_fmap mbind outcome_bind].
  by rewrite <- list_fmap_compose.
Qed.

Lemma fadd_finite (x y : float) : finite (fadd x y) → finite x ∧ finite y.
Proof.
  intros [r Hr].
  destruct x, y; try discriminate Hr; split; by eexists.
Qed.

Lemma fsum_finite (v : list float) :
  finite (fsum v) → Forall finite v.
Proof.
  unfold fsum. induction v as [|x v IH]; intros Hsum; [constructor|].
  cbn [foldr] in Hsum. apply fadd_finite in Hsum as [Hx Hv].
  constructor; [exact Hx|by apply IH].
Qed.

Lemma scale_inf_not_finite (pos : bool) (a : R) : ¬ finite (scale_inf pos a).
Proof.
  intros [r Hr]. unfold scale_inf in Hr.
  destruct (decide (a = 0)); [discriminate|].
  destruct (Rlt_dec 0 a), pos; discriminate.
Qed.

Lemma fdiv_finite (x : float) (b : R) :
  finite (fdiv x (Fin b)) → finite x.
Proof.
  intros [r Hr]. destruct x; [by eexists|..]; cbn in Hr;
    try discriminate; destruct (Rlt_dec b 0); discriminate.
Qed.

Lemma fneg_finite (x : float) : finite (fneg x) → finite x.
Proof. intros [r Hr]. destruct x; try discriminate. by eexists. Qed.

Lemma fmul_NInf_not_finite (g : R) : ¬ finite (fmul (Fin g) NInf).
Proof. cbn. apply scale_inf_not_finite. Qed.

Lemma log_probability_forbidden {Obs : Type} (logits : list R)
    (s : Step Obs) :
  length (step_action_mask s) = length logits →
  step_action_mask s !! step_action s = Some false →
  log_probability logits s = NInf.
Proof.
  intros Hlen Hforbidden. unfold log_probability.
  rewrite row_probabilities_forbidden
    by (rewrite ?length_fmap; done).
  cbn. destruct (Rlt_dec 0 0) as [Hlt|_]; [lra|].
  by rewrite decide_True.
Qed.

Lemma first_observation_loss_not_finite {Obs : Type} (discount_factor : R)
    (logits : list R) (steps : list (Step Obs)) (s : Step Obs) :
  s ∈ steps →
  length (step_action_mask s) = length logits →
  step_action_mask s !! step_action s = Some false →
  ¬ finite (first_observation_loss discount_factor logits steps).
Proof.
  intros Hin Hlen Hforbidden Hfinite.
  unfold first_observation_loss, mean, sum in Hfinite.
  apply fneg_finite, fdiv_finite, fsum_finite in Hfinite.
  cbn [elements] in Hfinite.
  apply list_elem_of_lookup in Hin as [i Hi].
  assert (Hlen' : length (discounted discount_factor (step_reward <$> steps)
                            (step_done <$> steps)) = length steps).
  { rewrite length_discounted by (by rewrite !length_fmap).
    by rewrite length_fmap. }
  destruct (lookup_lt_is_Some_2
              (discounted discount_factor (step_reward <$> steps)
                 (step_done <$> steps)) i) as [g Hg].
  { rewrite Hlen'. eapply lookup_lt_Some; eauto. }
  rewrite Forall_lookup in Hfinite.
  apply (fmul_NInf_not_finite g).
  apply (Hfinite i).
  rewrite lookup_zip_with, !list_lookup_fmap, Hg, Hi.
  cbn [fmap option_fmap option_map mbind option_bind].
  by rewrite log_probability_forbidden.
Qed.

(** X7. On a batch in which every mask row has one flag per logit of the
    first observation and every action is in range,
    [ReinforcePolicy.compute_loss] returns the negative mean of
    [G[i] * log p_i], where [G] are the discounted returns and [p_i] is the
    masked softmax of the logits of the first observation under the mask of
    row [i], at the action of row [i]; the dictionary holds this loss under
    ["Actor loss"]. *)
Theorem reinforce_loss_on_well_formed_batch :
  ∀ (Obs Params OptState : Type)
    (self : ReinforcePolicy.t Obs Params OptState) (model_parameters : Params)
    (first : Step Obs) (rest : list (Step Obs)) (logits : list R),
    Network.model_functions (ReinforcePolicy.actor self) model_parameters
      (step_observation first) = Vec logits →
    logits ≠ [] →
    Forall (λ s, length (step_action_mask s) = length logits
                 ∧ (step_action s < length logits)%nat) (first :: rest) →
    ReinforcePolicy.compute_loss self model_parameters
      (batch_of (first :: rest))
    = Returns (first_observation_loss (ReinforcePolicy.discount_factor self)
                 logits (first :: rest),
               {["Actor loss" :=
                   first_observation_loss
                     (ReinforcePolicy.discount_factor self) logits
                     (first :: rest)]}).
Proof.
  intros Obs Params OptState self params first rest logits Hl Hne Hfit.
  by apply reinforce_loss_closed_form.
Qed.

(** X8. When every observation of the batch has the logits of the first
    one (a batch of one transition, or of one repeated state), the loss of
    [ReinforcePolicy.compute_loss] is the negative mean of
    [G[i] * log pi(a_i | s_i)] with the probabilities selected per example
    as in [Policy.actions_to_probabilities]. *)
Theorem reinforce_loss_is_per_example_on_equal_logits :
  ∀ (Obs Params OptState : Type)
    (self : ReinforcePolicy.t Obs Params OptState) (model_parameters : Params)
    (first : Step Obs) (rest : list (Step Obs)) (logits : list R),
    logits ≠ [] →
    Forall (λ s,
              Network.model_functions (ReinforcePolicy.actor self)
                model_parameters (step_observation s) = Vec logits
              ∧ length (step_action_mask s) = length logits
              ∧ (step_action s < length logits)%nat) (first :: rest) →
    fst <$> ReinforcePolicy.compute_loss self model_parameters
              (batch_of (first :: rest))
    = Spec.reinforce_loss self model_parameters (batch_of (first :: rest)).
Proof.
  intros Obs Params OptState self params first rest logits Hne Hsteps.
  rewrite (spec_reinforce_loss_same_logits self params logits) by done.
  rewrite (reinforce_loss_closed_form self params first rest logits).
  - reflexivity.
  - by apply Forall_cons_1 in Hsteps as [[? _] _].
  - done.
  - eapply Forall_impl; [exact Hsteps|]. by intros s (_ & ? & ?).
Qed.

(** X9. If some row of such a batch took an action that its mask forbids,
    the loss of [ReinforcePolicy.compute_loss] is not a finite number: the
    probability of that action is exactly 0, its logarithm is [-inf], and the
    mean is infinite or NaN. *)
Theorem reinforce_loss_not_finite_on_forbidden_action :
  ∀ (Obs Params OptState : Type)
    (self : ReinforcePolicy.t Obs Params OptState) (model_parameters : Params)
    (first : Step Obs) (rest : list (Step Obs)) (logits : list R)
    (s : Step Obs),
    Network.model_functions (ReinforcePolicy.actor self) model_parameters
      (step_observation first) = Vec logits →
    logits ≠ [] →
    Forall (λ s, length (step_action_mask s) = length logits
                 ∧ (step_action s < length logits)%nat) (first :: rest) →
    s ∈ first :: rest →
    step_action_mask s !! step_action s = Some false →
    ∃ loss metrics,
      ReinforcePolicy.compute_loss self model_parameters
        (batch_of (first :: rest)) = Returns (loss, metrics)
      ∧ ¬ finite loss.
Proof.
  intros Obs Params OptState self params first rest logits s Hl Hne Hfit
    Hin Hforbidden.
  eexists _, _. split; [by apply reinforce_loss_closed_form|].
  apply (first_observation_loss_not_finite _ _ _ s); [done| |done].
  rewrite Forall_forall in Hfit. by apply Hfit.
Qed.

Lemma reinforce_loss_on_well_formed_batch_witness :
  Network.model_functions (ReinforcePolicy.actor Fixtures.reinforce) tt
    [0; 0; 0; 0] = Vec [0; 0; 0; 0]
  ∧ [0; 0; 0; 0] ≠ []
  ∧ Forall (λ s : Step (list R),
              length (step_action_mask s) = length [0; 0; 0; 0]
              ∧ (step_action s < length [0; 0; 0; 0])%nat) same_state_steps
  ∧ ReinforcePolicy.compute_loss Fixtures.reinforce tt
      (batch_of same_state_steps)
    = Returns (first_observation_loss 1 [0; 0; 0; 0] same_state_steps,
               {["Actor loss" :=
                   first_observation_loss 1 [0; 0; 0; 0] same_state_steps]}).
Proof.
  assert (Hne : [0; 0; 0; 0] ≠ @nil R) by discriminate.
  assert (Hfit : Forall (λ s : Step (list R),
                           length (step_action_mask s) = length [0; 0; 0; 0]
                           ∧ (step_action s < length [0; 0; 0; 0])%nat)
                   same_state_steps).
  { constructor; [split; [reflexivity|cbn; lia]|].
    constructor; [split; [reflexivity|cbn; lia]|]. constructor. }
  split; [reflexivity|]. split; [exact Hne|]. split; [exact Hfit|].
  exact (reinforce_loss_on_well_formed_batch (list R) unit unit
           Fixtures.reinforce tt step_a [step_b] [0; 0; 0; 0] eq_refl Hne
           Hfit).
Defined.

Lemma reinforce_loss_is_per_example_on_equal_logits_witness :
  [0; 0; 0; 0] ≠ []
  ∧ Forall (λ s : Step (list R),
              Network.model_functions
                (ReinforcePolicy.actor Fixtures.reinforce) tt
                (step_observation s) = Vec [0; 0; 0; 0]
              ∧ length (step_action_mask s) = length [0; 0; 0; 0]
              ∧ (step_action s < length [0; 0; 0; 0])%nat) same_state_steps
  ∧ fst <$> ReinforcePolicy.compute_loss Fixtures.reinforce tt
              (batch_of same_state_steps)
    = Spec.reinforce_loss Fixtures.reinforce tt (batch_of same_state_steps).
Proof.
  assert (Hne : [0; 0; 0; 0] ≠ @nil R) by discriminate.
  assert (Hfit : Forall (λ s : Step (list R),
                           Network.model_functions
                             (ReinforcePolicy.actor Fixtures.reinforce) tt
                             (step_observation s) = Vec [0; 0; 0; 0]
                           ∧ length (step_action_mask s)
                             = length [0; 0; 0; 0]
                           ∧ (step_action s < length [0; 0; 0; 0])%nat)
                   same_state_steps).
  { constructor; [split; [reflexivity|split; [reflexivity|cbn; lia]]|].
    constructor; [split; [reflexivity|split; [reflexivity|cbn; lia]]|].
    constructor. }
  split; [exact Hne|]. split; [exact Hfit|].
  exact (reinforce_loss_is_per_example_on_equal_logits (list R) unit unit
           Fixtures.reinforce tt step_a [step_b] [0; 0; 0; 0] Hne Hfit).
Defined.

Lemma reinforce_loss_not_finite_on_forbidden_action_witness :
  Network.model_functions (ReinforcePolicy.actor Fixtures.reinforce) tt
    [0; 0; 0; 0] = Vec [0; 0; 0; 0]
  ∧ [0; 0; 0; 0] ≠ []
  ∧ Forall (λ s : Step (list R),
              length (step_action_mask s) = length [0; 0; 0; 0]
              ∧ (step_action s < length [0; 0; 0; 0])%nat) forbidden_step
  ∧ [true; true; false; false] !! 2%nat = Some false
  ∧ ∃ loss metrics,
      ReinforcePolicy.compute_loss Fixtures.reinforce tt
        (batch_of forbidden_step) = Returns (loss, metrics)
      ∧ ¬ finite loss.
Proof.
  assert (Hne : [0; 0; 0; 0] ≠ @nil R) by discriminate.
  assert (Hfit : Forall (λ s : Step (list R),
                           length (step_action_mask s) = length [0; 0; 0; 0]
                           ∧ (step_action s < length [0; 0; 0; 0])%nat)
                   forbidden_step).
  { constructor; [split; [reflexivity|cbn; lia]|]. constructor. }
  split; [reflexivity|]. split; [exact Hne|]. split; [exact Hfit|].
  split; [reflexivity|].
  exact (reinforce_loss_not_finite_on_forbidden_action (list R) unit unit
           Fixtures.reinforce tt step_forbidden [] [0; 0; 0; 0]
           step_forbidden eq_refl Hne Hfit (list_elem_of_here _ _) eq_refl).
Defined.

(** ** The batched call of [ReinforcePolicy.get_action_probabilities] *)

(** C10. Called with a batch of observations and a batch of mask rows,
    [ReinforcePolicy.get_action_probabilities] computes the logits of the
    first observation only and broadcasts them against every mask row: row
    [i] of its result is the masked softmax of the logits of the first
    observation under mask row [i] (the zero vector when that row permits
    nothing), which is what the unbatched call gives for the first
    observation and mask row [i].  Hence the loss of
    [ReinforcePolicy.compute_loss] is the negative mean of [G[i] * log p_i]
    with every [p_i] taken from the logits of the first observation, and it
    does not depend on any observation of the batch but the first. *)
Theorem reinforce_batched_probabilities_use_first_observation :
  (∀ (Obs Params OptState : Type)
     (self : ReinforcePolicy.t Obs Params OptState)
     (model_parameters : Params) (first : Obs) (rest : list Obs)
     (masks : list (list bool)) (logits : list R),
     Network.model_functions (ReinforcePolicy.actor self)
       model_parameters first = Vec logits →
     logits ≠ [] →
     Forall (λ row, length row = length logits) masks →
     ReinforcePolicy.get_action_probabilities self model_parameters
       (Obs4 (first :: rest)) (Mat masks)
     = Returns (Mat (row_probabilities (Fin <$> logits) <$> masks))
     ∧ ∀ mask, mask ∈ masks →
         ReinforcePolicy.get_action_probabilities self model_parameters
           (Obs3 first) (Vec mask)
         = Returns (Vec (row_probabilities (Fin <$> logits) mask))
         ∧ (true ∈ mask →
            row_probabilities (Fin <$> logits) mask
            = Fin <$> masked_softmax mask logits)
         ∧ (true ∉ mask →
            row_probabilities (Fin <$> logits) mask
            = replicate (length logits) (Fin 0)))
  ∧ (∀ (Obs Params OptState : Type)
       (self : ReinforcePolicy.t Obs Params OptState)
       (model_parameters : Params) (first : Step Obs)
       (rest : list (Step Obs)) (logits : list R),
       Network.model_functions (ReinforcePolicy.actor self) model_parameters
         (step_observation first) = Vec logits →
       logits ≠ [] →
       Forall (λ s, length (step_action_mask s) = length logits
                    ∧ (step_action s < length logits)%nat) (first :: rest) →
       ReinforcePolicy.compute_loss self model_parameters
         (batch_of (first :: rest))
       = Returns (first_observation_loss
                    (ReinforcePolicy.discount_factor self) logits
                    (first :: rest),
                  {["Actor loss" :=
                      first_observation_loss
                        (ReinforcePolicy.discount_factor self) logits
                        (first :: rest)]}))
  ∧ (∀ (Obs Params OptState : Type)
       (self : ReinforcePolicy.t Obs Params OptState)
       (model_parameters : Params) (observations observations' : list Obs)
       (actions : list nat) (masks : list (list bool)) (rewards : list R)
       (dones : list bool) (next next' : list Obs),
       head observations = head observations' →
       ReinforcePolicy.compute_loss self model_parameters
         {| observation := observations; action := actions;
            action_mask := masks; reward := rewards; done := dones;
            next_observation := next |}
       = ReinforcePolicy.compute_loss self model_parameters
           {| observation := observations'; action := actions;
              action_mask := masks; reward := rewards; done := dones;
              next_observation := next' |}).
Proof.
  split; [|split].
  - intros Obs Params OptState self params first rest masks l Hl Hne Hrows.
    assert (Hne' : Fin <$> l ≠ []) by (by destruct l).
    assert (Hrows' : Forall (λ row, length row = length (Fin <$> l)) masks)
      by (by rewrite length_fmap).
    split.
    { unfold ReinforcePolicy.get_action_probabilities, Network.get_logits.
      cbn [getitem length pred Nat.min lookup list_lookup mbind outcome_bind].
      rewrite Hl. cbn [amap]. by apply pipeline_mat. }
    intros mask Hmask.
    rewrite Forall_forall in Hrows. specialize (Hrows mask Hmask).
    split; [by apply reinforce_unbatched_probabilities|].
    split; [intros Hin; by apply row_probabilities_Fin|].
    intros Hnone.
    assert (Hfalse : mask = replicate (length l) false).
    { rewrite <- Hrows. clear Hrows Hmask.
      induction mask as [|[|] mask IH]; [reflexivity| |].
      - exfalso. apply Hnone. apply list_elem_of_here.
      - cbn. f_equal. apply IH. intros Hin. apply Hnone.
        by apply list_elem_of_further. }
    rewrite Hfalse at 1. apply row_probabilities_all_forbidden.
    by rewrite length_fmap.
  - intros Obs Params OptState self params first rest l Hl Hne Hfit.
    by apply reinforce_loss_closed_form.
  - intros Obs Params OptState self params observations observations'
      actions masks rewards dones next next' Hhead.
    unfold ReinforcePolicy.compute_loss,
      ReinforcePolicy.compute_discounted_returns,
      ReinforcePolicy.get_action_probabilities.
    cbn [observation action action_mask reward done].
    by rewrite !getitem_0, Hhead.
Qed.

Lemma reinforce_batched_probabilities_use_first_observation_witness :
  Network.model_functions (ReinforcePolicy.actor Fixtures.reinforce) tt
    [0; 0; 0; 0] = Vec [0; 0; 0; 0]
  ∧ [0; 0; 0; 0] ≠ []
  ∧ Forall (λ row : list bool, length row = length [0; 0; 0; 0])
      (action_mask Fixtures.two_states)
  ∧ head (observation Fixtures.two_states)
    = head [[0; 0; 0; 0]; [5; 5; 5; 5]]
  ∧ ReinforcePolicy.get_action_probabilities Fixtures.reinforce tt
      (Obs4 (observation Fixtures.two_states))
      (Mat (action_mask Fixtures.two_states))
    = Returns (Mat (row_probabilities (Fin <$> [0; 0; 0; 0])
                    <$> action_mask Fixtures.two_states))
  ∧ ReinforcePolicy.compute_loss Fixtures.reinforce tt Fixtures.two_states
    = ReinforcePolicy.compute_loss Fixtures.reinforce tt
        {| observation := [[0; 0; 0; 0]; [5; 5; 5; 5]];
           action := action Fixtures.two_states;
           action_mask := action_mask Fixtures.two_states;
           reward := reward Fixtures.two_states;
           done := done Fixtures.two_states;
           next_observation := [] |}.
Proof.
  assert (Hne : [0; 0; 0; 0] ≠ @nil R) by discriminate.
  assert (Hrows : Forall (λ row : list bool, length row = length [0; 0; 0; 0])
                    (action_mask Fixtures.two_states))
    by (repeat constructor).
  split; [reflexivity|]. split; [exact Hne|]. split; [exact Hrows|].
  split; [reflexivity|]. split.
  - exact (proj1 (proj1 reinforce_batched_probabilities_use_first_observation
                    (list R) unit unit Fixtures.reinforce tt [0; 0; 0; 0]
                    [[1; 0; 0; 0]] (action_mask Fixtures.two_states)
                    [0; 0; 0; 0] eq_refl Hne Hrows)).
  - exact (proj2 (proj2 reinforce_batched_probabilities_use_first_observation)
             (list R) unit unit Fixtures.reinforce tt
             (observation Fixtures.two_states)
             [[0; 0; 0; 0]; [5; 5; 5; 5]]
             (action Fixtures.two_states) (action_mask Fixtures.two_states)
             (reward Fixtures.two_states) (done Fixtures.two_states)
             (next_observation Fixtures.two_states) [] eq_refl).
Defined.

(** ** Per-example probabilities *)

(** X10. On a batch whose rows fit the action set,
    [Policy.actions_to_probabilities] returns, for each row, the probability
    that the masked softmax of the logits of that row's own observation,
    under that row's mask, gives to that row's action -- under
    [ReinforcePolicy] and under [BaseActorCriticPolicy].  The scan of
    [ActorCriticPolicy.compute_loss] computes the logarithms of the same
    numbers. *)
Theorem actions_to_probabilities_are_per_example :
  (∀ (Obs Params OptState : Type)
     (self : ReinforcePolicy.t Obs Params OptState)
     (model_parameters : Params) (logits : Obs → list R) (n_actions : nat)
     (steps : list (Step Obs)),
     n_actions ≠ 0%nat →
     Forall (λ s,
               Network.model_functions (ReinforcePolicy.actor self)
                 model_parameters (step_observation s)
               = Vec (logits (step_observation s))
               ∧ length (logits (step_observation s)) = n_actions
               ∧ length (step_action_mask s) = n_actions
               ∧ (step_action s < n_actions)%nat) steps →
     Policy.actions_to_probabilities (H := ReinforcePolicy.policy self)
       model_parameters (step_observation <$> steps) (step_action <$> steps)
       (step_action_mask <$> steps)
     = Returns (taken_probability logits <$> steps))
  ∧ (∀ (Obs Params OptState : Type)
       (self : BaseActorCriticPolicy.t Obs Params OptState)
       (model_parameters : Params) (logits : Obs → list R) (n_actions : nat)
       (steps : list (Step Obs)),
       n_actions ≠ 0%nat → steps ≠ [] →
       Forall (fits self model_parameters n_actions logits) steps →
       Policy.actions_to_probabilities
         (H := BaseActorCriticPolicy.policy self)
         model_parameters (step_observation <$> steps)
         (step_action <$> steps) (step_action_mask <$> steps)
       = Returns (taken_probability logits <$> steps)
       ∧ ActorCriticPolicy.scan
           (ActorCriticPolicy.compute_log_prob self model_parameters
              (step_observation <$> steps) (step_action <$> steps)
              (step_action_mask <$> steps))
           (seq 0 (length (step_observation <$> steps)))
         = Returns (flog <$> (taken_probability logits <$> steps))).
Proof.
  split.
  - intros Obs Params OptState self params logits n steps Hn Hsteps.
    apply (actions_to_probabilities_rows (ReinforcePolicy.policy self) params
             steps
             (λ s, row_probabilities (Fin <$> logits (step_observation s))
                     (step_action_mask s))).
    eapply Forall_impl; [exact Hsteps|].
    intros s (Hl & Hlen & Hmask & _).
    cbn [Policy.get_action_probabilities ReinforcePolicy.policy].
    apply reinforce_unbatched_probabilities; [done|congruence|].
    destruct (logits (step_observation s)); [cbn in Hlen; congruence|done].
  - intros Obs Params OptState self params logits n steps Hn Hne Hsteps.
    split.
    + by apply (spec_probabilities self params n logits Hn steps).
    + rewrite <- list_fmap_compose.
      by apply (scan_log_probabilities self params n logits Hn steps).
Qed.

Lemma actions_to_probabilities_are_per_example_witness :
  (4 ≠ 0)%nat
  ∧ same_state_steps ≠ []
  ∧ Forall (fits Fixtures.actor_critic tt 4 (λ o, o)) same_state_steps
  ∧ Policy.actions_to_probabilities
      (H := BaseActorCriticPolicy.policy Fixtures.actor_critic) tt
      (step_observation <$> same_state_steps)
      (step_action <$> same_state_steps)
      (step_action_mask <$> same_state_steps)
    = Returns (taken_probability (λ o, o) <$> same_state_steps).
Proof.
  assert (Hn : (4 ≠ 0)%nat) by lia.
  assert (Hne : same_state_steps ≠ []) by discriminate.
  assert (Hfit : Forall (fits Fixtures.actor_critic tt 4 (λ o, o))
                   same_state_steps).
  { constructor;
      [split; [reflexivity|split; [reflexivity|split;
         [reflexivity|cbn; lia]]]|].
    constructor;
      [split; [reflexivity|split; [reflexivity|split;
         [reflexivity|cbn; lia]]]|].
    constructor. }
  split; [exact Hn|]. split; [exact Hne|]. split; [exact Hfit|].
  exact (proj1 (proj2 actions_to_probabilities_are_per_example
                  (list R) unit unit Fixtures.actor_critic tt (λ o, o) 4%nat
                  same_state_steps Hn Hne Hfit)).
Defined.

(** ** Actor-critic with a 0-d critic *)

(** X11. When the critic returns a 0-d scalar for every observation and the
    rows of a non-empty batch fit the action set, the loss of
    [ActorCriticPolicy.compute_loss] is the per-example one:
    [target = r + gamma * V(s') * (1 - done)], actor loss
    [- mean (log pi(a|s) * (target - V(s)))], critic loss
    [1/2 * mean ((V(s) - target)^2)], and their sum. *)
Theorem actor_critic_loss_with_scalar_critic :
  ∀ (Obs Params OptState : Type)
    (self : BaseActorCriticPolicy.t Obs Params OptState)
    (actor_parameters critic_parameters : Params) (n_actions : nat)
    (logits : Obs → list R) (V : Obs → R) (steps : list (Step Obs)),
    n_actions ≠ 0%nat →
    (∀ o, Network.model_functions (BaseActorCriticPolicy.critic self)
            critic_parameters o = Scalar (V o)) →
    steps ≠ [] →
    Forall (fits self actor_parameters n_actions logits) steps →
    fst <$> ActorCriticPolicy.compute_loss self
              (actor_parameters, critic_parameters) (batch_of steps)
    = Spec.actor_critic_loss self (actor_parameters, critic_parameters)
        (batch_of steps).
Proof.
  intros Obs Params OptState self ap cp n logits V steps Hn Hcritic Hne Hfit.
  by apply (scalar_critic_loss self ap cp n logits V).
Qed.

Lemma actor_critic_loss_with_scalar_critic_witness :
  (4 ≠ 0)%nat
  ∧ (∀ o, Network.model_functions
            (BaseActorCriticPolicy.critic Fixtures.actor_scalar_critic) tt o
          = Scalar (default 0 (head o)))
  ∧ same_state_steps ≠ []
  ∧ Forall (fits Fixtures.actor_scalar_critic tt 4 (λ o, o))
      same_state_steps
  ∧ fst <$> ActorCriticPolicy.compute_loss Fixtures.actor_scalar_critic
              (tt, tt) (batch_of same_state_steps)
    = Spec.actor_critic_loss Fixtures.actor_scalar_critic (tt, tt)
        (batch_of same_state_steps).
Proof.
  assert (Hn : (4 ≠ 0)%nat) by lia.
  assert (Hcritic : ∀ o, Network.model_functions
            (BaseActorCriticPolicy.critic Fixtures.actor_scalar_critic) tt o
          = Scalar (default 0 (head o))) by reflexivity.
  assert (Hne : same_state_steps ≠ []) by discriminate.
  assert (Hfit : Forall (fits Fixtures.actor_scalar_critic tt 4 (λ o, o))
                   same_state_steps).
  { constructor;
      [split; [reflexivity|split; [reflexivity|split;
         [reflexivity|cbn; lia]]]|].
    constructor;
      [split; [reflexivity|split; [reflexivity|split;
         [reflexivity|cbn; lia]]]|].
    constructor. }
  split; [exact Hn|]. split; [exact Hcritic|]. split; [exact Hne|].
  split; [exact Hfit|].
  exact (actor_critic_loss_with_scalar_critic (list R) unit unit
           Fixtures.actor_scalar_critic tt tt 4%nat (λ o, o)
           (λ o, default 0 (head o)) same_state_steps Hn Hcritic Hne Hfit).
Defined.

(** ** Broadcasting a column of shape [B, 1] against vectors and grids *)

Section Grids.
Context {T : Type}.
Variable steps : list T.

Lemma stack_vectors {A : Type} (a : T → A) :
  steps ≠ [] →
  stack ((λ s, Vec [a s]) <$> steps) = Returns (Mat (column a steps)).
Proof.
  intros Hne.
  assert (Hmap : ∀ l : list T,
    mapM (λ x : array A, match x with
                         | Vec v => Returns v
                         | _ => Raises ValueError
                         end) ((λ s, Vec [a s]) <$> l)
    = Returns (column a l)).
  { intros l. by apply mapM_fmap_Returns. }
  destruct steps as [|x rest]; [done|].
  specialize (Hmap (x :: rest)). cbn [fmap list_fmap] in Hmap.
  cbn [fmap list_fmap stack]. by rewrite Hmap.
Qed.

Lemma binop_column_vec {A B C : Type} (f : A → B → C) (a : T → A)
    (b : T → B) :
  binop f (Mat (column a steps)) (Vec (b <$> steps))
  = Returns (Mat (outer (λ si sj, f (a si) (b sj)) steps)).
Proof.
  cbn [binop]. rewrite broadcast_mat_row. unfold column, outer.
  rewrite (mapM_fmap_Returns _ _ (λ si, (λ sj, f (a si) (b sj)) <$> steps));
    [reflexivity|].
  intros s. rewrite broadcast_vec_singleton_l.
  by rewrite <- list_fmap_compose.
Qed.

Lemma binop_vec_column {A B C : Type} (f : A → B → C) (b : T → A)
    (a : T → B) :
  binop f (Vec (b <$> steps)) (Mat (column a steps))
  = Returns (Mat (outer (λ si sj, f (b sj) (a si)) steps)).
Proof.
  cbn [binop]. rewrite broadcast_row_mat. unfold column, outer.
  rewrite (mapM_fmap_Returns _ _ (λ si, (λ sj, f (b sj) (a si)) <$> steps));
    [reflexivity|].
  intros s. rewrite broadcast_vec_singleton_r.
  by rewrite <- list_fmap_compose.
Qed.

Lemma binop_scalar_outer {A B C : Type} (f : A → B → C) (x : A)
    (g : T → T → B) :
  binop f (Scalar x) (Mat (outer g steps))
  = Returns (Mat (outer (λ si sj, f x (g si sj)) steps)).
Proof.
  cbn [binop amap]. unfold outer. rewrite <- list_fmap_compose.
  do 2 f_equal. apply list_fmap_ext. intros i s _. cbn.
  by rewrite <- list_fmap_compose.
Qed.

Lemma binop_scalar_column {A B C : Type} (f : A → B → C) (x : A)
    (a : T → B) :
  binop f (Scalar x) (Mat (column a steps))
  = Returns (Mat (column (λ s, f x (a s)) steps)).
Proof.
  cbn [binop amap]. unfold column. by rewrite <- list_fmap_compose.
Qed.

Lemma binop_vec_outer {A B C : Type} (f : A → B → C) (b : T → A)
    (g : T → T → B) :
  binop f (Vec (b <$> steps)) (Mat (outer g steps))
  = Returns (Mat (outer (λ si sj, f (b sj) (g si sj)) steps)).
Proof.
  cbn [binop]. rewrite broadcast_row_mat. unfold outer.
  rewrite (mapM_fmap_Returns _ _
             (λ si, (λ sj, f (b sj) (g si sj)) <$> steps));
    [reflexivity|].
  intros s. rewrite broadcast_vec_same by (by rewrite !length_fmap).
  by rewrite zip_with_fmap_same.
Qed.

Lemma binop_outer_column {A B C : Type} (f : A → B → C) (g : T → T → A)
    (a : T → B) :
  binop f (Mat (outer g steps)) (Mat (column a steps))
  = Returns (Mat (outer (λ si sj, f (g si sj) (a si)) steps)).
Proof.
  cbn [binop]. unfold outer, column.
  rewrite broadcast_mat_same by (by rewrite !length_fmap).
  rewrite (mapM_zip_fmap _ _ _
             (λ si, (λ sj, f (g si sj) (a si)) <$> steps));
    [reflexivity|].
  apply Forall_forall. intros s _. cbn [fst snd].
  rewrite broadcast_vec_singleton_r. by rewrite <- list_fmap_compose.
Qed.

Lemma binop_column_outer {A B C : Type} (f : A → B → C) (a : T → A)
    (g : T → T → B) :
  binop f (Mat (column a steps)) (Mat (outer g steps))
  = Returns (Mat (outer (λ si sj, f (a si) (g si sj)) steps)).
Proof.
  cbn [binop]. unfold outer, column.
  rewrite broadcast_mat_same by (by rewrite !length_fmap).
  rewrite (mapM_zip_fmap _ _ _
             (λ si, (λ sj, f (a si) (g si sj)) <$> steps));
    [reflexivity|].
  apply Forall_forall. intros s _. cbn [fst snd].
  rewrite broadcast_vec_singleton_l. by rewrite <- list_fmap_compose.
Qed.

Lemma amap_outer {A B : Type} (h : A → B) (g : T → T → A) :
  amap h (Mat (outer g steps)) = Mat (outer (λ si sj, h (g si sj)) steps).
Proof.
  cbn [amap]. unfold outer. rewrite <- list_fmap_compose. f_equal.
  apply list_fmap_ext. intros i s _. cbn.
  by rewrite <- list_fmap_compose.
Qed.

Lemma outer_ext {A : Type} (g g' : T → T → A) :
  (∀ si sj, g si sj = g' si sj) → outer g steps = outer g' steps.
Proof.
  intros Hg. unfold outer. apply list_fmap_ext. intros i si _.
  apply list_fmap_ext. intros j sj _. apply Hg.
Qed.
End Grids.

Lemma actor_entry (p : float) (r discount_factor v' v : R) (d : bool) :
  fmul p
    (fsub (fadd (Fin r)
             (fmul (Fin discount_factor)
                (fmul (Fin v') (fsub (Fin 1) (of_bool d)))))
       (Fin v))
  = fmul p (Fin (r + discount_factor * v' * (1 - ReinforcePolicy.b2r d) - v)).
Proof. destruct d; cbn; do 2 f_equal; ring. Qed.

Lemma critic_entry (r discount_factor v' v : R) (d : bool) :
  fmul
    (fsub (Fin v)
       (fadd (Fin r)
          (fmul (fmul (Fin discount_factor) (Fin v'))
             (fsub (Fin 1) (of_bool d)))))
    (fsub (Fin v)
       (fadd (Fin r)
          (fmul (fmul (Fin discount_factor) (Fin v'))
             (fsub (Fin 1) (of_bool d)))))
  = Fin ((v - (r + discount_factor * v' * (1 - ReinforcePolicy.b2r d)))
         * (v - (r + discount_factor * v' * (1 - ReinforcePolicy.b2r d)))).
Proof. destruct d; cbn; f_equal; ring. Qed.

Section VectorCritic.
Context {Obs Params OptState : Type}.
Variable self : BaseActorCriticPolicy.t Obs Params OptState.
Variables actor_parameters critic_parameters : Params.
Variable n_actions : nat.
Variable logits : Obs → list R.
Variable V : Obs → R.
Hypothesis some_action : n_actions ≠ 0%nat.
Hypothesis critic_shape : ∀ o,
  Network.model_functions (BaseActorCriticPolicy.critic self)
    critic_parameters o = Vec [V o].
Variable steps : list (Step Obs).
Hypothesis steps_nonempty : steps ≠ [].
Hypothesis steps_well_formed :
  Forall (fits self actor_parameters n_actions logits) steps.

Lemma batch_value_column (g : Step Obs → Obs) :
  Network.get_batch_logits (BaseActorCriticPolicy.critic self)
    critic_parameters (g <$> steps)
  = Returns (Mat (column (λ s, Fin (V (g s))) steps)).
Proof.
  unfold Network.get_batch_logits, Network.get_logits.
  rewrite <- list_fmap_compose.
  rewrite (list_fmap_ext _ (λ s, Vec [Fin (V (g s))]) steps);
    [by apply stack_vectors|].
  intros i s _. cbn. by rewrite critic_shape.
Qed.

Lemma vector_critic_loss :
  ActorCriticPolicy.compute_loss self (actor_parameters, critic_parameters)
    (batch_of steps)
  = Returns
      (fadd
         (pairwise_actor_loss (BaseActorCriticPolicy.discount_factor self)
            logits V steps)
         (pairwise_critic_loss (BaseActorCriticPolicy.discount_factor self)
            V steps),
       <["Critic loss" :=
           pairwise_critic_loss (BaseActorCriticPolicy.discount_factor self)
             V steps]>
         {["Actor loss" :=
             pairwise_actor_loss (BaseActorCriticPolicy.discount_factor self)
               logits V steps]}).
Proof.
  unfold ActorCriticPolicy.compute_loss, ActorCriticPolicy.stop_gradient.
  cbn [batch_of observation action action_mask reward done
       next_observation].
  rewrite !batch_value_column.
  rewrite (scan_log_probabilities self actor_parameters n_actions logits
             some_action steps steps_nonempty steps_well_formed).
  cbn [mbind outcome_bind].
  rewrite <- !list_fmap_compose.
  unfold add, sub, mul.
  repeat (first [ rewrite binop_scalar_fmap
                | rewrite binop_column_vec
                | rewrite binop_scalar_outer
                | rewrite binop_scalar_column
                | rewrite binop_vec_outer
                | rewrite binop_outer_column
                | rewrite binop_column_outer ];
          cbn [mbind outcome_bind]).
  rewrite amap_outer.
  cbv beta delta [compose].
  rewrite (outer_ext steps _ _
             (λ si sj, actor_entry (flog (taken_probability logits sj))
                         (step_reward sj)
                         (BaseActorCriticPolicy.discount_factor self)
                         (V (step_next_observation si))
                         (V (step_observation si)) (step_done sj))).
  rewrite (outer_ext steps _ _
             (λ si sj, critic_entry (step_reward sj)
                         (BaseActorCriticPolicy.discount_factor self)
                         (V (step_next_observation si))
                         (V (step_observation si)) (step_done sj))).
  reflexivity.
Qed.
End VectorCritic.

(** ** Actor-critic with a critic of output shape [1] *)

(** X12. When the critic returns an array of shape [1] for every
    observation, as [Network.get_logits] documents, and the rows of a
    non-empty batch fit the action set, [ActorCriticPolicy.compute_loss]
    returns means over all pairs [(i, j)] of rows: the values [V(s_i)] and
    [V(s'_i)] come from row [i] and the reward, the done flag and the
    log-probability from row [j].  The loss is the sum of the two entries
    of the dictionary. *)
Theorem actor_critic_loss_with_vector_critic :
  ∀ (Obs Params OptState : Type)
    (self : BaseActorCriticPolicy.t Obs Params OptState)
    (actor_parameters critic_parameters : Params) (n_actions : nat)
    (logits : Obs → list R) (V : Obs → R) (steps : list (Step Obs)),
    n_actions ≠ 0%nat →
    (∀ o, Network.model_functions (BaseActorCriticPolicy.critic self)
            critic_parameters o = Vec [V o]) →
    steps ≠ [] →
    Forall (fits self actor_parameters n_actions logits) steps →
    ActorCriticPolicy.compute_loss self (actor_parameters, critic_parameters)
      (batch_of steps)
    = Returns
        (fadd
           (pairwise_actor_loss (BaseActorCriticPolicy.discount_factor self)
              logits V steps)
           (pairwise_critic_loss (BaseActorCriticPolicy.discount_factor self)
              V steps),
         <["Critic loss" :=
             pairwise_critic_loss
               (BaseActorCriticPolicy.discount_factor self) V steps]>
           {["Actor loss" :=
               pairwise_actor_loss
                 (BaseActorCriticPolicy.discount_factor self) logits V
                 steps]}).
Proof.
  intros Obs Params OptState self ap cp n logits V steps Hn Hcritic Hne Hfit.
  by apply (vector_critic_loss self ap cp n logits V).
Qed.

Lemma actor_critic_loss_with_vector_critic_witness :
  (4 ≠ 0)%nat
  ∧ (∀ o, Network.model_functions
            (BaseActorCriticPolicy.critic Fixtures.actor_critic) tt o
          = Vec [default 0 (head o)])
  ∧ same_state_steps ≠ []
  ∧ Forall (fits Fixtures.actor_critic tt 4 (λ o, o)) same_state_steps
  ∧ ActorCriticPolicy.compute_loss Fixtures.actor_critic (tt, tt)
      (batch_of same_state_steps)
    = Returns
        (fadd
           (pairwise_actor_loss 1 (λ o, o) (λ o, default 0 (head o))
              same_state_steps)
           (pairwise_critic_loss 1 (λ o, default 0 (head o))
              same_state_steps),
         <["Critic loss" :=
             pairwise_critic_loss 1 (λ o, default 0 (head o))
               same_state_steps]>
           {["Actor loss" :=
               pairwise_actor_loss 1 (λ o, o) (λ o, default 0 (head o))
                 same_state_steps]}).
Proof.
  assert (Hn : (4 ≠ 0)%nat) by lia.
  assert (Hcritic : ∀ o, Network.model_functions
            (BaseActorCriticPolicy.critic Fixtures.actor_critic) tt o
          = Vec [default 0 (head o)]) by reflexivity.
  assert (Hne : same_state_steps ≠ []) by discriminate.
  assert (Hfit : Forall (fits Fixtures.actor_critic tt 4 (λ o, o))
                   same_state_steps).
  { constructor;
      [split; [reflexivity|split; [reflexivity|split;
         [reflexivity|cbn; lia]]]|].
    constructor;
      [split; [reflexivity|split; [reflexivity|split;
         [reflexivity|cbn; lia]]]|].
    constructor. }
  split; [exact Hn|]. split; [exact Hcritic|]. split; [exact Hne|].
  split; [exact Hfit|].
  exact (actor_critic_loss_with_vector_critic (list R) unit unit
           Fixtures.actor_critic tt tt 4%nat (λ o, o)
           (λ o, default 0 (head o)) same_state_steps Hn Hcritic Hne Hfit).
Defined.

Lemma mean_one (x : float) : fdiv (fadd x (Fin 0)) (Fin (INR 1)) = x.
Proof.
  change (INR 1) with 1.
  destruct x as [a| | |]; cbn; [|by destruct (Rlt_dec 1 0); [lra|]..|done].
  rewrite decide_False by lra. f_equal. lra.
Qed.

(** X13. On a batch of one transition the pairs are the rows: with a critic
    of output shape [1], [ActorCriticPolicy.compute_loss] on a single
    transition that fits the action set returns the per-example losses
    [- log pi(a|s) * (target - V(s))] and [1/2 * (V(s) - target)^2] with
    [target = r + gamma * V(s') * (1 - done)], and their sum is the
    per-example loss. *)
Theorem actor_critic_loss_on_one_transition :
  ∀ (Obs Params OptState : Type)
    (self : BaseActorCriticPolicy.t Obs Params OptState)
    (actor_parameters critic_parameters : Params) (n_actions : nat)
    (logits : Obs → list R) (V : Obs → R) (s : Step Obs),
    n_actions ≠ 0%nat →
    (∀ o, Network.model_functions (BaseActorCriticPolicy.critic self)
            critic_parameters o = Vec [V o]) →
    fits self actor_parameters n_actions logits s →
    let target :=
      step_reward s
      + BaseActorCriticPolicy.discount_factor self
        * V (step_next_observation s)
        * (1 - ReinforcePolicy.b2r (step_done s)) in
    let actor_loss :=
      fneg (fmul (flog (taken_probability logits s))
              (Fin (target - V (step_observation s)))) in
    let critic_loss :=
      Fin (1 / 2 * ((V (step_observation s) - target)
                    * (V (step_observation s) - target))) in
    ActorCriticPolicy.compute_loss self (actor_parameters, critic_parameters)
      (batch_of [s])
    = Returns (fadd actor_loss critic_loss,
               <["Critic loss" := critic_loss]>
                 {["Actor loss" := actor_loss]})
    ∧ Spec.actor_critic_loss self (actor_parameters, critic_parameters)
        (batch_of [s])
      = Returns (fadd actor_loss critic_loss).
Proof.
  intros Obs Params OptState self ap cp n logits V s Hn Hcritic Hfit.
  assert (Hne : [s] ≠ []) by discriminate.
  assert (Hfits : Forall (fits self ap n logits) [s])
    by (constructor; [exact Hfit|constructor]).
  cbv zeta. split.
  - rewrite (vector_critic_loss self ap cp n logits V Hn Hcritic [s] Hne
               Hfits).
    unfold pairwise_actor_loss, pairwise_critic_loss, pair_target, outer,
      mean, sum, fsum.
    cbn [fmap list_fmap elements concat app foldr length].
    rewrite !mean_one. reflexivity.
  - unfold Spec.actor_critic_loss.
    cbn [batch_of observation next_observation reward done action
         action_mask].
    rewrite (spec_probabilities self ap n logits Hn [s] Hfits).
    unfold Spec.value, Network.get_logits.
    cbn [fmap list_fmap mapM]. rewrite !Hcritic.
    cbn [amap fmap list_fmap mbind outcome_bind mret outcome_ret zip_with].
    unfold mean, sum, fsum.
    cbn [fmap list_fmap elements foldr length].
    rewrite !mean_one.
    by destruct (step_done s).
Qed.

Lemma actor_critic_loss_on_one_transition_witness :
  (4 ≠ 0)%nat
  ∧ (∀ o, Network.model_functions
            (BaseActorCriticPolicy.critic Fixtures.actor_critic) tt o
          = Vec [default 0 (head o)])
  ∧ fits Fixtures.actor_critic tt 4 (λ o, o) step_a
  ∧ fst <$> ActorCriticPolicy.compute_loss Fixtures.actor_critic (tt, tt)
              (batch_of [step_a])
    = Spec.actor_critic_loss Fixtures.actor_critic (tt, tt)
        (batch_of [step_a]).
Proof.
  assert (Hn : (4 ≠ 0)%nat) by lia.
  assert (Hcritic : ∀ o, Network.model_functions
            (BaseActorCriticPolicy.critic Fixtures.actor_critic) tt o
          = Vec [default 0 (head o)]) by reflexivity.
  assert (Hfit : fits Fixtures.actor_critic tt 4 (λ o, o) step_a).
  { split; [reflexivity|split; [reflexivity|split; [reflexivity|cbn; lia]]]. }
  split; [exact Hn|]. split; [exact Hcritic|]. split; [exact Hfit|].
  destruct (actor_critic_loss_on_one_transition (list R) unit unit
              Fixtures.actor_critic tt tt 4%nat (λ o, o)
              (λ o, default 0 (head o)) step_a Hn Hcritic Hfit)
    as [Hcode Hspec].
  rewrite Hcode, Hspec. reflexivity.
Defined.

(** ** REINFORCE with baseline *)

Lemma fmap_fst_zip {A B C : Type} (f : A → C) (l : list A) (k : list B) :
  length l = length k → f <$> l = (λ p, f p.1) <$> zip l k.
Proof.
  revert k. induction l as [|a l IH]; intros [|b k] Hlen;
    try discriminate; [reflexivity|].
  cbn. f_equal. apply IH. by injection Hlen.
Qed.

Lemma fmap_snd_zip {A B C : Type} (f : B → C) (l : list A) (k : list B) :
  length l = length k → f <$> k = (λ p, f p.2) <$> zip l k.
Proof.
  revert k. induction l as [|a l IH]; intros [|b k] Hlen;
    try discriminate; [reflexivity|].
  cbn. f_equal. apply IH. by injection Hlen.
Qed.

Section Baseline.
Context {Obs Params OptState : Type}.
Variable self : BaseActorCriticPolicy.t Obs Params OptState.
Variables actor_parameters critic_parameters : Params.
Variable n_actions : nat.
Variable logits : Obs → list R.
Variable V : Obs → R.
Hypothesis some_action : n_actions ≠ 0%nat.
Variable steps : list (Step Obs).
Hypothesis steps_nonempty : steps ≠ [].
Hypothesis steps_well_formed :
  Forall (fits self actor_parameters n_actions logits) steps.

Lemma length_with_returns (discount_factor : R) :
  length steps
  = length (discounted discount_factor (step_reward <$> steps)
              (step_done <$> steps)).
Proof. rewrite length_discounted; by rewrite !length_fmap. Qed.

Lemma baseline_scalar_critic_loss :
  (∀ o, Network.model_functions (BaseActorCriticPolicy.critic self)
          critic_parameters o = Scalar (V o)) →
  ReinforceBaselinePolicy.compute_loss self
    (actor_parameters, critic_parameters) (batch_of steps)
  = Returns
      (fadd
         (baseline_actor_loss (BaseActorCriticPolicy.discount_factor self)
            logits V steps)
         (baseline_value_loss (BaseActorCriticPolicy.discount_factor self)
            V steps),
       <["Value network loss" :=
           baseline_value_loss (BaseActorCriticPolicy.discount_factor self)
             V steps]>
         {["Actor loss" :=
             baseline_actor_loss (BaseActorCriticPolicy.discount_factor self)
               logits V steps]}).
Proof.
  intros Hcritic.
  unfold ReinforceBaselinePolicy.compute_loss,
    ActorCriticPolicy.stop_gradient.
  rewrite compute_discounted_returns_discounted
    by (cbn; by rewrite !length_fmap).
  cbn [batch_of observation action action_mask reward done
       next_observation mbind outcome_bind].
  rewrite (batch_values self critic_parameters V Hcritic steps
             step_observation).
  rewrite (scan_log_probabilities self actor_parameters n_actions logits
             some_action steps steps_nonempty steps_well_formed).
  cbn [mbind outcome_bind].
  rewrite <- ?list_fmap_compose.
  pose proof (length_with_returns (BaseActorCriticPolicy.discount_factor
                                     self)) as Hlen.
  rewrite (fmap_snd_zip Fin steps _ Hlen).
  rewrite (fmap_fst_zip (λ s, Fin (V (step_observation s))) steps _ Hlen).
  rewrite (fmap_fst_zip (λ s, flog (taken_probability logits s)) steps _ Hlen).
  fold (with_returns (BaseActorCriticPolicy.discount_factor self) steps).
  unfold sub, mul.
  repeat (rewrite binop_vec_fmap; cbn [mbind outcome_bind]).
  cbn [amap]. rewrite <- ?list_fmap_compose.
  reflexivity.
Qed.

Lemma baseline_vector_critic_loss :
  (∀ o, Network.model_functions (BaseActorCriticPolicy.critic self)
          critic_parameters o = Vec [V o]) →
  ReinforceBaselinePolicy.compute_loss self
    (actor_parameters, critic_parameters) (batch_of steps)
  = Returns
      (fadd
         (pairwise_baseline_actor_loss
            (BaseActorCriticPolicy.discount_factor self) logits V steps)
         (pairwise_baseline_value_loss
            (BaseActorCriticPolicy.discount_factor self) V steps),
       <["Value network loss" :=
           pairwise_baseline_value_loss
             (BaseActorCriticPolicy.discount_factor self) V steps]>
         {["Actor loss" :=
             pairwise_baseline_actor_loss
               (BaseActorCriticPolicy.discount_factor self) logits V
               steps]}).
Proof.
  intros Hcritic.
  unfold ReinforceBaselinePolicy.compute_loss,
    ActorCriticPolicy.stop_gradient.
  rewrite compute_discounted_returns_discounted
    by (cbn; by rewrite !length_fmap).
  cbn [batch_of observation action action_mask reward done
       next_observation mbind outcome_bind].
  rewrite (scan_log_probabilities self actor_parameters n_actions logits
             some_action steps steps_nonempty steps_well_formed).
  rewrite (batch_value_column self critic_parameters V Hcritic steps
             steps_nonempty step_observation).
  cbn [mbind outcome_bind].
  rewrite <- ?list_fmap_compose.
  pose proof (length_with_returns (BaseActorCriticPolicy.discount_factor
                                     self)) as Hlen.
  unfold column.
  rewrite (fmap_snd_zip Fin steps _ Hlen).
  rewrite (fmap_fst_zip (λ s, [Fin (V (step_observation s))]) steps _ Hlen).
  rewrite (fmap_fst_zip (λ s, flog (taken_probability logits s)) steps _
             Hlen).
  fold (with_returns (BaseActorCriticPolicy.discount_factor self) steps).
  fold (column (λ p : Step Obs * R, Fin (V (step_observation p.1)))
          (with_returns (BaseActorCriticPolicy.discount_factor self) steps)).
  cbn [mbind outcome_bind].
  unfold sub, mul.
  rewrite binop_vec_column. cbn [mbind outcome_bind].
  rewrite binop_vec_outer. cbn [mbind outcome_bind].
  rewrite amap_outer.
  reflexivity.
Qed.
End Baseline.

(** X14. When the critic returns a 0-d scalar for every observation and the
    rows of a non-empty batch fit the action set,
    [ReinforceBaselinePolicy.compute_loss] returns the per-example losses:
    with [G] the discounted returns of the batch, the actor loss is
    [- mean (log pi(a_i|s_i) * (G_i - V(s_i)))], the value-network loss is
    [mean ((G_i - V(s_i))^2)], the loss is their sum, and the dictionary
    holds the two under the keys ["Actor loss"] and
    ["Value network loss"]. *)
Theorem baseline_loss_with_scalar_critic :
  ∀ (Obs Params OptState : Type)
    (self : BaseActorCriticPolicy.t Obs Params OptState)
    (actor_parameters critic_parameters : Params) (n_actions : nat)
    (logits : Obs → list R) (V : Obs → R) (steps : list (Step Obs)),
    n_actions ≠ 0%nat →
    (∀ o, Network.model_functions (BaseActorCriticPolicy.critic self)
            critic_parameters o = Scalar (V o)) →
    steps ≠ [] →
    Forall (fits self actor_parameters n_actions logits) steps →
    ReinforceBaselinePolicy.compute_loss self
      (actor_parameters, critic_parameters) (batch_of steps)
    = Returns
        (fadd
           (baseline_actor_loss (BaseActorCriticPolicy.discount_factor self)
              logits V steps)
           (baseline_value_loss (BaseActorCriticPolicy.discount_factor self)
              V steps),
         <["Value network loss" :=
             baseline_value_loss
               (BaseActorCriticPolicy.discount_factor self) V steps]>
           {["Actor loss" :=
               baseline_actor_loss
                 (BaseActorCriticPolicy.discount_factor self) logits V
                 steps]}).
Proof.
  intros Obs Params OptState self ap cp n logits V steps Hn Hcritic Hne Hfit.
  by apply (baseline_scalar_critic_loss self ap cp n logits V).
Qed.

Lemma baseline_loss_with_scalar_critic_witness :
  (4 ≠ 0)%nat
  ∧ (∀ o, Network.model_functions
            (BaseActorCriticPolicy.critic Fixtures.actor_scalar_critic) tt o
          = Scalar (default 0 (head o)))
  ∧ same_state_steps ≠ []
  ∧ Forall (fits Fixtures.actor_scalar_critic tt 4 (λ o, o)) same_state_steps
  ∧ ReinforceBaselinePolicy.compute_loss Fixtures.actor_scalar_critic (tt, tt)
      (batch_of same_state_steps)
    = Returns
        (fadd
           (baseline_actor_loss 1 (λ o, o) (λ o, default 0 (head o))
              same_state_steps)
           (baseline_value_loss 1 (λ o, default 0 (head o))
              same_state_steps),
         <["Value network loss" :=
             baseline_value_loss 1 (λ o, default 0 (head o))
               same_state_steps]>
           {["Actor loss" :=
               baseline_actor_loss 1 (λ o, o)
                 (λ o, default 0 (head o)) same_state_steps]}).
Proof.
  assert (Hn : (4 ≠ 0)%nat) by lia.
  assert (Hcritic : ∀ o, Network.model_functions
            (BaseActorCriticPolicy.critic Fixtures.actor_scalar_critic) tt o
          = Scalar (default 0 (head o))) by reflexivity.
  assert (Hne : same_state_steps ≠ []) by discriminate.
  assert (Hfit : Forall (fits Fixtures.actor_scalar_critic tt 4 (λ o, o))
                   same_state_steps).
  { constructor;
      [split; [reflexivity|split; [reflexivity|split;
         [reflexivity|cbn; lia]]]|].
    constructor;
      [split; [reflexivity|split; [reflexivity|split;
         [reflexivity|cbn; lia]]]|].
    constructor. }
  split; [exact Hn|]. split; [exact Hcritic|]. split; [exact Hne|].
  split; [exact Hfit|].
  exact (baseline_loss_with_scalar_critic (list R) unit unit
           Fixtures.actor_scalar_critic tt tt 4%nat (λ o, o)
           (λ o, default 0 (head o)) same_state_steps Hn Hcritic Hne Hfit).
Defined.

(** X15. When the critic returns an array of shape [1] for every
    observation, [G - critic_logits] in
    [ReinforceBaselinePolicy.compute_loss] has shape [B, B] with the entry
    [G_j - V(s_i)] at [(i, j)]: the actor loss is
    [- mean over (i, j) of log pi(a_j|s_j) * (G_j - V(s_i))] and the
    value-network loss is [mean over (i, j) of (G_j - V(s_i))^2]. *)
Theorem baseline_loss_with_vector_critic :
  ∀ (Obs Params OptState : Type)
    (self : BaseActorCriticPolicy.t Obs Params OptState)
    (actor_parameters critic_parameters : Params) (n_actions : nat)
    (logits : Obs → list R) (V : Obs → R) (steps : list (Step Obs)),
    n_actions ≠ 0%nat →
    (∀ o, Network.model_functions (BaseActorCriticPolicy.critic self)
            critic_parameters o = Vec [V o]) →
    steps ≠ [] →
    Forall (fits self actor_parameters n_actions logits) steps →
    ReinforceBaselinePolicy.compute_loss self
      (actor_parameters, critic_parameters) (batch_of steps)
    = Returns
        (fadd
           (pairwise_baseline_actor_loss
              (BaseActorCriticPolicy.discount_factor self)
              logits V steps)
           (pairwise_baseline_value_loss
              (BaseActorCriticPolicy.discount_factor self)
              V steps),
         <["Value network loss" :=
             pairwise_baseline_value_loss
               (BaseActorCriticPolicy.discount_factor self) V steps]>
           {["Actor loss" :=
               pairwise_baseline_actor_loss
                 (BaseActorCriticPolicy.discount_factor self) logits V
                 steps]}).
Proof.
  intros Obs Params OptState self ap cp n logits V steps Hn Hcritic Hne Hfit.
  by apply (baseline_vector_critic_loss self ap cp n logits V).
Qed.

Lemma baseline_loss_with_vector_critic_witness :
  (4 ≠ 0)%nat
  ∧ (∀ o, Network.model_functions
            (BaseActorCriticPolicy.critic Fixtures.actor_critic) tt o
          = Vec [default 0 (head o)])
  ∧ same_state_steps ≠ []
  ∧ Forall (fits Fixtures.actor_critic tt 4 (λ o, o)) same_state_steps
  ∧ ReinforceBaselinePolicy.compute_loss Fixtures.actor_critic (tt, tt)
      (batch_of same_state_steps)
    = Returns
        (fadd
           (pairwise_baseline_actor_loss 1 (λ o, o) (λ o, default 0 (head o))
              same_state_steps)
           (pairwise_baseline_value_loss 1 (λ o, default 0 (head o))
              same_state_steps),
         <["Value network loss" :=
             pairwise_baseline_value_loss 1 (λ o, default 0 (head o))
               same_state_steps]>
           {["Actor loss" :=
               pairwise_baseline_actor_loss 1 (λ o, o)
                 (λ o, default 0 (head o)) same_state_steps]}).
Proof.
  assert (Hn : (4 ≠ 0)%nat) by lia.
  assert (Hcritic : ∀ o, Network.model_functions
            (BaseActorCriticPolicy.critic Fixtures.actor_critic) tt o
          = Vec [default 0 (head o)]) by reflexivity.
  assert (Hne : same_state_steps ≠ []) by discriminate.
  assert (Hfit : Forall (fits Fixtures.actor_critic tt 4 (λ o, o))
                   same_state_steps).
  { constructor;
      [split; [reflexivity|split; [reflexivity|split;
         [reflexivity|cbn; lia]]]|].
    constructor;
      [split; [reflexivity|split; [reflexivity|split;
         [reflexivity|cbn; lia]]]|].
    constructor. }
  split; [exact Hn|]. split; [exact Hcritic|]. split; [exact Hne|].
  split; [exact Hfit|].
  exact (baseline_loss_with_vector_critic (list R) unit unit
           Fixtures.actor_critic tt tt 4%nat (λ o, o)
           (λ o, default 0 (head o)) same_state_steps Hn Hcritic Hne Hfit).
Defined.

(** ** A single permitted action *)

Lemma valid_entries_none {A : Type} (mask : list bool) (xs : list A) :
  (∀ i, mask !! i ≠ Some true) → valid_entries mask xs = [].
Proof.
  revert xs. induction mask as [|c mask IH]; intros [|x xs] Hnone;
    try reflexivity.
  cbn. destruct c; [by specialize (Hnone 0%nat)|].
  apply IH. intros i. apply (Hnone (S i)).
Qed.

Lemma valid_entries_single {A : Type} (mask : list bool) (xs : list A)
    (a : nat) (x : A) :
  mask !! a = Some true → (∀ i, mask !! i = Some true → i = a) →
  xs !! a = Some x → valid_entries mask xs = [x].
Proof.
  revert xs a.
  induction mask as [|c mask IH]; intros [|y xs] a Ha Honly Hx;
    try discriminate.
  destruct a as [|a].
  - cbn in Ha, Hx. injection Ha as ->. injection Hx as ->. cbn. f_equal.
    apply valid_entries_none. intros i Hi.
    by specialize (Honly (S i) Hi).
  - cbn in Ha, Hx. destruct c; [by specialize (Honly 0%nat eq_refl)|].
    cbn. apply (IH xs a); [done| |done].
    intros i Hi. specialize (Honly (S i) Hi). lia.
Qed.

Lemma masked_softmax_lookup mask (l : list R) (a : nat) :
  length mask = length l → mask !! a = Some true →
  ∃ p, masked_softmax mask l !! a = Some p.
Proof.
  intros Hlen Ha.
  assert (Hlt : (a < length l)%nat)
    by (rewrite <- Hlen; by eapply lookup_lt_Some).
  destruct (lookup_lt_is_Some_2 l a Hlt) as [v Hv].
  unfold masked_softmax. eexists.
  rewrite lookup_zip_with, Ha. cbn [mbind option_bind].
  rewrite list_lookup_fmap, lookup_zip_with, Ha. cbn [mbind option_bind].
  rewrite Hv. reflexivity.
Qed.

Lemma masked_softmax_forced mask (l : list R) (a : nat) :
  length mask = length l → mask !! a = Some true →
  (∀ i, mask !! i = Some true → i = a) →
  masked_softmax mask l = ReinforcePolicy.b2r <$> mask.
Proof.
  intros Hlen Ha Honly.
  assert (Hin : true ∈ mask) by (by eapply list_elem_of_lookup_2).
  apply list_eq. intros i. rewrite list_lookup_fmap.
  destruct (mask !! i) as [[|]|] eqn:Hi.
  - apply Honly in Hi as ->.
    destruct (masked_softmax_lookup mask l a Hlen Ha) as (p & Hp).
    rewrite Hp. cbn. f_equal.
    pose proof (rsum_masked_softmax mask l Hlen Hin) as Hsum.
    rewrite (valid_entries_single mask _ a p Ha Honly Hp) in Hsum.
    cbn in Hsum. lra.
  - by rewrite masked_softmax_forbidden.
  - cbn. apply lookup_ge_None. rewrite length_masked_softmax by done.
    by apply lookup_ge_None.
Qed.

Lemma row_probabilities_forced mask (l : list R) (a : nat) :
  length mask = length l → mask !! a = Some true →
  (∀ i, mask !! i = Some true → i = a) →
  row_probabilities (Fin <$> l) mask = of_bool <$> mask.
Proof.
  intros Hlen Ha Honly.
  rewrite row_probabilities_Fin; [|done|by eapply list_elem_of_lookup_2].
  rewrite (masked_softmax_forced mask l a) by done.
  rewrite <- list_fmap_compose. apply list_fmap_ext.
  by intros i [|] _.
Qed.

(** X17. When the mask permits exactly one action, the vector returned by
    [get_action_probabilities] of [ReinforcePolicy] and of
    [BaseActorCriticPolicy] is the mask itself as numbers, whatever the
    logits: probability exactly 1 for the permitted action and exactly 0
    for every other. *)
Theorem get_action_probabilities_of_forced_action :
  (∀ (Obs Params OptState : Type)
     (self : ReinforcePolicy.t Obs Params OptState)
     (model_parameters : Params) (observation : Obs)
     (action_mask : list bool) (logits : list R) (a : nat),
     Network.model_functions (ReinforcePolicy.actor self) model_parameters
       observation = Vec logits →
     length action_mask = length logits →
     action_mask !! a = Some true →
     (∀ i, action_mask !! i = Some true → i = a) →
     ReinforcePolicy.get_action_probabilities self model_parameters
       (Obs3 observation) (Vec action_mask)
     = Returns (Vec (of_bool <$> action_mask)))
  ∧ (∀ (Obs Params OptState : Type)
       (self : BaseActorCriticPolicy.t Obs Params OptState)
       (model_parameters : Params) (observation : Obs)
       (action_mask : list bool) (logits : list R) (a : nat),
       Network.model_functions (BaseActorCriticPolicy.actor self)
         model_parameters observation = Vec logits →
       length action_mask = length logits →
       action_mask !! a = Some true →
       (∀ i, action_mask !! i = Some true → i = a) →
       BaseActorCriticPolicy.get_action_probabilities self model_parameters
         observation (Vec action_mask)
       = Returns (Vec (of_bool <$> action_mask))).
Proof.
  assert (Hne : ∀ (mask : list bool) (l : list R) a,
            length mask = length l → mask !! a = Some true → l ≠ []).
  { intros mask l a Hlen Ha ->. by destruct mask. }
  split.
  - intros Obs Params OptState self params obs mask l a Hl Hlen Ha Honly.
    rewrite (reinforce_unbatched_probabilities self params obs mask l)
      by eauto.
    by rewrite (row_probabilities_forced mask l a).
  - intros Obs Params OptState self params obs mask l a Hl Hlen Ha Honly.
    rewrite (actor_critic_probabilities self params obs mask l) by eauto.
    by rewrite (row_probabilities_forced mask l a).
Qed.

Lemma get_action_probabilities_of_forced_action_witness :
  Network.model_functions (ReinforcePolicy.actor Fixtures.reinforce) tt
    [3; 1; 2; 0] = Vec [3; 1; 2; 0]
  ∧ length [false; true; false; false] = length [3; 1; 2; 0]
  ∧ [false; true; false; false] !! 1%nat = Some true
  ∧ (∀ i, [false; true; false; false] !! i = Some true → i = 1%nat)
  ∧ ReinforcePolicy.get_action_probabilities Fixtures.reinforce tt
      (Obs3 [3; 1; 2; 0]) (Vec [false; true; false; false])
    = Returns (Vec [Fin 0; Fin 1; Fin 0; Fin 0]).
Proof.
  assert (Honly : ∀ i, [false; true; false; false] !! i = Some true
                       → i = 1%nat).
  { intros [|[|[|[|i]]]] Hi; try discriminate; reflexivity. }
  split; [reflexivity|]. split; [reflexivity|]. split; [reflexivity|].
  split; [exact Honly|].
  exact (proj1 get_action_probabilities_of_forced_action
           (list R) unit unit Fixtures.reinforce tt [3; 1; 2; 0]
           [false; true; false; false] [3; 1; 2; 0] 1%nat
           eq_refl eq_refl eq_refl Honly).
Defined.

(** ** The learning-rate schedule, in general *)

Section Schedule.
Variable learning_rate : R.
Variable lr_decay : Z.
Hypothesis learning_rate_positive : 0 < learning_rate.
Hypothesis lr_decay_positive : (1 ≤ lr_decay)%Z.

Lemma decay_rate_bounds : 0 < Rmin learning_rate (1 / 100000) < 1.
Proof.
  unfold Rmin. destruct (Rle_dec learning_rate (1 / 100000)); lra.
Qed.

Lemma IZR_lr_decay_positive : 0 < IZR lr_decay.
Proof. apply (IZR_lt 0). lia. Qed.

Lemma scheduler_at_0 :
  Network.learning_rate_scheduler learning_rate (Some lr_decay) 0
  = learning_rate.
Proof.
  pose proof decay_rate_bounds as Hrate.
  unfold Network.learning_rate_scheduler, Optax.exponential_decay.
  rewrite decide_False by lia. rewrite decide_False by lra.
  destruct (Rlt_dec (1 / 2) 0) as [Hneg|_]; [lra|].
  cbn [INR].
  destruct (Rle_dec (0 - 1 / 2) 0) as [_|Hgt]; [reflexivity|lra].
Qed.

Lemma scheduler_after_0 (count : nat) :
  (1 ≤ count)%nat →
  Network.learning_rate_scheduler learning_rate (Some lr_decay) count
  = learning_rate
    * Rpower (Rmin learning_rate (1 / 100000))
        ((INR count - 1 / 2) / IZR lr_decay).
Proof.
  intros Hcount. pose proof decay_rate_bounds as Hrate.
  apply le_INR in Hcount. change (INR 1) with 1 in Hcount.
  unfold Network.learning_rate_scheduler, Optax.exponential_decay.
  rewrite decide_False by lia. rewrite decide_False by lra.
  destruct (Rlt_dec (1 / 2) 0) as [Hneg|_]; [lra|].
  destruct (Rle_dec (INR count - 1 / 2) 0) as [Hle|_]; [lra|reflexivity].
Qed.

Lemma Rpower_decay_lt_1 (x : R) :
  0 < x → Rpower (Rmin learning_rate (1 / 100000)) x < 1.
Proof.
  intros Hx. pose proof decay_rate_bounds as Hrate.
  rewrite <- (Rpower_O (Rmin learning_rate (1 / 100000))) at 2 by lra.
  by apply Rpower_base_lt_1_decr.
Qed.

Lemma exponent_positive (count : nat) :
  (1 ≤ count)%nat → 0 < (INR count - 1 / 2) / IZR lr_decay.
Proof.
  intros Hcount. pose proof IZR_lr_decay_positive as Hd.
  apply le_INR in Hcount. change (INR 1) with 1 in Hcount.
  apply Rmult_lt_0_compat; [lra|by apply Rinv_0_lt_compat].
Qed.

Lemma scheduler_decreases (count : nat) :
  Network.learning_rate_scheduler learning_rate (Some lr_decay) (S count)
  < Network.learning_rate_scheduler learning_rate (Some lr_decay) count.
Proof.
  pose proof decay_rate_bounds as Hrate.
  pose proof IZR_lr_decay_positive as Hd.
  rewrite (scheduler_after_0 (S count)) by lia.
  destruct count as [|count].
  - rewrite scheduler_at_0.
    pose proof (Rpower_decay_lt_1 _ (exponent_positive 1 (le_n 1))). nra.
  - rewrite (scheduler_after_0 (S count)) by lia.
    apply Rmult_lt_compat_l; [done|].
    apply Rpower_base_lt_1_decr; [done|].
    apply Rmult_lt_compat_r; [by apply Rinv_0_lt_compat|].
    rewrite (S_INR (S count)). lra.
Qed.

Lemma scheduler_bounds (count : nat) :
  0 < Network.learning_rate_scheduler learning_rate (Some lr_decay) count
  <= learning_rate.
Proof.
  destruct count as [|count].
  - rewrite scheduler_at_0. lra.
  - rewrite scheduler_after_0 by lia.
    pose proof (Rpower_decay_lt_1 _ (exponent_positive (S count)
                                       ltac:(lia))) as Hlt.
    assert (Hpos : 0 < Rpower (Rmin learning_rate (1 / 100000))
                         ((INR (S count) - 1 / 2) / IZR lr_decay))
      by apply exp_pos.
    split; [by apply Rmult_lt_0_compat|nra].
Qed.

Lemma scheduler_period (count : nat) :
  (1 ≤ count)%nat →
  Network.learning_rate_scheduler learning_rate (Some lr_decay)
    (count + Z.to_nat lr_decay)
  = Rmin learning_rate (1 / 100000)
    * Network.learning_rate_scheduler learning_rate (Some lr_decay) count.
Proof.
  intros Hcount. pose proof decay_rate_bounds as Hrate.
  pose proof IZR_lr_decay_positive as Hd.
  rewrite !scheduler_after_0 by lia.
  rewrite plus_INR, (INR_IZR_INZ (Z.to_nat lr_decay)), Z2Nat.id by lia.
  replace ((INR count + IZR lr_decay - 1 / 2) / IZR lr_decay)
    with ((INR count - 1 / 2) / IZR lr_decay + 1) by (field; lra).
  rewrite Rpower_plus, Rpower_1 by lra. ring.
Qed.
End Schedule.

(** X18. With a positive learning rate and [lr_decay >= 1], the schedule
    that [Network.__init__] hands to the optimizer is the learning rate at
    step 0 and
    [learning_rate * min(learning_rate, 1e-5) ^ ((count - 0.5) / lr_decay)]
    from step 1 on: it never exceeds the learning rate, never increases,
    and every further [lr_decay] steps multiply the rate by
    [min(learning_rate, 1e-5)], not by one half.  (Over the reals the
    schedule stays positive and decreases strictly; in [float32] it reaches
    0, hence the bounds are stated with [<=].) *)
Theorem learning_rate_scheduler_decays_geometrically :
  ∀ (learning_rate : R) (lr_decay : Z),
    0 < learning_rate → (1 ≤ lr_decay)%Z →
    Network.learning_rate_scheduler learning_rate (Some lr_decay) 0
    = learning_rate
    ∧ (∀ count, (1 ≤ count)%nat →
         Network.learning_rate_scheduler learning_rate (Some lr_decay) count
         = learning_rate
           * Rpower (Rmin learning_rate (1 / 100000))
               ((INR count - 1 / 2) / IZR lr_decay))
    ∧ (∀ count,
         0 <= Network.learning_rate_scheduler learning_rate (Some lr_decay)
                count <= learning_rate)
    ∧ (∀ count,
         Network.learning_rate_scheduler learning_rate (Some lr_decay)
           (S count)
         <= Network.learning_rate_scheduler learning_rate (Some lr_decay)
              count)
    ∧ (∀ count, (1 ≤ count)%nat →
         Network.learning_rate_scheduler learning_rate (Some lr_decay)
           (count + Z.to_nat lr_decay)
         = Rmin learning_rate (1 / 100000)
           * Network.learning_rate_scheduler learning_rate (Some lr_decay)
               count).
Proof.
  intros learning_rate lr_decay Hlr Hdecay.
  split; [by apply scheduler_at_0|].
  split; [intros count Hcount; by apply scheduler_after_0|].
  split.
  { intros count.
    pose proof (scheduler_bounds learning_rate lr_decay Hlr Hdecay count).
    lra. }
  split.
  { intros count. left. by apply scheduler_decreases. }
  intros count Hcount. by apply scheduler_period.
Qed.

Lemma learning_rate_scheduler_decays_geometrically_witness :
  0 < 1 / 1000
  ∧ (1 ≤ 1000)%Z
  ∧ Network.learning_rate_scheduler (1 / 1000) (Some 1000%Z) 0 = 1 / 1000
  ∧ Network.learning_rate_scheduler (1 / 1000) (Some 1000%Z) 2
    <= Network.learning_rate_scheduler (1 / 1000) (Some 1000%Z) 1.
Proof.
  assert (Hlr : 0 < 1 / 1000) by lra.
  assert (Hdecay : (1 ≤ 1000)%Z) by lia.
  split; [exact Hlr|]. split; [exact Hdecay|].
  destruct (learning_rate_scheduler_decays_geometrically (1 / 1000) 1000
              Hlr Hdecay) as (Hstart & _ & _ & Hdecr & _).
  split; [exact Hstart|exact (Hdecr 1%nat)].
Defined.

(** ** A baseline that predicts the returns *)

Lemma fsum_zeros {A : Type} (f : A → float) (ps : list A) :
  Forall (λ p, f p = Fin 0) ps → fsum (f <$> ps) = Fin 0.
Proof.
  induction 1 as [|p ps Hp _ IH]; [reflexivity|].
  cbn [fmap list_fmap fsum foldr]. fold (fsum (f <$> ps)).
  rewrite Hp, IH. cbn. f_equal. lra.
Qed.

Lemma mean_zeros {A : Type} (f : A → float) (ps : list A) :
  ps ≠ [] → Forall (λ p, f p = Fin 0) ps → mean (Vec (f <$> ps)) = Fin 0.
Proof.
  intros Hne Hzero. unfold mean, sum. cbn [elements].
  rewrite fsum_zeros by done. rewrite length_fmap. cbn [fdiv].
  rewrite decide_False by (apply not_0_INR; by destruct ps).
  f_equal. unfold Rdiv. ring.
Qed.

Lemma fadd_NaN_r (x : float) : fadd x NaN = NaN.
Proof. by destruct x. Qed.

Lemma fsum_NaN (v : list float) : NaN ∈ v → fsum v = NaN.
Proof.
  induction v as [|x v IH]; intros Hin; [by apply elem_of_nil in Hin|].
  apply elem_of_cons in Hin as [<-|Hin]; [reflexivity|].
  cbn [fsum foldr]. fold (fsum v). rewrite IH by done. apply fadd_NaN_r.
Qed.

Lemma mean_NaN (v : list float) : NaN ∈ v → mean (Vec v) = NaN.
Proof.
  intros Hin. unfold mean, sum. cbn [elements]. by rewrite fsum_NaN.
Qed.

Lemma taken_probability_forbidden {Obs Params OptState : Type}
    (self : BaseActorCriticPolicy.t Obs Params OptState)
    (actor_parameters : Params) (n_actions : nat) (logits : Obs → list R)
    (s : Step Obs) :
  fits self actor_parameters n_actions logits s →
  step_action_mask s !! step_action s = Some false →
  fmul (flog (taken_probability logits s)) (Fin 0) = NaN.
Proof.
  intros (_ & Hlogits & Hmask & _) Ha. unfold taken_probability.
  rewrite row_probabilities_forbidden
    by (rewrite ?length_fmap; congruence).
  cbn [default]. unfold Datatypes.id. cbn [flog].
  destruct (Rlt_dec 0 0) as [Hlt|_]; [lra|].
  rewrite decide_True by done. cbn [fmul]. unfold scale_inf.
  by rewrite decide_True.
Qed.

(** X19. When the critic (with a 0-d output) predicts the discounted return
    of every row, every advantage of [ReinforceBaselinePolicy.compute_loss]
    is 0: the value-network loss is exactly 0, the actor loss is
    [- mean (log pi(a_i|s_i) * 0)], and the loss is their sum.  If some row
    took an action that its mask forbids, its term is [-inf * 0] and the
    actor loss is NaN. *)
Theorem baseline_value_loss_vanishes_for_exact_critic :
  ∀ (Obs Params OptState : Type)
    (self : BaseActorCriticPolicy.t Obs Params OptState)
    (actor_parameters critic_parameters : Params) (n_actions : nat)
    (logits : Obs → list R) (V : Obs → R) (steps : list (Step Obs)),
    n_actions ≠ 0%nat →
    (∀ o, Network.model_functions (BaseActorCriticPolicy.critic self)
            critic_parameters o = Scalar (V o)) →
    steps ≠ [] →
    Forall (fits self actor_parameters n_actions logits) steps →
    Forall (λ p : Step Obs * R, p.2 = V (step_observation p.1))
      (with_returns (BaseActorCriticPolicy.discount_factor self) steps) →
    let actor_loss :=
      fneg (mean (Vec ((λ s, fmul (flog (taken_probability logits s))
                               (Fin 0)) <$> steps))) in
    ReinforceBaselinePolicy.compute_loss self
      (actor_parameters, critic_parameters) (batch_of steps)
    = Returns (fadd actor_loss (Fin 0),
               <["Value network loss" := Fin 0]>
                 {["Actor loss" := actor_loss]})
    ∧ ((∃ s, s ∈ steps
             ∧ step_action_mask s !! step_action s = Some false) →
       actor_loss = NaN).
Proof.
  intros Obs Params OptState self ap cp n logits V steps Hn Hcritic Hne Hfit
    Hexact actor_loss.
  split.
  - rewrite (baseline_scalar_critic_loss self ap cp n logits V) by done.
    assert (Hps : with_returns (BaseActorCriticPolicy.discount_factor self)
                    steps ≠ []).
    { intros Hnil. apply (f_equal length) in Hnil.
      unfold with_returns in Hnil.
      rewrite length_zip_with, <- length_with_returns in Hnil.
      destruct steps; [done|]. cbn in Hnil. lia. }
    assert (Hvalue : baseline_value_loss
                       (BaseActorCriticPolicy.discount_factor self) V steps
                     = Fin 0).
    { unfold baseline_value_loss. apply mean_zeros; [done|].
      eapply Forall_impl; [exact Hexact|].
      intros p ->. f_equal. ring. }
    assert (Hactor : baseline_actor_loss
                       (BaseActorCriticPolicy.discount_factor self) logits V
                       steps = actor_loss).
    { unfold baseline_actor_loss, actor_loss. do 3 f_equal.
      rewrite (fmap_fst_zip
                 (λ s, fmul (flog (taken_probability logits s)) (Fin 0))
                 steps _
                 (length_with_returns steps
                    (BaseActorCriticPolicy.discount_factor self))).
      fold (with_returns (BaseActorCriticPolicy.discount_factor self) steps).
      apply list_fmap_ext. intros i p Hp.
      rewrite Forall_lookup in Hexact. rewrite (Hexact i p Hp).
      do 2 f_equal. ring. }
    by rewrite Hvalue, Hactor.
  - intros (s & Hs & Hforbidden). unfold actor_loss.
    rewrite mean_NaN; [reflexivity|].
    rewrite <- (taken_probability_forbidden self ap n logits s);
      [|by eapply Forall_forall in Hfit|done].
    apply list_elem_of_fmap. by exists s.
Qed.

Lemma baseline_value_loss_vanishes_for_exact_critic_witness :
  (4 ≠ 0)%nat
  ∧ (∀ o, Network.model_functions
            (BaseActorCriticPolicy.critic Fixtures.actor_scalar_critic) tt o
          = Scalar (default 0 (head o)))
  ∧ [step_valued] ≠ []
  ∧ Forall (fits Fixtures.actor_scalar_critic tt 4 (λ o, o)) [step_valued]
  ∧ Forall (λ p : Step (list R) * R,
              p.2 = default 0 (head (step_observation p.1)))
      (with_returns 1 [step_valued])
  ∧ ∃ actor_loss,
      ReinforceBaselinePolicy.compute_loss Fixtures.actor_scalar_critic
        (tt, tt) (batch_of [step_valued])
      = Returns (fadd actor_loss (Fin 0),
                 <["Value network loss" := Fin 0]>
                   {["Actor loss" := actor_loss]}).
Proof.
  assert (Hn : (4 ≠ 0)%nat) by lia.
  assert (Hcritic : ∀ o, Network.model_functions
            (BaseActorCriticPolicy.critic Fixtures.actor_scalar_critic) tt o
          = Scalar (default 0 (head o))) by reflexivity.
  assert (Hne : [step_valued] ≠ []) by discriminate.
  assert (Hfit : Forall (fits Fixtures.actor_scalar_critic tt 4 (λ o, o))
                   [step_valued]).
  { constructor;
      [split; [reflexivity|split; [reflexivity|split;
         [reflexivity|cbn; lia]]]|].
    constructor. }
  assert (Hexact : Forall (λ p : Step (list R) * R,
                             p.2 = default 0 (head (step_observation p.1)))
                     (with_returns 1 [step_valued])).
  { constructor; [cbn; lra|constructor]. }
  split; [exact Hn|]. split; [exact Hcritic|]. split; [exact Hne|].
  split; [exact Hfit|]. split; [exact Hexact|].
  eexists.
  exact (proj1 (baseline_value_loss_vanishes_for_exact_critic (list R) unit
                  unit Fixtures.actor_scalar_critic tt tt 4%nat (λ o, o)
                  (λ o, default 0 (head o)) [step_valued] Hn Hcritic Hne
                  Hfit Hexact)).
Defined.
